(** * TikTokDeputy: candidate scoring and confidence ranking

    A shallow embedding of the core of the repository:
    - [analyze_tiktok_bio.py]: [normalize_string], [analyze_bio_keywords];
    - [part2_find_tiktok.py]: [calculate_raw_score], [calculate_confidence],
      [process_deputy].

    Conventions.
    - A Python [str] is the list of its Unicode code points ([pystr]).
    - Python [int]s are [Z]; the entries of the score array are the
      integers returned by [calculate_raw_score] (at most 170), far from
      the limits of the array's integer type.
    - Insertion-ordered [dict]s are association lists.
    - The distributor [calculate_confidence] is embedded twice. Module
      [Confidence] reads its floats as real numbers ([np.exp] is the real
      exponential, [/] the real division): the laws of the formulas are
      stated and proved there, in exact arithmetic. Module [ConfidenceF64]
      keeps the binary64 arithmetic of the source and takes [np.exp] as a
      parameter: it runs the function on concrete arrays and shows where
      rounding departs from a law of exact arithmetic. *)

From Stdlib Require Import List ZArith NArith Bool String Ascii Lia.
From Stdlib Require Import Reals Lra.
From Stdlib Require Import Permutation.
From Stdlib Require Floats Uint63.
Import ListNotations.

Set Implicit Arguments.
Set Warnings "-inexact-float".

(* ================================================================= *)
(** ** Python strings *)

Module PyStr.

Definition codepoint := N.
Definition pystr := list codepoint.

(** A literal of the source, e.g. ['depute']. *)
Definition lit (s : string) : pystr :=
  List.map N_of_ascii (list_ascii_of_string s).

Definition pystr_eq_dec : forall a b : pystr, {a = b} + {a <> b} :=
  list_eq_dec N.eq_dec.

Definition eqb (a b : pystr) : bool :=
  if pystr_eq_dec a b then true else false.

(** Truth value of a [str]: non-empty. *)
Definition truthy (s : pystr) : bool :=
  match s with [] => false | _ :: _ => true end.

Definition is_ascii (c : codepoint) : bool := (c <? 128)%N.

(** [c.isupper()] for an ASCII character. *)
Definition is_upper (c : codepoint) : bool := ((65 <=? c) && (c <=? 90))%N.

(** [str.lower()] on one ASCII character. *)
Definition lower_char (c : codepoint) : codepoint :=
  if is_upper c then (c + 32)%N else c.

(** [str.lower()] on a [str] made of ASCII characters only. *)
Definition lower (s : pystr) : pystr := List.map lower_char s.

(** [c.isspace()] for an ASCII character:
    TAB, LF, VT, FF, CR, FS, GS, RS, US and space. *)
Definition is_space (c : codepoint) : bool :=
  (((9 <=? c) && (c <=? 13)) || ((28 <=? c) && (c <=? 32)))%N.

Fixpoint drop_while (p : codepoint -> bool) (s : pystr) : pystr :=
  match s with
  | [] => []
  | c :: t => if p c then drop_while p t else s
  end.

Definition lstrip (s : pystr) : pystr := drop_while is_space s.
Definition rstrip (s : pystr) : pystr := rev (drop_while is_space (rev s)).

(** [str.strip()] with no argument. *)
Definition strip (s : pystr) : pystr := rstrip (lstrip s).

(** [s.startswith(p)]. *)
Fixpoint starts_with (p s : pystr) : bool :=
  match p, s with
  | [], _ => true
  | _ :: _, [] => false
  | a :: p', b :: s' => (a =? b)%N && starts_with p' s'
  end.

(** [kw in s] for two [str]s: [kw] occurs as a substring of [s]. *)
Fixpoint contains (s kw : pystr) : bool :=
  starts_with kw s ||
  match s with
  | [] => false
  | _ :: t => contains t kw
  end.

(** [any(kw in s for kw in kws)]. *)
Definition any_in (kws : list pystr) (s : pystr) : bool :=
  existsb (contains s) kws.

(** What the specification asks of a normalized text. *)
Definition all_ascii (s : pystr) : Prop := Forall (fun c => is_ascii c = true) s.
Definition no_upper (s : pystr) : Prop := Forall (fun c => is_upper c = false) s.

Definition trimmedb (s : pystr) : bool :=
  match s with
  | [] => true
  | c :: _ => negb (is_space c) && negb (is_space (last s c))
  end.

End PyStr.
Import PyStr.

(* ================================================================= *)
(** ** [analyze_tiktok_bio.py] *)

Module Bio.

Record BioAnalysis := mkBioAnalysis {
  username : pystr;
  bio_text : pystr;
  bio_found : bool;
  mentions_depute : bool;
  mentions_party : bool;
  mentions_region : bool;
  mentions_assemblee : bool;
  party_name : option pystr;
  followers : Z;
  verified : bool
}.

(** The dictionary returned by [analyze_bio_keywords]. *)
Record Keywords := mkKeywords {
  kw_mentions_depute : bool;
  kw_mentions_party : bool;
  kw_mentions_region : bool;
  kw_mentions_assemblee : bool;
  kw_party_name : option pystr
}.

Definition depute_keywords : list pystr :=
  List.map lit ["depute"; "deputee"; "parlementaire"; "elu"; "elue"]%string.

Definition assemblee_keywords : list pystr :=
  List.map lit ["assemblee nationale"; "assemblee"; "palais bourbon"]%string.

(** The [parties] dictionary, in its declaration order. *)
Definition parties : list (pystr * list pystr) :=
  List.map (fun p => (lit (fst p), List.map lit (snd p)))
  [ ("LFI", ["lfi"; "france insoumise"; "la france insoumise"; "insoumis"]);
    ("Renaissance", ["renaissance"; "renew"; "ensemble"]);
    ("RN", ["rn"; "rassemblement national"; "front national"; "fn"]);
    ("LR", ["lr"; "les republicains"; "republicains"]);
    ("PS", ["ps"; "parti socialiste"; "socialiste"]);
    ("EELV", ["eelv"; "ecologiste"; "europe ecologie"; "verts"]);
    ("PCF", ["pcf"; "communiste"; "parti communiste"]);
    ("Modem", ["modem"; "democrate"]);
    ("Horizons", ["horizons"]);
    ("UDI", ["udi"; "union des democrates"]) ]%string.

Definition region_keywords : list pystr :=
  List.map lit
  [ "circonscription"; "departement"; "region"; "territoire";
    "seine"; "paris"; "lyon"; "marseille"; "nord"; "sud";
    "val-de-marne"; "essonne"; "hauts-de-seine"; "yvelines" ]%string.

(** The loop over [parties.items()] that stops at the first match. *)
Fixpoint detect_party (ps : list (pystr * list pystr)) (bio : pystr)
  : option pystr :=
  match ps with
  | [] => None
  | (name, kws) :: rest =>
      if any_in kws bio then Some name else detect_party rest bio
  end.

Section Normalize.

(** [unicodedata.normalize('NFKD', _)], a function of the Python library. *)
Variable nfkd : pystr -> pystr.

(** [.encode('ascii', 'ignore').decode('ascii')]: drop what is not ASCII. *)
Definition encode_ascii_ignore (s : pystr) : pystr := filter is_ascii s.

Definition normalize_string (text : pystr) : pystr :=
  let text := encode_ascii_ignore (nfkd text) in
  strip (lower text).

Definition analyze_bio_keywords (bio_text : pystr) : Keywords :=
  if negb (truthy bio_text) then
    mkKeywords false false false false None
  else
    let bio_normalized := normalize_string bio_text in
    let mentions_depute := any_in depute_keywords bio_normalized in
    let mentions_assemblee := any_in assemblee_keywords bio_normalized in
    let detected_party := detect_party parties bio_normalized in
    let mentions_region := any_in region_keywords bio_normalized in
    mkKeywords (mentions_depute || mentions_assemblee)
               (match detected_party with Some _ => true | None => false end)
               mentions_region
               mentions_assemblee
               detected_party.

End Normalize.

(** NFKD on the accented letters of Latin-1 (U+00C0 .. U+00FF): base letter
    followed by the combining mark. Every other code point is left as it
    is; in particular ASCII text is unchanged. Used to run the functions
    above on French text. *)
Definition latin1_decomposition : list (codepoint * (codepoint * codepoint)) :=
  [ (192, (65, 768)); (193, (65, 769)); (194, (65, 770)); (195, (65, 771));
    (196, (65, 776)); (197, (65, 778)); (199, (67, 807));
    (200, (69, 768)); (201, (69, 769)); (202, (69, 770)); (203, (69, 776));
    (204, (73, 768)); (205, (73, 769)); (206, (73, 770)); (207, (73, 776));
    (209, (78, 771));
    (210, (79, 768)); (211, (79, 769)); (212, (79, 770)); (213, (79, 771));
    (214, (79, 776));
    (217, (85, 768)); (218, (85, 769)); (219, (85, 770)); (220, (85, 776));
    (221, (89, 769));
    (224, (97, 768)); (225, (97, 769)); (226, (97, 770)); (227, (97, 771));
    (228, (97, 776)); (229, (97, 778)); (231, (99, 807));
    (232, (101, 768)); (233, (101, 769)); (234, (101, 770)); (235, (101, 776));
    (236, (105, 768)); (237, (105, 769)); (238, (105, 770)); (239, (105, 776));
    (241, (110, 771));
    (242, (111, 768)); (243, (111, 769)); (244, (111, 770)); (245, (111, 771));
    (246, (111, 776));
    (249, (117, 768)); (250, (117, 769)); (251, (117, 770)); (252, (117, 776));
    (253, (121, 769)); (255, (121, 776)) ]%N.

Fixpoint lookup_decomposition (t : list (codepoint * (codepoint * codepoint)))
  (c : codepoint) : option (codepoint * codepoint) :=
  match t with
  | [] => None
  | (k, d) :: rest => if (k =? c)%N then Some d else lookup_decomposition rest c
  end.

Definition decompose_char (c : codepoint) : pystr :=
  if is_ascii c then [c]
  else match lookup_decomposition latin1_decomposition c with
       | Some (b, m) => [b; m]
       | None => [c]
       end.

Definition nfkd_latin1 (s : pystr) : pystr := flat_map decompose_char s.

(** "Jean-Émile" *)
Definition jean_emile : pystr :=
  [74; 101; 97; 110; 45; 201; 109; 105; 108; 101]%N.

(** "  Assemblée nationale " *)
Definition bio_assemblee : pystr :=
  ([32; 32; 65; 115; 115; 101; 109; 98; 108; 233; 101]
   ++ lit " nationale ")%N.

End Bio.
Import Bio.

(* ================================================================= *)
(** ** [part2_find_tiktok.py]: data *)

Module Candidate.

(** The tags appended to a candidate's [source] list. *)
Inductive SourceTag := twitter | websearch | variant.

Record TikTokCandidate := mkCandidate {
  username : pystr;
  exists_ : bool;
  subscribers : Z;
  source : list SourceTag;
  bio_analysis : option BioAnalysis;
  raw_score : Z;
  confidence : R
}.

(** The constructor call of the source: [raw_score] and [confidence] keep
    their defaults [0] and [0.0]. *)
Definition new_candidate (u : pystr) (subs : Z) (src : list SourceTag)
  (bio : option BioAnalysis) : TikTokCandidate :=
  mkCandidate u true subs src bio 0 0.

Definition set_raw_score (c : TikTokCandidate) (s : Z) : TikTokCandidate :=
  mkCandidate (username c) (exists_ c) (subscribers c) (source c)
              (bio_analysis c) s (confidence c).

Definition set_confidence (c : TikTokCandidate) (x : R) : TikTokCandidate :=
  mkCandidate (username c) (exists_ c) (subscribers c) (source c)
              (bio_analysis c) (raw_score c) x.

End Candidate.
Import Candidate.

(* ================================================================= *)
(** ** [calculate_raw_score] *)

Module Scorer.

Definition calculate_raw_score (candidate : TikTokCandidate) : Z :=
  let score := 0%Z in
  let score :=
    if (subscribers candidate >=? 100000)%Z then (score + 100)%Z
    else if (subscribers candidate >=? 10000)%Z then (score + 50)%Z
    else if (subscribers candidate >=? 1000)%Z then (score + 25)%Z
    else if (subscribers candidate >=? 100)%Z then (score + 5)%Z
    else if (subscribers candidate >=? 1)%Z then (score + 2)%Z
    else score in
  let score :=
    match bio_analysis candidate with
    | Some bio =>
        if bio_found bio then
          let score := if mentions_depute bio then (score + 10)%Z else score in
          let score := if mentions_assemblee bio then (score + 5)%Z else score in
          let score := if mentions_party bio then (score + 5)%Z else score in
          let score := if verified bio then (score + 50)%Z else score in
          score
        else score
    | None => score
    end in
  score.

(** The scorer in the words of the specification: one popularity tier
    plus the text bonuses. *)
Definition popularity_tier_bonus (popularity : Z) : Z :=
  if (100000 <=? popularity)%Z then 100
  else if (10000 <=? popularity)%Z then 50
  else if (1000 <=? popularity)%Z then 25
  else if (100 <=? popularity)%Z then 5
  else if (1 <=? popularity)%Z then 2
  else 0.

Definition bonus (flag : bool) (points : Z) : Z := if flag then points else 0%Z.

Definition text_bonus (analysis : option BioAnalysis) : Z :=
  match analysis with
  | Some bio =>
      if bio_found bio then
        (bonus (mentions_depute bio) 10 + bonus (mentions_assemblee bio) 5
         + bonus (mentions_party bio) 5 + bonus (verified bio) 50)%Z
      else 0%Z
  | None => 0%Z
  end.

Definition spec_raw_score (candidate : TikTokCandidate) : Z :=
  (popularity_tier_bonus (subscribers candidate)
   + text_bonus (bio_analysis candidate))%Z.

End Scorer.
Import Scorer.

(* ================================================================= *)
(** ** [calculate_confidence] *)

Module Confidence.

Open Scope R_scope.

(** The built-in [min(a, b)]: [b] only when [b < a]. *)
Definition py_min (a b : R) : R := if Rlt_dec b a then b else a.

(** [confidences[i] = v]; every index written by the source is in range. *)
Fixpoint set_item (A : Type) (l : list A) (i : nat) (v : A) : list A :=
  match l, i with
  | [], _ => []
  | _ :: t, O => v :: t
  | h :: t, S j => h :: set_item t j v
  end.

(** [1.0 / (1.0 + np.exp(-(best_score - 60) / 25))]

    The entries of [scores] are [np.int64] values and the source computes
    in binary64. Here they are read as integers and as real numbers:
    this is the computation of the source, up to the rounding of
    binary64, on the arrays of [raw_scores] below, where no subtraction
    of two entries can wrap around and [np.exp] is called between -4.4
    and 2.4. The laws of the distributor are stated on those arrays. *)
Definition quality_factor (best_score : Z) : R :=
  1 / (1 + exp (- IZR (best_score - 60) / 25)).

Definition calculate_confidence (scores : list Z) : list R :=
  match scores with
  | [] => []
  | best_score :: [] => [0.30 + 0.65 * quality_factor best_score]
  | best_score :: second :: _ =>
      let margin := (best_score - second)%Z in
      let margin_score := py_min (IZR margin / 30) 1 in
      let top_confidence :=
        0.25 + 0.70 * quality_factor best_score * margin_score in
      let n := List.length scores in
      let confidences := repeat 0 n in
      let confidences := set_item confidences 0 top_confidence in
      let remaining_mass := 1 - top_confidence in
      fold_left
        (fun conf i => set_item conf i (remaining_mass / INR (n - 1)))
        (seq 1 (n - 1)) confidences
  end.

(** The value the specification gives to the best of two or more
    candidates, from the two best scores. *)
Definition top_of (s0 s1 : Z) : R :=
  0.25 + 0.70 * quality_factor s0 * Rmin (IZR (s0 - s1) / 30) 1.

(** The logistic function of the specification. *)
Definition sigmoid (x : R) : R := 1 / (1 + exp (- x)).

Definition sum (l : list R) : R := fold_right Rplus 0 l.

(** Every entry of a confidence array lies in [[0, 1]]. *)
Definition in_unit_interval (conf : list R) : Prop :=
  Forall (fun x => 0 <= x <= 1) conf.

(** [scores] is in descending order. *)
Fixpoint sorted_desc (scores : list Z) : bool :=
  match scores with
  | [] => true
  | a :: t =>
      match t with
      | [] => true
      | b :: _ => (b <=? a)%Z && sorted_desc t
      end
  end.

(** The gap between the two best scores, [scores[0] - scores[1]]. *)
Definition margin_of (scores : list Z) : Z :=
  (nth 0 scores 0 - nth 1 scores 0)%Z.

(** An array of raw scores: every entry is a value [calculate_raw_score]
    can return, from 0 to 170. *)
Definition raw_scores (scores : list Z) : bool :=
  forallb (fun s => (0 <=? s)%Z && (s <=? 170)%Z) scores.

End Confidence.
Import Confidence.

(* ================================================================= *)
(** ** [calculate_confidence] in binary64 *)

Module ConfidenceF64.

Import PrimFloat.
Open Scope float_scope.

(** An integer of the score array as a float (exact below [2^53]). The
    runs below are on arrays of raw scores, where neither this conversion
    nor the subtraction of two [np.int64] entries loses anything. *)
Definition of_int (z : Z) : float :=
  if (z <? 0)%Z then - of_uint63 (Uint63.of_Z (- z))
  else of_uint63 (Uint63.of_Z z).

(** The built-in [min(a, b)]: [b] only when [b < a]. *)
Definition py_min (a b : float) : float := if b <? a then b else a.

Section Distributor.

(** [np.exp] on binary64. *)
Variable np_exp : float -> float.

Definition quality_factor (best_score : Z) : float :=
  1.0 / (1.0 + np_exp (of_int (- (best_score - 60)) / of_int 25)).

(** The distributor in binary64, on arrays of raw scores: the margin is
    the integer difference of two entries, which [np.int64] computes
    without wrap-around there. *)
Definition calculate_confidence (scores : list Z) : list float :=
  match scores with
  | [] => []
  | best_score :: [] => [0.30 + 0.65 * quality_factor best_score]
  | best_score :: second :: _ =>
      let margin := (best_score - second)%Z in
      let margin_score := py_min (of_int margin / 30.0) 1.0 in
      let top_confidence :=
        0.25 + 0.70 * quality_factor best_score * margin_score in
      let n := List.length scores in
      let confidences := repeat 0.0 n in
      let confidences := set_item confidences 0 top_confidence in
      let remaining_mass := 1.0 - top_confidence in
      fold_left
        (fun conf i =>
           set_item conf i (remaining_mass / of_int (Z.of_nat (n - 1))))
        (seq 1 (n - 1)) confidences
  end.

End Distributor.

(** [np.exp] where the runs below call it: [np.exp(0.0)] is exactly
    [1.0]. Any other argument is answered by NaN, so that a run relying
    on a value not given here shows it. *)
Definition exp_at_zero (x : float) : float := if x =? 0 then 1 else nan.

(** [sum(confidences)]: left to right from [0]. *)
Definition fsum (l : list float) : float := fold_left add l 0.

(** The rational number a finite float stands for. *)
Definition exact_value (f : float) : QArith_base.Q :=
  match FloatOps.Prim2SF f with
  | SpecFloat.S754_finite s m e =>
      QArith_base.Qmult
        (QArith_base.inject_Z (if s then Zneg m else Zpos m))
        (QArith_base.Qpower (QArith_base.inject_Z 2) e)
  | _ => QArith_base.inject_Z 0
  end.

(** The sum of the returned values as rational numbers, without the
    rounding of float addition. *)
Definition exact_sum (l : list float) : QArith_base.Q :=
  fold_right (fun f acc => QArith_base.Qplus (exact_value f) acc)
             (QArith_base.inject_Z 0) l.

End ConfidenceF64.

(* ================================================================= *)
(** ** [process_deputy] *)

Module Orchestrator.

Record Deputy := mkDeputy {
  name : pystr;
  twitter_username : list pystr;
  websearch_username : list pystr;
  variant_username : list pystr
}.

(** [username_sources]: keys in insertion order. *)
Definition SourceMap := list (pystr * list SourceTag).

(** [if u not in m: m[u] = []] followed by [m[u].append(tag)]. *)
Fixpoint append_source (m : SourceMap) (u : pystr) (tag : SourceTag)
  : SourceMap :=
  match m with
  | [] => [(u, [tag])]
  | (k, tags) :: rest =>
      if PyStr.eqb k u then (k, tags ++ [tag]) :: rest
      else (k, tags) :: append_source rest u tag
  end.

(** One of the three [for username in deputy.get(..., [])] loops. *)
Definition add_usernames (tag : SourceTag) (m : SourceMap)
  (usernames : list pystr) : SourceMap :=
  fold_left
    (fun m u => if truthy u then append_source m u tag else m)
    usernames m.

Definition merge_sources (deputy : Deputy) : SourceMap :=
  let username_sources := [] in
  let username_sources :=
    add_usernames twitter username_sources (twitter_username deputy) in
  let username_sources :=
    add_usernames websearch username_sources (websearch_username deputy) in
  let username_sources :=
    add_usernames variant username_sources (variant_username deputy) in
  username_sources.

(** [m.keys()] *)
Definition keys (m : SourceMap) : list pystr := List.map fst m.

(** What a map built by the merge satisfies: no key twice, no empty key. *)
Definition well_keyed (m : SourceMap) : Prop :=
  NoDup (keys m) /\ Forall (fun k => truthy k = true) (keys m).

(** [m.get(u, [])]: the tags recorded for [u]. *)
Fixpoint tags_of (m : SourceMap) (u : pystr) : list SourceTag :=
  match m with
  | [] => []
  | (k, tags) :: rest => if PyStr.eqb k u then tags else tags_of rest u
  end.

(** How many times [u] occurs in a source list. *)
Definition occurrences (usernames : list pystr) (u : pystr) : nat :=
  count_occ pystr_eq_dec usernames u.

(** The provenance of [u] as the specification describes it: one tag for
    each occurrence in each source list, the lists taken in the order
    twitter, websearch, variant. *)
Definition provenance (deputy : Deputy) (u : pystr) : list SourceTag :=
  repeat twitter (occurrences (twitter_username deputy) u)
  ++ repeat websearch (occurrences (websearch_username deputy) u)
  ++ repeat variant (occurrences (variant_username deputy) u).

(** [sorted(cs, key=lambda c: c.raw_score, reverse=True)]: descending and
    stable, equal scores keep their order. *)
Fixpoint insert_desc (c : TikTokCandidate) (l : list TikTokCandidate)
  : list TikTokCandidate :=
  match l with
  | [] => [c]
  | h :: t =>
      if (raw_score h <=? raw_score c)%Z then c :: h :: t
      else h :: insert_desc c t
  end.

Definition sort_by_score (l : list TikTokCandidate) : list TikTokCandidate :=
  fold_right insert_desc [] l.

Definition Result := (option TikTokCandidate * list TikTokCandidate)%type.

Section Process.

(** The two network collaborators. [check_tiktok_exists] returns
    [(exists, subscribers)]; [analyze_tiktok_bio] is [None] when the call
    raises, which [process_deputy] swallows. *)
Variable check_tiktok_exists : pystr -> bool * Z.
Variable analyze_tiktok_bio : pystr -> option BioAnalysis.

(** The merged entries whose account exists, in merge order. *)
Definition existing_usernames (m : SourceMap) : SourceMap :=
  filter (fun e => fst (check_tiktok_exists (fst e))) m.

(** The candidate built from one existing entry of the merge. *)
Definition candidate_of (e : pystr * list SourceTag) : TikTokCandidate :=
  let subs := snd (check_tiktok_exists (fst e)) in
  new_candidate (fst e) subs (snd e)
    (if (subs >=? 1)%Z then analyze_tiktok_bio (fst e) else None).

(** The loop over [unique_usernames] that builds [candidates]. *)
Definition build_candidates (unique_usernames : SourceMap)
  : list TikTokCandidate :=
  flat_map
    (fun '(u, sources) =>
       let '(exists_, subs) := check_tiktok_exists u in
       if negb exists_ then []
       else
         let bio := if (subs >=? 1)%Z then analyze_tiktok_bio u else None in
         [new_candidate u subs sources bio])
    unique_usernames.

Definition process_deputy (deputy : Deputy) : Result :=
  let unique_usernames := merge_sources deputy in
  match unique_usernames with
  | [] => (None, [])
  | _ :: _ =>
      let candidates := build_candidates unique_usernames in
      match candidates with
      | [] => (None, [])
      | first :: _ =>
          let candidates_with_subs :=
            filter (fun c => (subscribers c >=? 1)%Z) candidates in
          match candidates_with_subs with
          | [] => (Some first, [first])
          | _ :: _ =>
              let scored :=
                List.map (fun c => set_raw_score c (calculate_raw_score c))
                         candidates_with_subs in
              let sorted_candidates := sort_by_score scored in
              let scores := List.map raw_score sorted_candidates in
              let confidences := calculate_confidence scores in
              let sorted_candidates :=
                List.map (fun '(c, x) => set_confidence c x)
                         (combine sorted_candidates confidences) in
              (hd_error sorted_candidates, firstn 3 sorted_candidates)
          end
      end
  end.

(** The [found] entry written by [main]: [if best:]. *)
Definition found (r : Result) : bool :=
  match fst r with Some _ => true | None => false end.

End Process.

(** A run of the fallback: ["ghost"] does not exist, ["jdupont"] and
    ["j.dupont"] exist without subscribers. *)
Definition dupont : Deputy :=
  mkDeputy (lit "Jean Dupont")
           [lit "ghost"; lit "jdupont"] [] [lit "jdupont"; lit "j.dupont"].

Definition check_dupont (u : pystr) : bool * Z :=
  if PyStr.eqb u (lit "ghost") then (false, 0%Z) else (true, 0%Z).

Definition no_bio (u : pystr) : option BioAnalysis := None.

(** A run of the scoring branch: ["jdupont"] has 150 subscribers,
    ["j.dupont"] 20000, ["ghost"] does not exist. *)
Definition check_dupont_subs (u : pystr) : bool * Z :=
  if PyStr.eqb u (lit "ghost") then (false, 0%Z)
  else if PyStr.eqb u (lit "jdupont") then (true, 150%Z)
  else (true, 20000%Z).

End Orchestrator.
Import Orchestrator.

(* ================================================================= *)
(** ** [process_deputy]: the scoring branch, step by step *)

Module Ranking.

Section Ranking.

Variable check_tiktok_exists : pystr -> bool * Z.
Variable analyze_tiktok_bio : pystr -> option BioAnalysis.

(** The local variables of [process_deputy], in the order the source
    computes them. *)
Definition candidates (deputy : Deputy) : list TikTokCandidate :=
  build_candidates check_tiktok_exists analyze_tiktok_bio
                   (merge_sources deputy).

Definition candidates_with_subs (deputy : Deputy) : list TikTokCandidate :=
  filter (fun c => (subscribers c >=? 1)%Z) (candidates deputy).

Definition scored (deputy : Deputy) : list TikTokCandidate :=
  List.map (fun c => set_raw_score c (calculate_raw_score c))
           (candidates_with_subs deputy).

(** [sorted_candidates] once the confidences are assigned. *)
Definition ranked (deputy : Deputy) : list TikTokCandidate :=
  let sorted_candidates := sort_by_score (scored deputy) in
  let scores := List.map raw_score sorted_candidates in
  List.map (fun '(c, x) => set_confidence c x)
           (combine sorted_candidates (calculate_confidence scores)).

End Ranking.

End Ranking.
Import Ranking.

(* ================================================================= *)
(** ** [analyze_tiktok_bio] and [check_tiktok_exists] *)

Module Fetch.

(** The dictionary returned by [extract_user_info] when the page was
    read: the keys ['bio'], ['followers'] and ['verified']. The empty
    dictionary it returns on any failure is [None]. *)
Record UserInfo := mkUserInfo {
  info_bio : pystr;
  info_followers : Z;
  info_verified : bool
}.

(** [user_info.get(key, default)] *)
Definition get_info (A : Type) (user_info : option UserInfo)
  (key : UserInfo -> A) (default : A) : A :=
  match user_info with
  | Some info => key info
  | None => default
  end.

(** [s.lstrip('@')] *)
Definition lstrip_at (s : pystr) : pystr := drop_while (N.eqb 64%N) s.

Section Fetch.

Variable nfkd : pystr -> pystr.

(** [str.strip()] and [str.lower()] of the Python library, on any text. *)
Variable str_strip : pystr -> pystr.
Variable str_lower : pystr -> pystr.

(** The page reader [extract_user_info], which catches every failure of
    its own and then returns the empty dictionary. *)
Variable extract_user_info : pystr -> option UserInfo.

(** The [except] branch of the source is left out: nothing in the [try]
    block raises once [extract_user_info] has returned a dictionary. *)
Definition analyze_tiktok_bio (username : pystr) : BioAnalysis :=
  let username := str_lower (lstrip_at (str_strip username)) in
  let user_info := extract_user_info username in
  let bio_text := get_info user_info info_bio [] in
  if negb (truthy bio_text) then
    mkBioAnalysis username [] false false false false false None
                  (get_info user_info info_followers 0%Z)
                  (get_info user_info info_verified false)
  else
    let analysis := analyze_bio_keywords nfkd bio_text in
    mkBioAnalysis username bio_text true
                  (kw_mentions_depute analysis)
                  (kw_mentions_party analysis)
                  (kw_mentions_region analysis)
                  (kw_mentions_assemblee analysis)
                  (kw_party_name analysis)
                  (get_info user_info info_followers 0%Z)
                  (get_info user_info info_verified false).

(** The HEAD request [quick_check_exists]. *)
Variable quick_check_exists : pystr -> bool.

Definition check_tiktok_exists (username : pystr) : bool * Z :=
  if negb (quick_check_exists username) then (false, 0%Z)
  else
    match extract_user_info username with
    | None => (false, 0%Z)
    | Some info => (true, info_followers info)
    end.

End Fetch.

(** A page with 12000 followers, a verified badge and no biography. *)
Definition verified_without_bio (u : pystr) : option UserInfo :=
  Some (mkUserInfo [] 12000%Z true).

End Fetch.
Import Fetch.

(* ================================================================= *)
(** ** [part1_generate_usernames.py] *)

Module Part1.

(** [s.replace(a, b)] for two one-character strings. *)
Definition replace_char (a b : codepoint) (s : pystr) : pystr :=
  List.map (fun c => if (c =? a)%N then b else c) s.

(** [s.replace(a, "")] for a one-character string [a]. *)
Definition remove_char (a : codepoint) (s : pystr) : pystr :=
  filter (fun c => negb (c =? a)%N) s.

(** [s.split()] on ASCII text: the maximal runs without whitespace.
    [word] is the run being read, last character first. *)
Fixpoint split_from (word : pystr) (s : pystr) : list pystr :=
  match s with
  | [] => match word with [] => [] | _ :: _ => [rev word] end
  | c :: t =>
      if is_space c then
        match word with
        | [] => split_from [] t
        | _ :: _ => rev word :: split_from [] t
        end
      else split_from (c :: word) t
  end.

Definition split (s : pystr) : list pystr := split_from [] s.

(** [list(dict.fromkeys(l))]: the first occurrence of each element, in
    order. *)
Fixpoint dedup (l : list pystr) : list pystr :=
  match l with
  | [] => []
  | x :: t => x :: filter (fun y => negb (PyStr.eqb x y)) (dedup t)
  end.

Section Patterns.

Variable nfkd : pystr -> pystr.

Definition generate_pattern_variants (full_name : pystr) : list pystr :=
  let name := normalize_string nfkd full_name in
  let name := replace_char 45%N 32%N name in
  let parts := split name in
  match parts with
  | [] | [_] => [remove_char 32%N name]
  | first :: second :: others =>
      let last_parts := second :: others in
      let last := List.concat last_parts in
      let first_initial := firstn 1 first in
      let variants :=
        [ first ++ last;
          first ++ lit "." ++ last;
          first ++ lit "_" ++ last;
          first_initial ++ last;
          last ++ first;
          last ++ lit "." ++ first;
          last ++ lit "_" ++ first;
          first ++ last ++ lit "_officiel";
          first_initial ++ last ++ lit "_officiel" ] in
      dedup variants
  end.

(** [list(dict.fromkeys([v for v in variants if v and len(v) > 1]))] *)
Definition clean_source (variants : list pystr) : list pystr :=
  dedup (filter (fun v => truthy v && (1 <? List.length v)%nat) variants).

(** [generate_all_usernames], given what [get_twitter_variants] and
    [search_web_for_tiktok] returned, and the entry [main] writes for
    the deputy from it. *)
Definition generate_all_usernames (name : pystr)
  (twitter_variants : list pystr) (searched : list pystr)
  (use_web_search : bool) : Deputy :=
  let pattern_variants := generate_pattern_variants name in
  let web_variants := if use_web_search then searched else [] in
  let twitter_clean := clean_source twitter_variants in
  let pattern_clean := clean_source pattern_variants in
  let web_clean := clean_source web_variants in
  mkDeputy name twitter_clean web_clean pattern_clean.

End Patterns.

(** "Jean-Émile  DUPONT" *)
Definition jean_emile_dupont : pystr :=
  jean_emile ++ lit "  DUPONT".

End Part1.
Import Part1.

(* ================================================================= *)
(** ** [part2_find_tiktok.py]: [main] *)

Module Report.

(** One element of ['top_3_matches']. *)
Record MatchRow := mkMatchRow {
  row_username : pystr;
  row_subscribers : Z;
  row_raw_score : Z;
  row_confidence : R;
  row_sources : list SourceTag;
  row_num_sources : nat
}.

(** The ['best_match'] dictionary. *)
Record BestMatch := mkBestMatch {
  best_username : pystr;
  best_url : pystr;
  best_subscribers : Z;
  best_confidence : R;
  best_raw_score : Z;
  best_sources : list SourceTag;
  best_num_sources : nat;
  best_verified : bool;
  best_bio : pystr;
  best_mentions_depute : bool;
  best_mentions_assemblee : bool;
  best_mentions_party : bool;
  best_mentions_region : bool;
  best_party_name : option pystr
}.

(** One element of [results]. *)
Record ResultEntry := mkResultEntry {
  entry_name : pystr;
  best_match : option BestMatch;
  top_3_matches : list MatchRow;
  entry_found : bool
}.

Definition match_row (candidate : TikTokCandidate) : MatchRow :=
  mkMatchRow (Candidate.username candidate) (subscribers candidate)
             (raw_score candidate) (confidence candidate)
             (source candidate) (List.length (source candidate)).

(** [best.bio_analysis.field if best.bio_analysis else default] *)
Definition bio_field (A : Type) (best : TikTokCandidate)
  (field : BioAnalysis -> A) (default : A) : A :=
  match bio_analysis best with
  | Some bio => field bio
  | None => default
  end.

(** The [party_name] entry is the analysis' label when there is an
    analysis (which may be [None]) and [''] otherwise. *)
Definition best_match_of (best : TikTokCandidate) : BestMatch :=
  mkBestMatch (Candidate.username best)
              (lit "https://www.tiktok.com/@" ++ Candidate.username best)
              (subscribers best) (confidence best) (raw_score best)
              (source best) (List.length (source best))
              (bio_field best Bio.verified false)
              (bio_field best bio_text [])
              (bio_field best mentions_depute false)
              (bio_field best mentions_assemblee false)
              (bio_field best mentions_party false)
              (bio_field best mentions_region false)
              (bio_field best party_name (Some [])).

(** The body of the loop over [deputies], after [process_deputy]. *)
Definition result_entry (deputy : Deputy) (r : Result) : ResultEntry :=
  match fst r with
  | Some best =>
      mkResultEntry (name deputy) (Some (best_match_of best))
                    (List.map match_row (snd r)) true
  | None => mkResultEntry (name deputy) None [] false
  end.

Section Main.

Variable check_tiktok_exists : pystr -> bool * Z.
Variable analyze_tiktok_bio : pystr -> option BioAnalysis.

Definition results (deputies : list Deputy) : list ResultEntry :=
  List.map
    (fun deputy =>
       result_entry deputy
         (process_deputy check_tiktok_exists analyze_tiktok_bio deputy))
    deputies.

(** [sum(1 for r in results if r['found'])] *)
Definition found_count (rs : list ResultEntry) : nat :=
  List.length (filter entry_found rs).

(** [[r['best_match']['confidence'] for r in results if r['found']]] *)
Definition confidences (rs : list ResultEntry) : list R :=
  flat_map
    (fun r =>
       if entry_found r then
         match best_match r with
         | Some b => [best_confidence b]
         | None => []
         end
       else [])
    rs.

(** [sum(confidences) / len(confidences) if confidences else 0] *)
Definition avg_confidence (rs : list ResultEntry) : R :=
  match confidences rs with
  | [] => 0%R
  | cs => (sum cs / INR (List.length cs))%R
  end.

End Main.

End Report.
Import Report.

(* ================================================================= *)
(** ** [part1_generate_usernames.py]: the variants of a Twitter handle *)

Module Twitter.

Section Handles.

(** [str.strip()] and [str.lower()] of the Python library, on any text. *)
Variable str_strip : pystr -> pystr.
Variable str_lower : pystr -> pystr.

(** The body of the loop over [[twitter, twitter_2, twitter_wiki]] in
    [get_twitter_variants]: what one cell of the matched row adds to
    [variants]. A missing value ([NaN]) is [None]. *)
Definition handle_variants (handle : option pystr) : list pystr :=
  match handle with
  | None => []
  | Some handle =>
      if truthy handle && truthy (str_strip handle) then
        let clean := str_lower (lstrip_at (str_strip handle)) in
        if truthy clean && (1 <? List.length clean)%nat then
          let variants := [clean] in
          let no_underscore := remove_char 95%N clean in
          let variants :=
            if negb (PyStr.eqb no_underscore clean)
               && (1 <? List.length no_underscore)%nat
            then variants ++ [no_underscore] else variants in
          let with_dots := replace_char 95%N 46%N clean in
          if negb (PyStr.eqb with_dots clean)
             && (1 <? List.length with_dots)%nat
          then variants ++ [with_dots] else variants
        else []
      else []
  end.

(** [get_twitter_variants] once the row of the deputy has been looked
    up: [matched] holds the three cells of that row, or is [None] when
    no row matches. *)
Definition get_twitter_variants
  (matched : option (option pystr * option pystr * option pystr))
  : list pystr :=
  match matched with
  | None => []
  | Some (twitter_1, twitter_2, twitter_wiki) =>
      flat_map handle_variants [twitter_1; twitter_2; twitter_wiki]
  end.

End Handles.

End Twitter.
Import Twitter.

(* ================================================================= *)
(** ** [deep_research.py]: the cleanup of the suggested identifiers *)

Module Research.

Section Cleanup.

(** [str.strip()] and [c.isalnum()] of the Python library, on any text. *)
Variable str_strip : pystr -> pystr.
Variable isalnum : codepoint -> bool.

(** [c.isalnum() or c in "._"] *)
Definition valid_char (c : codepoint) : bool :=
  isalnum c || (c =? 46)%N || (c =? 95)%N.

(** The body of the loop over [item.get("top_5", [])], up to its test. *)
Definition clean_username (username : pystr) : pystr :=
  let clean := str_strip (lstrip_at username) in
  let clean := filter valid_char clean in
  firstn 24 clean.

(** [if clean and len(clean) >= 2: cleaned.append(clean)] *)
Definition cleaned_of (top_5 : list pystr) : list pystr :=
  filter (fun clean => truthy clean && (2 <=? List.length clean)%nat)
         (List.map clean_username top_5).

(** [while len(cleaned) < 5: cleaned.append("")], with the number of
    rounds left. *)
Fixpoint pad (missing : nat) (cleaned : list pystr) : list pystr :=
  match missing with
  | O => cleaned
  | S rounds => pad rounds (cleaned ++ [[]])
  end.

(** The value stored in [item["top_5"]]. *)
Definition cleanup_top_5 (top_5 : list pystr) : list pystr :=
  let cleaned := cleaned_of top_5 in
  let cleaned := pad (5 - List.length cleaned) cleaned in
  firstn 5 cleaned.

End Cleanup.

End Research.
Import Research.

(* ================================================================= *)
(** ** [models.py], [load_data.py] and the handlers of [main.py] *)

Module Registry.

(** One dictionary of the JSON column [top_3_matches]. The key
    ['is_manual'] exists only in the entries [add_manual_account]
    appends. *)
Record StoredMatch := mkStoredMatch {
  sm_username : pystr;
  sm_subscribers : Z;
  sm_raw_score : Z;
  sm_confidence : R;
  sm_sources : list pystr;
  sm_num_sources : nat;
  sm_is_manual : option bool;
  sm_bio : pystr;
  sm_verified : bool;
  sm_mentions_depute : bool;
  sm_mentions_assemblee : bool;
  sm_mentions_party : bool;
  sm_mentions_region : bool;
  sm_party_name : option pystr
}.

(** A row of the table [deputies] ([models.Deputy]), without its [id].
    [None] is the SQL [NULL]. *)
Record DeputyRow := mkDeputyRow {
  dep_name : pystr;
  legislatures : list pystr;
  dep_found : bool;
  best_match_username : option pystr;
  best_match_url : option pystr;
  best_match_subscribers : option Z;
  best_match_confidence : option R;
  best_match_raw_score : option Z;
  best_match_sources : option (list pystr);
  best_match_num_sources : option nat;
  best_match_verified : option bool;
  best_match_bio : option pystr;
  best_match_mentions_depute : option bool;
  best_match_mentions_assemblee : option bool;
  best_match_mentions_party : option bool;
  best_match_mentions_region : option bool;
  best_match_party_name : option pystr;
  dep_top_3_matches : option (list StoredMatch);
  username_tested : list pystr;
  username_to_test : list pystr;
  verified_by_human : bool;
  human_verified_username : option pystr;
  no_tiktok_account : bool
}.

(** [deputy.found = v] *)
Definition set_found (deputy : DeputyRow) (v : bool) : DeputyRow :=
  mkDeputyRow (dep_name deputy) (legislatures deputy) v
    (best_match_username deputy) (best_match_url deputy)
    (best_match_subscribers deputy) (best_match_confidence deputy)
    (best_match_raw_score deputy) (best_match_sources deputy)
    (best_match_num_sources deputy) (best_match_verified deputy)
    (best_match_bio deputy) (best_match_mentions_depute deputy)
    (best_match_mentions_assemblee deputy)
    (best_match_mentions_party deputy) (best_match_mentions_region deputy)
    (best_match_party_name deputy) (dep_top_3_matches deputy)
    (username_tested deputy) (username_to_test deputy)
    (verified_by_human deputy) (human_verified_username deputy)
    (no_tiktok_account deputy).

(** [deputy.best_match_username = v] *)
Definition set_best_match_username (deputy : DeputyRow) (v : option pystr) : DeputyRow :=
  mkDeputyRow (dep_name deputy) (legislatures deputy) (dep_found deputy) v
    (best_match_url deputy) (best_match_subscribers deputy)
    (best_match_confidence deputy) (best_match_raw_score deputy)
    (best_match_sources deputy) (best_match_num_sources deputy)
    (best_match_verified deputy) (best_match_bio deputy)
    (best_match_mentions_depute deputy)
    (best_match_mentions_assemblee deputy)
    (best_match_mentions_party deputy) (best_match_mentions_region deputy)
    (best_match_party_name deputy) (dep_top_3_matches deputy)
    (username_tested deputy) (username_to_test deputy)
    (verified_by_human deputy) (human_verified_username deputy)
    (no_tiktok_account deputy).

(** [deputy.best_match_url = v] *)
Definition set_best_match_url (deputy : DeputyRow) (v : option pystr) : DeputyRow :=
  mkDeputyRow (dep_name deputy) (legislatures deputy) (dep_found deputy)
    (best_match_username deputy) v (best_match_subscribers deputy)
    (best_match_confidence deputy) (best_match_raw_score deputy)
    (best_match_sources deputy) (best_match_num_sources deputy)
    (best_match_verified deputy) (best_match_bio deputy)
    (best_match_mentions_depute deputy)
    (best_match_mentions_assemblee deputy)
    (best_match_mentions_party deputy) (best_match_mentions_region deputy)
    (best_match_party_name deputy) (dep_top_3_matches deputy)
    (username_tested deputy) (username_to_test deputy)
    (verified_by_human deputy) (human_verified_username deputy)
    (no_tiktok_account deputy).

(** [deputy.top_3_matches = v] *)
Definition set_top_3_matches (deputy : DeputyRow) (v : option (list StoredMatch)) : DeputyRow :=
  mkDeputyRow (dep_name deputy) (legislatures deputy) (dep_found deputy)
    (best_match_username deputy) (best_match_url deputy)
    (best_match_subscribers deputy) (best_match_confidence deputy)
    (best_match_raw_score deputy) (best_match_sources deputy)
    (best_match_num_sources deputy) (best_match_verified deputy)
    (best_match_bio deputy) (best_match_mentions_depute deputy)
    (best_match_mentions_assemblee deputy)
    (best_match_mentions_party deputy) (best_match_mentions_region deputy)
    (best_match_party_name deputy) v (username_tested deputy)
    (username_to_test deputy) (verified_by_human deputy)
    (human_verified_username deputy) (no_tiktok_account deputy).

(** [deputy.verified_by_human = v] *)
Definition set_verified_by_human (deputy : DeputyRow) (v : bool) : DeputyRow :=
  mkDeputyRow (dep_name deputy) (legislatures deputy) (dep_found deputy)
    (best_match_username deputy) (best_match_url deputy)
    (best_match_subscribers deputy) (best_match_confidence deputy)
    (best_match_raw_score deputy) (best_match_sources deputy)
    (best_match_num_sources deputy) (best_match_verified deputy)
    (best_match_bio deputy) (best_match_mentions_depute deputy)
    (best_match_mentions_assemblee deputy)
    (best_match_mentions_party deputy) (best_match_mentions_region deputy)
    (best_match_party_name deputy) (dep_top_3_matches deputy)
    (username_tested deputy) (username_to_test deputy) v
    (human_verified_username deputy) (no_tiktok_account deputy).

(** [deputy.human_verified_username = v] *)
Definition set_human_verified_username (deputy : DeputyRow) (v : option pystr) : DeputyRow :=
  mkDeputyRow (dep_name deputy) (legislatures deputy) (dep_found deputy)
    (best_match_username deputy) (best_match_url deputy)
    (best_match_subscribers deputy) (best_match_confidence deputy)
    (best_match_raw_score deputy) (best_match_sources deputy)
    (best_match_num_sources deputy) (best_match_verified deputy)
    (best_match_bio deputy) (best_match_mentions_depute deputy)
    (best_match_mentions_assemblee deputy)
    (best_match_mentions_party deputy) (best_match_mentions_region deputy)
    (best_match_party_name deputy) (dep_top_3_matches deputy)
    (username_tested deputy) (username_to_test deputy)
    (verified_by_human deputy) v (no_tiktok_account deputy).

(** [deputy.no_tiktok_account = v] *)
Definition set_no_tiktok_account (deputy : DeputyRow) (v : bool) : DeputyRow :=
  mkDeputyRow (dep_name deputy) (legislatures deputy) (dep_found deputy)
    (best_match_username deputy) (best_match_url deputy)
    (best_match_subscribers deputy) (best_match_confidence deputy)
    (best_match_raw_score deputy) (best_match_sources deputy)
    (best_match_num_sources deputy) (best_match_verified deputy)
    (best_match_bio deputy) (best_match_mentions_depute deputy)
    (best_match_mentions_assemblee deputy)
    (best_match_mentions_party deputy) (best_match_mentions_region deputy)
    (best_match_party_name deputy) (dep_top_3_matches deputy)
    (username_tested deputy) (username_to_test deputy)
    (verified_by_human deputy) (human_verified_username deputy) v.
(** The strings [process_deputy] appends to a candidate's [source]. *)
Definition tag_name (tag : SourceTag) : pystr :=
  match tag with
  | twitter => lit "twitter"
  | websearch => lit "websearch"
  | variant => lit "variant"
  end.

(** The body of the loop over [top_matches]: a match that has the
    identifier of the best match takes its text data from it, any other
    takes the defaults. *)
Definition enrich (best_match : BestMatch) (m : MatchRow) : StoredMatch :=
  if PyStr.eqb (row_username m) (best_username best_match) then
    mkStoredMatch (row_username m) (row_subscribers m) (row_raw_score m)
      (row_confidence m) (List.map tag_name (row_sources m))
      (row_num_sources m) None
      (best_bio best_match) (best_verified best_match)
      (best_mentions_depute best_match) (best_mentions_assemblee best_match)
      (best_mentions_party best_match) (best_mentions_region best_match)
      (best_party_name best_match)
  else
    mkStoredMatch (row_username m) (row_subscribers m) (row_raw_score m)
      (row_confidence m) (List.map tag_name (row_sources m))
      (row_num_sources m) None
      [] false false false false false (Some []).

(** The row built from one element of the file written by [main] of
    [part2_find_tiktok.py]. For a deputy who was not found the element
    has ['best_match': None], so [item.get("best_match", {})] is [None]
    and [best_match.get("username")] raises [AttributeError]: the result
    is then [None]. The element has no key ['legislatures'] (the key
    written is ['legislature']), so that column takes the default. *)
Definition deputy_of_item (item : ResultEntry) : option DeputyRow :=
  match best_match item with
  | None => None
  | Some best_match =>
      let enriched_matches :=
        List.map (enrich best_match) (top_3_matches item) in
      Some (mkDeputyRow (entry_name item) [] (entry_found item)
              (Some (best_username best_match))
              (Some (best_url best_match))
              (Some (best_subscribers best_match))
              (Some (best_confidence best_match))
              (Some (best_raw_score best_match))
              (Some (List.map tag_name (best_sources best_match)))
              (Some (best_num_sources best_match))
              (Some (best_verified best_match))
              (Some (best_bio best_match))
              (Some (best_mentions_depute best_match))
              (Some (best_mentions_assemblee best_match))
              (Some (best_mentions_party best_match))
              (Some (best_mentions_region best_match))
              (best_party_name best_match)
              (Some enriched_matches)
              [] [] false None false)
  end.

(** The loop [for item in data: ... db.add(deputy)]; [None] when an
    element raises. *)
Fixpoint insert_deputies (data : list ResultEntry)
  : option (list DeputyRow) :=
  match data with
  | [] => Some []
  | item :: rest =>
      match deputy_of_item item with
      | None => None
      | Some deputy =>
          match insert_deputies rest with
          | None => None
          | Some deputies => Some (deputy :: deputies)
          end
      end
  end.

(** The table after [load_json_data]: the script first deletes every
    row and commits, then inserts and commits once after the loop. An
    exception in the loop ends the script before that commit. *)
Definition load_json_data (db : list DeputyRow) (data : list ResultEntry)
  : list DeputyRow :=
  let db : list DeputyRow := [] in
  match insert_deputies data with
  | Some deputies => db ++ deputies
  | None => db
  end.

(** The table after [initialize_database]: nothing is done on a table
    that has rows, and an exception in the loop is caught before the
    commit. *)
Definition initialize_database (db : list DeputyRow)
  (data : list ResultEntry) : list DeputyRow :=
  if (0 <? List.length db)%nat then db
  else
    match insert_deputies data with
    | Some deputies => db ++ deputies
    | None => db
    end.

(** The request body [VerificationUpdate]. *)
Record VerificationUpdate := mkVerificationUpdate {
  vu_verified_by_human : bool;
  vu_human_verified_username : option pystr;
  vu_no_tiktok_account : option bool
}.

(** The handler [verify_deputy] on the row it has fetched. *)
Definition verify_deputy (deputy : DeputyRow)
  (verification : VerificationUpdate) : DeputyRow :=
  let deputy :=
    set_verified_by_human deputy (vu_verified_by_human verification) in
  let deputy :=
    set_human_verified_username deputy
      (vu_human_verified_username verification) in
  match vu_no_tiktok_account verification with
  | Some flag =>
      let deputy := set_no_tiktok_account deputy flag in
      if flag then
        let deputy := set_verified_by_human deputy true in
        set_human_verified_username deputy None
      else deputy
  | None => deputy
  end.

(** [s.split(sep)] for a one-character separator. *)
Fixpoint split_on (sep : codepoint) (s : pystr) : list pystr :=
  match s with
  | [] => [[]]
  | c :: t =>
      if (c =? sep)%N then [] :: split_on sep t
      else
        match split_on sep t with
        | [] => [[c]]
        | word :: words => (c :: word) :: words
        end
  end.

(** [s.strip(chars)] for a one-character [chars]. *)
Definition strip_char (ch : codepoint) (s : pystr) : pystr :=
  rev (drop_while (N.eqb ch) (rev (drop_while (N.eqb ch) s))).

(** [account.tiktok_url.split('@')[-1].strip('/')] *)
Definition manual_username (tiktok_url : pystr) : pystr :=
  strip_char 47%N (last (split_on 64%N tiktok_url) []).

Definition tiktok_url_of (username : pystr) : pystr :=
  lit "https://www.tiktok.com/@" ++ username.

Definition manual_match (username : pystr) : StoredMatch :=
  mkStoredMatch username 0 0 1 [lit "manual"] 1 (Some true)
                [] false false false false false (Some []).

(** Truth value of a nullable text column. *)
Definition truthy_column (v : option pystr) : bool :=
  match v with
  | Some s => truthy s
  | None => false
  end.

(** The handler [add_manual_account] on the row it has fetched: the row
    as [db.commit()] stores it and [db.refresh] reads it back. The
    assignments to the columns are stored. The call
    [deputy.top_3_matches.append(manual_match)] changes the list in
    place, which the session does not see on a plain [JSON] column: the
    stored list is the former one, unless the column was [NULL] and has
    just been assigned the list the match is appended to. *)
Definition add_manual_account (deputy : DeputyRow) (tiktok_url : pystr)
  : DeputyRow :=
  let username := manual_username tiktok_url in
  let deputy :=
    match dep_top_3_matches deputy with
    | None => set_top_3_matches deputy (Some [manual_match username])
    | Some _ => deputy
    end in
  let deputy := set_verified_by_human deputy true in
  let deputy := set_human_verified_username deputy (Some username) in
  if negb (truthy_column (best_match_username deputy)) then
    let deputy := set_best_match_username deputy (Some username) in
    let deputy :=
      set_best_match_url deputy (Some (tiktok_url_of username)) in
    set_found deputy true
  else deputy.

(** A data row of the exported CSV file, under the header
    [Nom, Législatures, Username TikTok, Lien TikTok, Statut]. *)
Record CsvRow := mkCsvRow {
  csv_nom : pystr;
  csv_legislatures : pystr;
  csv_username : pystr;
  csv_lien : pystr;
  csv_statut : pystr
}.

(** ['Aucun compte TikTok'] and ['Compte vérifié'] *)
Definition aucun_compte : pystr := lit "Aucun compte TikTok".
Definition compte_verifie : pystr :=
  lit "Compte v" ++ [233%N] ++ lit "rifi" ++ [233%N].

(** [sep.join(l)] *)
Fixpoint join (sep : pystr) (l : list pystr) : pystr :=
  match l with
  | [] => []
  | [s] => s
  | s :: rest => s ++ sep ++ join sep rest
  end.

(** The body of the loop of [export_verified_accounts]: the row written
    for a deputy the query has returned, if any. Whether a deputy of the
    table is exported also depends on the query, see
    [export_verified_accounts] below. *)
Definition export_row (deputy : DeputyRow) : option CsvRow :=
  let legislatures_str :=
    match legislatures deputy with
    | [] => []
    | _ :: _ => join (lit ", ") (legislatures deputy)
    end in
  if no_tiktok_account deputy then
    Some (mkCsvRow (dep_name deputy) legislatures_str [] [] aucun_compte)
  else if truthy_column (human_verified_username deputy) then
    match human_verified_username deputy with
    | Some username =>
        Some (mkCsvRow (dep_name deputy) legislatures_str username
                       (tiktok_url_of username) compte_verifie)
    | None => None
    end
  else None.

(** The data rows of the file, for the rows the query returns in the
    order [deputies]. *)
Definition export_rows (deputies : list DeputyRow) : list CsvRow :=
  flat_map
    (fun deputy =>
       match export_row deputy with
       | Some row => [row]
       | None => []
       end)
    deputies.

Section ExportQuery.

(** [order_by(Deputy.name)], the sort of the database. *)
Variable order_by_name : list DeputyRow -> list DeputyRow.

(** The data rows [export_verified_accounts] writes for the table [db]:
    the query keeps the rows with [verified_by_human == True], sorted by
    name, and the loop writes at most one row for each of them. *)
Definition export_verified_accounts (db : list DeputyRow) : list CsvRow :=
  let deputies := order_by_name (filter verified_by_human db) in
  export_rows deputies.

End ExportQuery.

(** Step 3 of [initialize_with_verifications] on the row found under the
    name of a CSV row: the new row and the increment of
    [verification_count]. *)
Definition apply_verification (deputy : DeputyRow) (row : CsvRow)
  : DeputyRow * nat :=
  let username := csv_username row in
  let status := csv_statut row in
  if PyStr.eqb status aucun_compte then
    let deputy := set_verified_by_human deputy true in
    let deputy := set_no_tiktok_account deputy true in
    let deputy := set_human_verified_username deputy None in
    (deputy, 1%nat)
  else if PyStr.eqb status compte_verifie && truthy username then
    let deputy := set_verified_by_human deputy true in
    let deputy := set_no_tiktok_account deputy false in
    let deputy := set_human_verified_username deputy (Some username) in
    (deputy, 1%nat)
  else (deputy, 0%nat).

(** [db.query(Deputy).filter(Deputy.name == name).first()] followed by
    the update: the first row of that name is the one changed. *)
Fixpoint apply_to_first (row : CsvRow) (db : list DeputyRow)
  : list DeputyRow * nat :=
  match db with
  | [] => ([], 0%nat)
  | deputy :: rest =>
      if PyStr.eqb (dep_name deputy) (csv_nom row) then
        let (deputy, n) := apply_verification deputy row in
        (deputy :: rest, n)
      else
        let (rest, n) := apply_to_first row rest in
        (deputy :: rest, n)
  end.

(** The loop over the CSV rows, with [verification_count]. *)
Fixpoint apply_rows (rows : list CsvRow) (db : list DeputyRow)
  (verification_count : nat) : list DeputyRow * nat :=
  match rows with
  | [] => (db, verification_count)
  | row :: rest =>
      if negb (truthy (csv_nom row)) then
        apply_rows rest db verification_count
      else
        let (db, n) := apply_to_first row db in
        apply_rows rest db (verification_count + n)%nat
  end.

End Registry.
Import Registry.

(* ================================================================= *)
(** ** Vocabulary of the statements about the merge and the ranking *)

Module Vocabulary.

(** [u in usernames] *)
Definition mem (u : pystr) (usernames : list pystr) : bool :=
  existsb (PyStr.eqb u) usernames.

(** Whether the source list tagged [tag] proposes [u]. *)
Definition proposed_by (deputy : Deputy) (u : pystr) (tag : SourceTag)
  : bool :=
  match tag with
  | twitter => mem u (twitter_username deputy)
  | websearch => mem u (websearch_username deputy)
  | variant => mem u (variant_username deputy)
  end.

(** Every identifier handed to [process_deputy], in the order the three
    loops read them. *)
Definition all_usernames (deputy : Deputy) : list pystr :=
  twitter_username deputy ++ websearch_username deputy
  ++ variant_username deputy.

(** The candidates of [l] whose raw score is [k], in the order of [l]. *)
Definition with_score (k : Z) (l : list TikTokCandidate)
  : list TikTokCandidate :=
  filter (fun c => (raw_score c =? k)%Z) l.

(** A character of a generated pattern: ASCII, not upper-case, neither
    a hyphen nor a space. *)
Definition plain_char (c : codepoint) : Prop :=
  is_ascii c = true /\ is_upper c = false /\ c <> 45%N /\ c <> 32%N.

End Vocabulary.
Import Vocabulary.

(* ================================================================= *)
(** ** Sample inputs *)

Module Samples.

(** "Élue LR, ex-RN" *)
Definition bio_elue_lr : pystr := (201%N :: lit "lue LR, ex-RN").

(** A biography of two spaces and a rocket (U+1F680). *)
Definition bio_rocket : pystr := [32; 32; 128640]%N.

(** Two candidates with the same analysis, 150 and 20000 subscribers. *)
Definition small_account : TikTokCandidate :=
  new_candidate (lit "jdupont") 150 [twitter] None.

Definition large_account : TikTokCandidate :=
  new_candidate (lit "j.dupont") 20000 [variant] None.

(** [c.isalnum()] on ASCII characters. *)
Definition ascii_alnum (c : codepoint) : bool :=
  (((48 <=? c) && (c <=? 57)) || ((65 <=? c) && (c <=? 90))
   || ((97 <=? c) && (c <=? 122)))%N.

(** A row as [load_json_data] stores it, with a best match. *)
Definition stored_dupont : DeputyRow :=
  mkDeputyRow (lit "Jean Dupont") [] true
    (Some (lit "jdupont")) (Some (tiktok_url_of (lit "jdupont")))
    (Some 150%Z) (Some 0.5%R) (Some 12%Z) (Some [lit "twitter"])
    (Some 1%nat) (Some false) (Some []) (Some false) (Some false)
    (Some false) (Some false) (Some []) (Some [])
    [] [] false None false.

(** Four suggestions for one name, as the language model may return
    them. *)
Definition suggested_dupont : list pystr :=
  [lit "@j.dupont"; lit " jean dupont! "; lit "x"; lit "dupont_officiel"].

(** Three rows of the table: a deputy verified with an identifier, one
    marked as having no account, one not verified. *)
Definition verified_dupont : DeputyRow :=
  verify_deputy stored_dupont
    (mkVerificationUpdate true (Some (lit "jdupont")) None).

Definition stored_martin : DeputyRow :=
  mkDeputyRow (lit "Marie Martin") [] false
    None None None None None None None None None None None None None None
    (Some []) [] [] false None false.

Definition martin_without_account : DeputyRow :=
  verify_deputy stored_martin (mkVerificationUpdate false None (Some true)).

Definition stored_durand : DeputyRow :=
  mkDeputyRow (lit "Paul Durand") [] false
    None None None None None None None None None None None None None None
    (Some []) [] [] false None false.

(** The verification columns as a reload sets them. *)
Definition reset_verification (deputy : DeputyRow) : DeputyRow :=
  let deputy := set_verified_by_human deputy false in
  let deputy := set_human_verified_username deputy None in
  set_no_tiktok_account deputy false.

End Samples.
Import Samples.

(* ================================================================= *)
(** * Properties *)

(* ----------------------------------------------------------------- *)
(** ** The confidence distributor *)

(** [x / d * d] becomes [x] in the goal, for a denominator [d] that [lra]
    shows different from zero. *)
Ltac cancel_div :=
  unfold Rdiv; rewrite Rmult_assoc, Rinv_l by lra.

Ltac cancel_div_in H :=
  unfold Rdiv in H; rewrite Rmult_assoc, Rinv_l in H by lra.

Section ConfidenceFacts.

Open Scope R_scope.

Lemma py_min_Rmin (a b : R) : py_min a b = Rmin a b.
Proof.
  unfold py_min, Rmin.
  destruct (Rlt_dec b a), (Rle_dec a b); lra.
Qed.

Lemma quality_factor_sigmoid (s : Z) :
  quality_factor s = sigmoid ((IZR s - 60) / 25).
Proof.
  unfold quality_factor, sigmoid.
  rewrite minus_IZR.
  replace (- (IZR s - 60) / 25) with (- ((IZR s - 60) / 25)) by lra.
  reflexivity.
Qed.

Lemma sigmoid_bounds (x : R) : 0 < sigmoid x < 1.
Proof.
  unfold sigmoid.
  pose proof (exp_pos (- x)) as He.
  split.
  - apply Rdiv_lt_0_compat; lra.
  - apply (Rmult_lt_reg_r (1 + exp (- x))); [lra|].
    cancel_div. lra.
Qed.

Lemma quality_factor_bounds (s : Z) : 0 < quality_factor s < 1.
Proof. rewrite quality_factor_sigmoid. apply sigmoid_bounds. Qed.

Lemma quality_factor_60 : quality_factor 60 = 0.5.
Proof.
  unfold quality_factor. simpl (60 - 60)%Z.
  replace (- 0 / 25) with 0 by lra.
  rewrite exp_0. lra.
Qed.

(** The loop [for i in range(1, n): confidences[i] = v] fills every slot
    after the ones already written. *)
Lemma fill_from (v : R) (zs pre : list R) :
  fold_left (fun conf i => set_item conf i v)
            (seq (List.length pre) (List.length zs)) (pre ++ zs)
  = pre ++ repeat v (List.length zs).
Proof.
  revert pre. induction zs as [|z zs IH]; intros pre; simpl.
  - reflexivity.
  - assert (Hset : set_item (pre ++ z :: zs) (List.length pre) v
                   = (pre ++ [v]) ++ zs).
    { clear IH. induction pre as [|p pre IHp]; simpl; [reflexivity|].
      now rewrite IHp. }
    rewrite Hset.
    replace (S (List.length pre)) with (List.length (pre ++ [v]))
      by (rewrite length_app; simpl; lia).
    rewrite IH, <- app_assoc. reflexivity.
Qed.

(** Closed form of the distributor on two or more scores. *)
Lemma calculate_confidence_many (s0 s1 : Z) (rest : list Z) :
  calculate_confidence (s0 :: s1 :: rest)
  = top_of s0 s1
    :: repeat ((1 - top_of s0 s1) / INR (S (List.length rest)))
              (S (List.length rest)).
Proof.
  unfold calculate_confidence, top_of.
  rewrite py_min_Rmin.
  cbn [List.length repeat set_item].
  replace (S (S (List.length rest)) - 1)%nat with (S (List.length rest)) by lia.
  set (top := 0.25 + _).
  set (v := (1 - top) / _).
  pose proof (fill_from v (repeat 0 (S (List.length rest))) [top]) as H.
  rewrite repeat_length in H. exact H.
Qed.

Lemma sum_repeat (v : R) (k : nat) : sum (repeat v k) = INR k * v.
Proof.
  induction k as [|k IH].
  - simpl. lra.
  - cbn [repeat sum fold_right]. fold (sum (repeat v k)).
    rewrite IH, S_INR. lra.
Qed.

Lemma sorted_desc_head (s0 s1 : Z) (rest : list Z) :
  sorted_desc (s0 :: s1 :: rest) = true -> (s1 <= s0)%Z.
Proof.
  cbn [sorted_desc]. intros H.
  apply andb_prop in H. destruct H as [H _].
  now apply Z.leb_le.
Qed.

Lemma margin_score_range (m : Z) :
  (0 <= m)%Z -> 0 <= Rmin (IZR m / 30) 1 <= 1.
Proof.
  intros Hm. apply IZR_le in Hm.
  split.
  - apply Rmin_glb; lra.
  - apply Rmin_r.
Qed.

Lemma top_of_range (s0 s1 : Z) :
  (s1 <= s0)%Z -> 0.25 <= top_of s0 s1 < 0.95.
Proof.
  intros Hle. unfold top_of.
  pose proof (quality_factor_bounds s0) as [Hq0 Hq1].
  pose proof (@margin_score_range (s0 - s1) ltac:(lia)) as [Hm0 Hm1].
  set (q := quality_factor s0) in *.
  set (m := Rmin _ _) in *.
  split; nra.
Qed.

Lemma two_or_more (A : Type) (l : list A) :
  (2 <= List.length l)%nat -> exists a b t, l = a :: b :: t.
Proof.
  destruct l as [|a [|b t]]; simpl; intros H; try lia.
  now exists a, b, t.
Qed.

Lemma raw_scores_Forall (scores : list Z) :
  raw_scores scores = true
  <-> Forall (fun s => (0 <= s <= 170)%Z) scores.
Proof.
  unfold raw_scores. rewrite forallb_forall, Forall_forall.
  split; intros H s Hs; specialize (H s Hs).
  - apply andb_prop in H. destruct H as [H0 H1].
    apply Z.leb_le in H0, H1. lia.
  - apply andb_true_intro. split; apply Z.leb_le; lia.
Qed.

Lemma raw_scores_head (s0 : Z) (rest : list Z) :
  raw_scores (s0 :: rest) = true -> (0 <= s0 <= 170)%Z.
Proof.
  intros H. apply raw_scores_Forall in H.
  now inversion H.
Qed.

Lemma exp_3_le : exp 3 <= 27.
Proof.
  replace 3 with (1 + (1 + 1)) by lra. rewrite !exp_plus.
  pose proof exp_le_3 as H1. pose proof (exp_pos 1) as H0. nra.
Qed.

Lemma exp_5_le : exp 5 <= 243.
Proof.
  replace 5 with (1 + (1 + (1 + (1 + 1)))) by lra. rewrite !exp_plus.
  pose proof exp_le_3 as H1. pose proof (exp_pos 1) as H0.
  assert (H2 : exp 1 * exp 1 <= 9) by nra.
  assert (H3 : exp 1 * (exp 1 * exp 1) <= 27) by nra.
  assert (H4 : exp 1 * (exp 1 * (exp 1 * exp 1)) <= 81) by nra.
  nra.
Qed.

Lemma exp_le (x y : R) : x <= y -> exp x <= exp y.
Proof.
  intros [H | ->]; [left; now apply exp_increasing | right; reflexivity].
Qed.

(** On a raw score the quality factor stays away from 0 and from 1. *)
Lemma quality_factor_raw (s : Z) :
  (0 <= s <= 170)%Z -> 1 / 28 <= quality_factor s <= 243 / 244.
Proof.
  intros [H0 H170]. apply IZR_le in H0, H170.
  unfold quality_factor. rewrite minus_IZR.
  set (x := - (IZR s - 60) / 25).
  assert (Hx : -5 <= x <= 3) by (unfold x; lra).
  pose proof (exp_pos x) as Hpos.
  assert (Hup : exp x <= 27).
  { apply Rle_trans with (exp 3); [apply exp_le; lra | apply exp_3_le]. }
  assert (Hlow : / 243 <= exp x).
  { apply Rle_trans with (exp (Ropp 5)); [|apply exp_le; lra].
    rewrite exp_Ropp. apply Rinv_le_contravar;
      [apply exp_pos | apply exp_5_le]. }
  assert (H243 : 243 * / 243 = 1) by (apply Rinv_r; lra).
  split.
  - apply (Rmult_le_reg_r (1 + exp x)); [lra|].
    replace (1 / (1 + exp x) * (1 + exp x)) with 1 by (field; lra).
    lra.
  - apply (Rmult_le_reg_r (1 + exp x)); [lra|].
    replace (1 / (1 + exp x) * (1 + exp x)) with 1 by (field; lra).
    lra.
Qed.

Lemma top_of_raw (s0 s1 : Z) :
  (0 <= s0 <= 170)%Z -> (s1 <= s0)%Z -> 0.25 <= top_of s0 s1 <= 0.948.
Proof.
  intros Hraw Hle. unfold top_of.
  pose proof (quality_factor_raw Hraw) as [Hq0 Hq1].
  pose proof (@margin_score_range (s0 - s1) ltac:(lia)) as [Hm0 Hm1].
  set (q := quality_factor s0) in *.
  set (m := Rmin _ _) in *.
  split; nra.
Qed.

End ConfidenceFacts.

Section BinaryRuns.

Import PrimFloat.
Open Scope float_scope.

(** With a best score of 60 the distributor calls [np.exp] at [0.0] and
    nowhere else: the runs on such arrays are those of the source for
    every [np.exp] that is exact at zero. *)
Lemma f64_best_60_any_exp (np_exp : float -> float) (rest : list Z) :
  np_exp 0 = 1 ->
  ConfidenceF64.calculate_confidence np_exp (60%Z :: rest)
  = ConfidenceF64.calculate_confidence ConfidenceF64.exp_at_zero
      (60%Z :: rest).
Proof.
  intros H0.
  assert (Hq : ConfidenceF64.quality_factor np_exp 60
               = ConfidenceF64.quality_factor ConfidenceF64.exp_at_zero 60).
  { unfold ConfidenceF64.quality_factor.
    replace (ConfidenceF64.of_int (- (60 - 60)) / ConfidenceF64.of_int 25)
      with 0 by (vm_compute; reflexivity).
    rewrite H0. vm_compute. reflexivity. }
  unfold ConfidenceF64.calculate_confidence.
  destruct rest as [|second rest]; now rewrite Hq.
Qed.

Lemma set_item_length (A : Type) (l : list A) (i : nat) (v : A) :
  List.length (set_item l i v) = List.length l.
Proof.
  revert i. induction l as [|h t IH]; intros [|i]; cbn; try reflexivity.
  now rewrite IH.
Qed.

Lemma fill_length (A : Type) (v : A) (indices : list nat) (l : list A) :
  List.length (fold_left (fun conf i => set_item conf i v) indices l)
  = List.length l.
Proof.
  revert l. induction indices as [|i indices IH]; intros l; [reflexivity|].
  cbn [fold_left]. now rewrite IH, set_item_length.
Qed.

(** In binary64 too the output has the length of the input, whatever
    [np.exp] returns. *)
Lemma f64_length (np_exp : float -> float) (scores : list Z) :
  List.length (ConfidenceF64.calculate_confidence np_exp scores)
  = List.length scores.
Proof.
  destruct scores as [|a [|b t]]; try reflexivity.
  unfold ConfidenceF64.calculate_confidence. cbv zeta.
  rewrite fill_length, set_item_length, repeat_length. reflexivity.
Qed.

End BinaryRuns.

Section ConfidenceLaws.

Import PrimFloat.
Open Scope R_scope.

(** C3. On two or more raw scores in descending order the distributor
    gives the best candidate
    [0.25 + 0.70 * sigmoid((score[0] - 60)/25) * min((score[0] - score[1])/30, 1)]
    and every other position the same share [(1 - confidence[0])/(n - 1)],
    whatever its own score; on [[50, 50]] it returns [[0.25, 0.75]]. *)
Theorem confidence_formula (scores : list Z) :
  (2 <= List.length scores)%nat ->
  sorted_desc scores = true ->
  raw_scores scores = true ->
  let n := List.length scores in
  let conf := calculate_confidence scores in
  let s0 := nth 0 scores 0%Z in
  let s1 := nth 1 scores 0%Z in
  nth 0 conf 0
  = 0.25 + 0.70 * sigmoid ((IZR s0 - 60) / 25)
                * Rmin ((IZR s0 - IZR s1) / 30) 1
  /\ (forall i, (1 <= i < n)%nat ->
        nth i conf 0 = (1 - nth 0 conf 0) / INR (n - 1))
  /\ calculate_confidence [50; 50]%Z = [0.25; 0.75].
Proof.
  intros Hlen _ _.
  destruct (two_or_more scores Hlen) as (a & b & t & ->).
  cbn zeta. rewrite !calculate_confidence_many.
  cbn [nth List.length].
  replace (S (S (List.length t)) - 1)%nat with (S (List.length t)) by lia.
  repeat split.
  - unfold top_of. rewrite quality_factor_sigmoid, minus_IZR. reflexivity.
  - intros i [Hi1 Hi2].
    destruct i as [|i]; [lia|].
    cbn [nth]. apply nth_repeat_lt. lia.
  - unfold top_of. cbn [repeat INR]. simpl (50 - 50)%Z.
    replace (0 / 30) with 0 by lra.
    rewrite Rmin_left by lra.
    f_equal; [lra|]. f_equal. lra.
Qed.

Lemma confidence_formula_witness :
  nth 0 (calculate_confidence [100; 60; 0]%Z) 0
  = 0.25 + 0.70 * sigmoid ((IZR 100 - 60) / 25)
                * Rmin ((IZR 100 - IZR 60) / 30) 1.
Proof.
  apply (confidence_formula [100; 60; 0]%Z);
    [simpl; lia | reflexivity | reflexivity].
Defined.

Lemma confidence_sum_general (a b : Z) (t : list Z) :
  sum (calculate_confidence (a :: b :: t)) = 1.
Proof.
  rewrite calculate_confidence_many.
  set (k := S (List.length t)).
  cbn [sum fold_right]. fold (sum (repeat ((1 - top_of a b) / INR k) k)).
  rewrite sum_repeat.
  assert (Hk : 0 < INR k) by (apply lt_0_INR; unfold k; lia).
  field. lra.
Qed.

(** C10, as stated, fails in the arithmetic of the source: on the
    descending array [[60, 45, 2]] the binary64 outputs are
    [[0.425, 0.2875, 0.2875]]; they add up to [0.9999999999999999] in
    float addition and to [1 - 2^-54] as rational numbers, below 1.0. *)
Lemma confidence_sum_counterexample :
  (2 <= List.length [60; 45; 2]%Z)%nat /\
  sorted_desc [60; 45; 2]%Z = true /\
  ConfidenceF64.calculate_confidence ConfidenceF64.exp_at_zero [60; 45; 2]%Z
  = [0.425%float; 0.2875%float; 0.2875%float] /\
  ConfidenceF64.fsum
    (ConfidenceF64.calculate_confidence ConfidenceF64.exp_at_zero
       [60; 45; 2]%Z)
  = 0.9999999999999999%float /\
  PrimFloat.ltb 0.9999999999999999%float 1%float = true /\
  QArith_base.Qlt
    (ConfidenceF64.exact_sum
       (ConfidenceF64.calculate_confidence ConfidenceF64.exp_at_zero
          [60; 45; 2]%Z))
    (QArith_base.inject_Z 1).
Proof.
  split; [simpl; lia|]. repeat split; vm_compute; reflexivity.
Qed.

(** C10, amended. On two or more scores in descending order the
    confidences add up to exactly 1 in exact arithmetic: the top
    confidence plus [n - 1] equal shares of what is left. *)
Theorem confidence_sum_one (scores : list Z) :
  (2 <= List.length scores)%nat ->
  sorted_desc scores = true ->
  sum (calculate_confidence scores) = 1.
Proof.
  intros Hlen _.
  destruct (two_or_more scores Hlen) as (a & b & t & ->).
  apply confidence_sum_general.
Qed.

Lemma confidence_sum_one_witness :
  sum (calculate_confidence [100; 60; 0]%Z) = 1.
Proof.
  apply (confidence_sum_one [100; 60; 0]%Z); [simpl; lia | reflexivity].
Defined.

(** C1, as stated, fails: on the strictly descending pair [[60, 59]] the
    best candidate gets less than the runner-up, in exact arithmetic
    (about 0.262 against 0.738) and in binary64 alike. *)
Lemma confidence_order_counterexample :
  (2 <= List.length [60; 59]%Z)%nat /\
  sorted_desc [60; 59]%Z = true /\
  (60 <> 59)%Z /\
  nth 0 (calculate_confidence [60; 59]%Z) 0
  < nth 1 (calculate_confidence [60; 59]%Z) 0 /\
  ConfidenceF64.calculate_confidence ConfidenceF64.exp_at_zero [60; 59]%Z
  = [0.26166666666666666%float; 0.7383333333333333%float].
Proof.
  split; [simpl; lia|]. split; [reflexivity|]. split; [discriminate|].
  split; [|vm_compute; reflexivity].
  rewrite calculate_confidence_many. cbn [nth List.length repeat INR].
  unfold top_of. rewrite quality_factor_60. simpl (60 - 59)%Z.
  rewrite Rmin_left by lra. lra.
Qed.

(** C1, amended. On two or more raw scores in descending order,
    [confidence[0] >= confidence[1]] holds exactly when
    [confidence[0] >= 1/n]; it always holds for [n >= 4], since
    [confidence[0] >= 0.25]. *)
Theorem confidence_order (scores : list Z) :
  (2 <= List.length scores)%nat ->
  sorted_desc scores = true ->
  raw_scores scores = true ->
  let n := List.length scores in
  let conf := calculate_confidence scores in
  (nth 1 conf 0 <= nth 0 conf 0 <-> 1 / INR n <= nth 0 conf 0)
  /\ ((4 <= n)%nat -> nth 1 conf 0 <= nth 0 conf 0).
Proof.
  intros Hlen Hsorted _.
  destruct (two_or_more scores Hlen) as (a & b & t & ->).
  pose proof (top_of_range (sorted_desc_head _ _ _ Hsorted)) as [Hlo Hhi].
  cbn zeta. rewrite calculate_confidence_many.
  cbn [nth List.length repeat].
  set (top := top_of a b) in *.
  set (k := S (List.length t)).
  assert (Hk : 1 <= INR k).
  { replace 1 with (INR 1) by reflexivity. apply le_INR. unfold k. lia. }
  assert (Hn : INR (S k) = INR k + 1) by apply S_INR.
  assert (Hiff : (1 - top) / INR k <= top <-> 1 / INR (S k) <= top).
  { rewrite Hn. split; intros H.
    - apply (Rmult_le_reg_r (INR k + 1)); [lra|].
      cancel_div.
      apply (Rmult_le_compat_r (INR k)) in H; [|lra].
      cancel_div_in H. lra.
    - apply (Rmult_le_reg_r (INR k)); [lra|].
      cancel_div.
      apply (Rmult_le_compat_r (INR k + 1)) in H; [|lra].
      cancel_div_in H. lra. }
  split; [exact Hiff|].
  intros H4. apply Hiff.
  assert (Hk3 : 3 <= INR k).
  { replace 3 with (INR 3) by (simpl; lra). apply le_INR. unfold k in *. lia. }
  rewrite Hn.
  apply (Rmult_le_reg_r (INR k + 1)); [lra|].
  cancel_div. nra.
Qed.

Lemma confidence_order_witness :
  nth 1 (calculate_confidence [100; 60; 0; 0]%Z) 0
  <= nth 0 (calculate_confidence [100; 60; 0; 0]%Z) 0.
Proof.
  apply (confidence_order [100; 60; 0; 0]%Z);
    [simpl; lia | reflexivity | reflexivity | simpl; lia].
Defined.

(** The clamp of the margin score: strictly increasing below 30 points,
    constant from 30 on. *)
Lemma margin_score_mono (m1 m2 : Z) :
  (m1 < m2)%Z ->
  Rmin (IZR m1 / 30) 1 <= Rmin (IZR m2 / 30) 1
  /\ (Rmin (IZR m1 / 30) 1 < Rmin (IZR m2 / 30) 1 <-> (m1 < 30)%Z).
Proof.
  intros Hlt. pose proof (IZR_lt _ _ Hlt) as Hr.
  destruct (Z_lt_ge_dec m1 30) as [Hs|Hs].
  - pose proof (IZR_lt _ _ Hs) as Hs'.
    rewrite (Rmin_left (IZR m1 / 30)) by lra.
    assert (IZR m1 / 30 < Rmin (IZR m2 / 30) 1)
      by (apply Rmin_glb_lt; lra).
    repeat split; auto; lra.
  - assert (Hs' : 30 <= IZR m1) by (apply IZR_le; lia).
    rewrite !Rmin_right by lra.
    repeat split; try lra; lia.
Qed.

(** C4, as stated, fails: [[60, 30]] and [[60, 20]] share the best score,
    the second has the larger margin, and both get the same
    [confidence[0]], in exact arithmetic and in binary64 alike. *)
Lemma confidence_margin_counterexample :
  sorted_desc [60; 30]%Z = true /\ sorted_desc [60; 20]%Z = true /\
  (margin_of [60; 30] < margin_of [60; 20])%Z /\
  ~ (nth 0 (calculate_confidence [60; 30]%Z) 0
     < nth 0 (calculate_confidence [60; 20]%Z) 0) /\
  hd_error
    (ConfidenceF64.calculate_confidence ConfidenceF64.exp_at_zero [60; 30]%Z)
  = hd_error
    (ConfidenceF64.calculate_confidence ConfidenceF64.exp_at_zero [60; 20]%Z).
Proof.
  split; [reflexivity|]. split; [reflexivity|]. split; [reflexivity|].
  split; [|vm_compute; reflexivity].
  rewrite !calculate_confidence_many. cbn [nth]. unfold top_of.
  simpl (60 - 30)%Z. simpl (60 - 20)%Z.
  rewrite !Rmin_right by lra. lra.
Qed.

(** C4, amended. For two descending arrays of two or more raw scores
    with the same best score, the one with the larger margin never gets
    a smaller [confidence[0]], and gets a strictly larger one exactly
    when the smaller margin is below 30 points (from 30 on the margin
    score is clamped to 1); the increase is then at least [1/1200]. *)
Theorem confidence_margin_monotone (xs ys : list Z) :
  (2 <= List.length xs)%nat -> (2 <= List.length ys)%nat ->
  sorted_desc xs = true -> sorted_desc ys = true ->
  raw_scores xs = true -> raw_scores ys = true ->
  nth 0 xs 0%Z = nth 0 ys 0%Z ->
  (margin_of xs < margin_of ys)%Z ->
  nth 0 (calculate_confidence xs) 0 <= nth 0 (calculate_confidence ys) 0
  /\ (nth 0 (calculate_confidence xs) 0 < nth 0 (calculate_confidence ys) 0
      <-> (margin_of xs < 30)%Z)
  /\ ((margin_of xs < 30)%Z ->
      1 / 1200
      <= nth 0 (calculate_confidence ys) 0
         - nth 0 (calculate_confidence xs) 0).
Proof.
  intros Hx Hy _ _ Hrx _.
  destruct (two_or_more xs Hx) as (a & b & t & ->).
  destruct (two_or_more ys Hy) as (a' & b' & t' & ->).
  apply raw_scores_head in Hrx.
  unfold margin_of. cbn [nth]. intros <- Hm.
  rewrite !calculate_confidence_many. cbn [nth]. unfold top_of.
  pose proof (quality_factor_raw Hrx) as [Hq0 Hq1].
  destruct (margin_score_mono Hm) as [Hle Hiff].
  assert (Hgap : (a - b < 30)%Z ->
                 1 / 30 <= Rmin (IZR (a - b') / 30) 1
                           - Rmin (IZR (a - b) / 30) 1).
  { intros Hs.
    assert (H1 : IZR (a - b) + 1 <= IZR (a - b')).
    { rewrite <- (plus_IZR (a - b) 1). apply IZR_le. lia. }
    assert (H2 : IZR (a - b) + 1 <= 30).
    { rewrite <- (plus_IZR (a - b) 1). apply IZR_le. lia. }
    rewrite (Rmin_left (IZR (a - b) / 30)) by lra.
    assert (H3 : IZR (a - b) / 30 + 1 / 30 <= Rmin (IZR (a - b') / 30) 1)
      by (apply Rmin_glb; lra).
    lra. }
  set (q := quality_factor a) in *.
  set (u := Rmin (IZR (a - b) / 30) 1) in *.
  set (v := Rmin (IZR (a - b') / 30) 1) in *.
  split; [nra|]. split.
  - rewrite <- Hiff. split; intros H; nra.
  - intros Hs. specialize (Hgap Hs). nra.
Qed.

Lemma confidence_margin_monotone_witness :
  nth 0 (calculate_confidence [100; 90]%Z) 0
  < nth 0 (calculate_confidence [100; 60]%Z) 0.
Proof.
  apply (@confidence_margin_monotone [100; 90]%Z [100; 60]%Z);
    try reflexivity; simpl; lia.
Defined.

Lemma calculate_confidence_length (scores : list Z) :
  List.length (calculate_confidence scores) = List.length scores.
Proof.
  destruct scores as [|a [|b t]]; try reflexivity.
  rewrite calculate_confidence_many. simpl.
  now rewrite repeat_length.
Qed.

Lemma single_confidence_range (s : Z) :
  0.30 < 0.30 + 0.65 * quality_factor s < 0.95.
Proof. pose proof (quality_factor_bounds s). lra. Qed.

Lemma single_confidence_raw (s : Z) :
  (0 <= s <= 170)%Z -> 0.32 <= 0.30 + 0.65 * quality_factor s <= 0.948.
Proof. intros Hs. pose proof (quality_factor_raw Hs). lra. Qed.

(** C5, as stated, fails twice. On the raw scores [[60, 170]], which
    are not in descending order, the distributor returns
    [[-31/30, 61/30]], two values outside [[0, 1]]. On the descending
    array [[60, 40, 2, 2, 2, 2]] the binary64 outputs add up to
    [1.0000000000000002] in float addition, and to more than 1 as
    rational numbers. *)
Lemma confidence_range_counterexample :
  raw_scores [60; 170]%Z = true
  /\ calculate_confidence [60; 170]%Z = [- (31 / 30); 61 / 30]
  /\ ~ in_unit_interval (calculate_confidence [60; 170]%Z)
  /\ raw_scores [60; 40; 2; 2; 2; 2]%Z = true
  /\ sorted_desc [60; 40; 2; 2; 2; 2]%Z = true
  /\ ConfidenceF64.fsum
       (ConfidenceF64.calculate_confidence ConfidenceF64.exp_at_zero
          [60; 40; 2; 2; 2; 2]%Z)
     = 1.0000000000000002%float
  /\ PrimFloat.ltb 1%float 1.0000000000000002%float = true
  /\ QArith_base.Qlt
       (QArith_base.inject_Z 1)
       (ConfidenceF64.exact_sum
          (ConfidenceF64.calculate_confidence ConfidenceF64.exp_at_zero
             [60; 40; 2; 2; 2; 2]%Z)).
Proof.
  assert (H : calculate_confidence [60; 170]%Z = [- (31 / 30); 61 / 30]).
  { rewrite calculate_confidence_many. cbn [List.length repeat INR].
    unfold top_of. rewrite quality_factor_60. simpl (60 - 170)%Z.
    rewrite Rmin_left by lra.
    f_equal; [lra|]. f_equal. lra. }
  split; [reflexivity|]. split; [exact H|]. split.
  - rewrite H. intros Hin. inversion Hin as [|x l Hx _]; subst. lra.
  - repeat split; vm_compute; reflexivity.
Qed.

(** C5, amended. On an array of raw scores the output has the length of
    the input, in binary64 as over the reals. Over the reals it sums to
    at most 1; every output value lies in [[0, 1]] when the input is in
    descending order, the first being at most 0.948 when there are two
    scores or more; a single raw score [s] gets
    [0.30 + 0.65 * sigmoid((s - 60)/25)], between 0.32 and 0.948 and so
    strictly between 0.30 and 0.95. The single score 60 gets 0.625, in
    binary64 as over the reals. *)
Theorem confidence_contract (scores : list Z) :
  raw_scores scores = true ->
  List.length (calculate_confidence scores) = List.length scores
  /\ (forall np_exp,
        List.length (ConfidenceF64.calculate_confidence np_exp scores)
        = List.length scores)
  /\ ConfidenceF64.calculate_confidence ConfidenceF64.exp_at_zero [60%Z]
     = [0.625%float]
  /\ sum (calculate_confidence scores) <= 1
  /\ (sorted_desc scores = true ->
      in_unit_interval (calculate_confidence scores)
      /\ ((2 <= List.length scores)%nat ->
          0.25 <= nth 0 (calculate_confidence scores) 0 <= 0.948))
  /\ (forall s : Z,
        (0 <= s <= 170)%Z ->
        calculate_confidence [s] = [0.30 + 0.65 * sigmoid ((IZR s - 60) / 25)]
        /\ 0.30 < 0.30 + 0.65 * sigmoid ((IZR s - 60) / 25) < 0.95
        /\ 0.32 <= 0.30 + 0.65 * sigmoid ((IZR s - 60) / 25) <= 0.948)
  /\ calculate_confidence [60%Z] = [0.625].
Proof.
  intros Hraw.
  split; [apply calculate_confidence_length|].
  split; [intros np_exp; apply f64_length|].
  split; [vm_compute; reflexivity|].
  split; [|split; [|split]].
  - destruct scores as [|a [|b t]].
    + simpl. lra.
    + cbn [calculate_confidence sum fold_right].
      pose proof (single_confidence_range a). lra.
    + pose proof (@confidence_sum_general a b t). lra.
  - intros Hsorted. destruct scores as [|a [|b t]].
    + split; [constructor | cbn; lia].
    + split; [|cbn; lia]. cbn [calculate_confidence].
      pose proof (single_confidence_range a).
      constructor; [lra | constructor].
    + pose proof (@top_of_raw a b (@raw_scores_head a (b :: t) Hraw)
                    (sorted_desc_head _ _ _ Hsorted)) as [Hlo Hhi].
      rewrite calculate_confidence_many.
      set (top := top_of a b) in *.
      set (k := S (List.length t)).
      assert (Hk : 1 <= INR k).
      { replace 1 with (INR 1) by reflexivity. apply le_INR. unfold k. lia. }
      split; [|intros _; cbn [nth]; lra].
      constructor; [lra|].
      apply Forall_forall. intros x Hx.
      apply repeat_spec in Hx. subst x.
      split.
      * unfold Rdiv. apply Rmult_le_pos; [lra|].
        left. apply Rinv_0_lt_compat. lra.
      * apply (Rmult_le_reg_r (INR k)); [lra|].
        cancel_div. lra.
  - intros s Hs. cbn [calculate_confidence].
    rewrite <- quality_factor_sigmoid.
    split; [reflexivity|].
    split; [apply single_confidence_range | now apply single_confidence_raw].
  - cbn [calculate_confidence]. rewrite quality_factor_60.
    f_equal. lra.
Qed.

(** Two runs in binary64: a single score of 60, and a tie at 60. *)
Example f64_single_60 :
  ConfidenceF64.calculate_confidence ConfidenceF64.exp_at_zero [60%Z]
  = [0.625%float].
Proof. vm_compute. reflexivity. Qed.

Example f64_tie_60 :
  ConfidenceF64.calculate_confidence ConfidenceF64.exp_at_zero [60; 60]%Z
  = [0.25%float; 0.75%float].
Proof. vm_compute. reflexivity. Qed.

End ConfidenceLaws.

Lemma confidence_contract_witness :
  in_unit_interval (calculate_confidence [100; 60; 0]%Z).
Proof.
  apply (@confidence_contract [100; 60; 0]%Z); reflexivity.
Defined.

(* ----------------------------------------------------------------- *)
(** ** The scorer *)

Section ScorerFacts.

Open Scope Z_scope.

Lemma popularity_tier_bonus_values (p : Z) :
  In (popularity_tier_bonus p) [100; 50; 25; 5; 2; 0].
Proof.
  unfold popularity_tier_bonus.
  repeat match goal with
         | |- context [if ?b then _ else _] => destruct b
         end; simpl; tauto.
Qed.

Lemma popularity_tier_bonus_nonneg (p : Z) : 0 <= popularity_tier_bonus p.
Proof.
  pose proof (popularity_tier_bonus_values p) as H.
  simpl in H. intuition lia.
Qed.

Lemma text_bonus_nonneg (a : option BioAnalysis) : 0 <= text_bonus a.
Proof.
  destruct a as [bio|]; simpl; [|lia].
  destruct (bio_found bio); [|lia].
  unfold bonus.
  destruct (mentions_depute bio), (mentions_assemblee bio),
           (mentions_party bio), (verified bio); lia.
Qed.

(** C6. The scorer returns a non-negative integer: the bonus of exactly
    one popularity tier (>= 100000: 100, >= 10000: 50, >= 1000: 25,
    >= 100: 5, >= 1: 2, otherwise 0) plus, only when a text analysis is
    present and found, 10 for [mentions_depute], 5 for
    [mentions_assemblee], 5 for [mentions_party] and 50 for [verified]. *)
Theorem raw_score_spec (candidate : TikTokCandidate) :
  calculate_raw_score candidate
  = popularity_tier_bonus (subscribers candidate)
    + text_bonus (bio_analysis candidate)
  /\ 0 <= calculate_raw_score candidate.
Proof.
  assert (H : calculate_raw_score candidate = spec_raw_score candidate).
  { unfold calculate_raw_score, spec_raw_score, popularity_tier_bonus,
      text_bonus, bonus.
    rewrite !Z.geb_leb.
    destruct (100000 <=? subscribers candidate),
             (10000 <=? subscribers candidate),
             (1000 <=? subscribers candidate),
             (100 <=? subscribers candidate),
             (1 <=? subscribers candidate);
      (destruct (bio_analysis candidate) as [bio|]; [|lia]);
      (destruct (bio_found bio); [|lia]);
      destruct (mentions_depute bio), (mentions_assemblee bio),
               (mentions_party bio), (verified bio); lia. }
  split; [exact H|].
  rewrite H. unfold spec_raw_score.
  pose proof (popularity_tier_bonus_nonneg (subscribers candidate)).
  pose proof (text_bonus_nonneg (bio_analysis candidate)).
  lia.
Qed.

End ScorerFacts.

Example raw_score_verified_deputy :
  calculate_raw_score
    (new_candidate (lit "a") 12000 [twitter]
       (Some (mkBioAnalysis (lit "a") (lit "depute") true
                            true false false false None 12000 true)))
  = 110%Z.
Proof. reflexivity. Qed.

Example raw_score_bio_not_found :
  calculate_raw_score
    (new_candidate (lit "a") 150 [variant]
       (Some (mkBioAnalysis (lit "a") [] false
                            true true true true None 150 true)))
  = 5%Z.
Proof. reflexivity. Qed.

(* ----------------------------------------------------------------- *)
(** ** The text normalizer and the keyword classifier *)

Section StripFacts.

Variable p : codepoint -> bool.

Lemma drop_while_idem (s : pystr) :
  drop_while p (drop_while p s) = drop_while p s.
Proof.
  induction s as [|c t IH]; simpl; [reflexivity|].
  destruct (p c) eqn:Hc; [exact IH|].
  simpl. now rewrite Hc.
Qed.

Lemma drop_while_head (s t : pystr) (c : codepoint) :
  drop_while p s = c :: t -> p c = false.
Proof.
  induction s as [|a s IH]; simpl; [discriminate|].
  destruct (p a) eqn:Ha; [exact IH|].
  intros H. injection H as -> _. exact Ha.
Qed.

Lemma drop_while_suffix (s : pystr) :
  exists pre, s = pre ++ drop_while p s.
Proof.
  induction s as [|a s [pre IH]]; simpl.
  - now exists [].
  - destruct (p a).
    + exists (a :: pre). simpl. now f_equal.
    + now exists [].
Qed.

Lemma drop_while_Forall (P : codepoint -> Prop) (s : pystr) :
  Forall P s -> Forall P (drop_while p s).
Proof.
  induction 1 as [|a s Ha Hs IH]; simpl; [constructor|].
  destruct (p a); [exact IH | now constructor].
Qed.

End StripFacts.

Section NormalizerFacts.

Lemma rstrip_idem (s : pystr) : rstrip (rstrip s) = rstrip s.
Proof.
  unfold rstrip. now rewrite rev_involutive, drop_while_idem.
Qed.

Lemma rstrip_prefix (s : pystr) : exists suf, s = rstrip s ++ suf.
Proof.
  unfold rstrip.
  destruct (drop_while_suffix is_space (rev s)) as [pre H].
  exists (rev pre).
  rewrite <- rev_app_distr, <- H. now rewrite rev_involutive.
Qed.

Lemma rstrip_last (s t : pystr) (c d : codepoint) :
  rstrip s = c :: t -> is_space (last (c :: t) d) = false.
Proof.
  unfold rstrip. intros H.
  destruct (drop_while is_space (rev s)) as [|e r] eqn:Hd; [discriminate|].
  rewrite <- H. cbn [rev]. rewrite last_last.
  exact (drop_while_head _ _ Hd).
Qed.

Lemma strip_head (s t : pystr) (c : codepoint) :
  strip s = c :: t -> is_space c = false.
Proof.
  unfold strip. intros H.
  destruct (rstrip_prefix (lstrip s)) as [suf Hsuf].
  rewrite H in Hsuf. simpl in Hsuf.
  exact (drop_while_head _ _ Hsuf).
Qed.

Lemma strip_idem (s : pystr) : strip (strip s) = strip s.
Proof.
  destruct (strip s) as [|c t] eqn:Hs; [reflexivity|].
  pose proof (strip_head _ Hs) as Hc.
  unfold strip at 1. unfold lstrip. cbn [drop_while]. rewrite Hc.
  rewrite <- Hs. unfold strip. apply rstrip_idem.
Qed.

Lemma strip_trimmed (s : pystr) : trimmedb (strip s) = true.
Proof.
  destruct (strip s) as [|c t] eqn:Hs; [reflexivity|].
  unfold trimmedb.
  rewrite (strip_head _ Hs).
  unfold strip in Hs. rewrite (@rstrip_last _ _ _ c Hs). reflexivity.
Qed.

Lemma strip_Forall (P : codepoint -> Prop) (s : pystr) :
  Forall P s -> Forall P (strip s).
Proof.
  intros H. unfold strip, rstrip, lstrip.
  apply Forall_rev, drop_while_Forall, Forall_rev, drop_while_Forall, H.
Qed.

Lemma lower_char_not_upper (c : codepoint) : is_upper (lower_char c) = false.
Proof.
  unfold lower_char.
  destruct (is_upper c) eqn:Hu; [|exact Hu].
  unfold is_upper in *.
  apply andb_prop in Hu. destruct Hu as [H1 H2].
  apply N.leb_le in H1, H2.
  apply andb_false_iff. right. apply N.leb_gt. lia.
Qed.

Lemma lower_char_ascii (c : codepoint) :
  is_ascii c = true -> is_ascii (lower_char c) = true.
Proof.
  unfold lower_char, is_ascii.
  destruct (is_upper c) eqn:Hu; [|trivial].
  unfold is_upper in Hu.
  apply andb_prop in Hu. destruct Hu as [_ H2].
  apply N.leb_le in H2. intros _. apply N.ltb_lt. lia.
Qed.

Lemma lower_no_upper (s : pystr) : no_upper (lower s).
Proof.
  unfold no_upper, lower. apply Forall_map, Forall_forall.
  intros c _. apply lower_char_not_upper.
Qed.

Lemma lower_id (s : pystr) : no_upper s -> lower s = s.
Proof.
  induction 1 as [|c s Hc Hs IH]; simpl; [reflexivity|].
  unfold lower_char at 1. rewrite Hc. f_equal. exact IH.
Qed.

Lemma lower_ascii (s : pystr) : all_ascii s -> all_ascii (lower s).
Proof.
  unfold all_ascii, lower. intros H.
  apply Forall_map. revert H. apply Forall_impl.
  intros c. apply lower_char_ascii.
Qed.

Lemma encode_ascii_ignore_ascii (s : pystr) : all_ascii (encode_ascii_ignore s).
Proof.
  unfold all_ascii, encode_ascii_ignore. apply Forall_forall.
  intros c Hc. now apply filter_In in Hc.
Qed.

Lemma encode_ascii_ignore_id (s : pystr) :
  all_ascii s -> encode_ascii_ignore s = s.
Proof.
  unfold encode_ascii_ignore.
  induction 1 as [|c s Hc Hs IH]; simpl; [reflexivity|].
  rewrite Hc. now f_equal.
Qed.

Lemma nfkd_latin1_ascii (s : pystr) : all_ascii s -> nfkd_latin1 s = s.
Proof.
  unfold nfkd_latin1.
  induction 1 as [|c s Hc Hs IH]; simpl; [reflexivity|].
  unfold decompose_char. rewrite Hc. simpl. now f_equal.
Qed.

Variable nfkd : pystr -> pystr.

Lemma normalize_string_ascii (x : pystr) : all_ascii (normalize_string nfkd x).
Proof.
  unfold normalize_string.
  apply strip_Forall, lower_ascii, encode_ascii_ignore_ascii.
Qed.

Lemma normalize_string_no_upper (x : pystr) :
  no_upper (normalize_string nfkd x).
Proof.
  unfold normalize_string. apply strip_Forall, lower_no_upper.
Qed.

End NormalizerFacts.

(** C9. The normalizer is idempotent, and its output is lowercase (it has
    no upper-case letter and [lower] leaves it as it is), trimmed of
    whitespace at both ends, and made of ASCII characters only, hence
    free of accented letters and combining marks. The library function
    NFKD enters through the one property used: it leaves ASCII text
    unchanged. *)
Theorem normalize_string_idempotent (nfkd : pystr -> pystr) :
  (forall s, all_ascii s -> nfkd s = s) ->
  forall x : pystr,
    normalize_string nfkd (normalize_string nfkd x) = normalize_string nfkd x
    /\ no_upper (normalize_string nfkd x)
    /\ lower (normalize_string nfkd x) = normalize_string nfkd x
    /\ trimmedb (normalize_string nfkd x) = true
    /\ all_ascii (normalize_string nfkd x).
Proof.
  intros Hnfkd x.
  pose proof (normalize_string_ascii nfkd x) as Hascii.
  pose proof (normalize_string_no_upper nfkd x) as Hlow.
  repeat split; auto.
  - unfold normalize_string at 1.
    rewrite (Hnfkd _ Hascii), (encode_ascii_ignore_id Hascii), (lower_id Hlow).
    unfold normalize_string. apply strip_idem.
  - now apply lower_id.
  - unfold normalize_string. apply strip_trimmed.
Qed.

Lemma normalize_string_idempotent_witness :
  normalize_string nfkd_latin1 (normalize_string nfkd_latin1 jean_emile)
  = normalize_string nfkd_latin1 jean_emile.
Proof.
  apply (normalize_string_idempotent nfkd_latin1 nfkd_latin1_ascii jean_emile).
Defined.

(** C8. Whenever the classifier reports [mentions_assemblee] it also
    reports [mentions_depute]. *)
Theorem assemblee_implies_depute (nfkd : pystr -> pystr) (bio_text : pystr) :
  kw_mentions_assemblee (analyze_bio_keywords nfkd bio_text) = true ->
  kw_mentions_depute (analyze_bio_keywords nfkd bio_text) = true.
Proof.
  unfold analyze_bio_keywords.
  destruct (negb (truthy bio_text)); simpl.
  - discriminate.
  - intros ->. apply orb_true_r.
Qed.

Lemma assemblee_implies_depute_witness :
  any_in depute_keywords (normalize_string nfkd_latin1 bio_assemblee) = false
  /\ kw_mentions_depute (analyze_bio_keywords nfkd_latin1 bio_assemblee) = true.
Proof.
  split; [reflexivity|].
  apply (assemblee_implies_depute nfkd_latin1 bio_assemblee). reflexivity.
Defined.

Example normalize_jean_emile :
  normalize_string nfkd_latin1 jean_emile = lit "jean-emile".
Proof. reflexivity. Qed.

Example normalize_bio_assemblee :
  normalize_string nfkd_latin1 bio_assemblee = lit "assemblee nationale".
Proof. reflexivity. Qed.

Example analyze_empty_bio (nfkd : pystr -> pystr) :
  analyze_bio_keywords nfkd [] = mkKeywords false false false false None.
Proof. reflexivity. Qed.

(* ----------------------------------------------------------------- *)
(** ** The orchestrator: merging the source lists *)

Section MergeFacts.

Lemma pystr_eqb_eq (a b : pystr) : PyStr.eqb a b = true <-> a = b.
Proof.
  unfold PyStr.eqb. destruct (pystr_eq_dec a b); split; congruence.
Qed.

Lemma pystr_eqb_refl (a : pystr) : PyStr.eqb a a = true.
Proof. now apply pystr_eqb_eq. Qed.

Lemma pystr_eqb_neq (a b : pystr) : a <> b -> PyStr.eqb a b = false.
Proof.
  unfold PyStr.eqb. destruct (pystr_eq_dec a b); congruence.
Qed.

Lemma tags_of_append_same (m : SourceMap) (u : pystr) (t : SourceTag) :
  tags_of (append_source m u t) u = tags_of m u ++ [t].
Proof.
  induction m as [|[k tags] m IH]; simpl.
  - now rewrite pystr_eqb_refl.
  - destruct (PyStr.eqb k u) eqn:Hk; simpl; rewrite Hk; auto.
Qed.

Lemma tags_of_append_other (m : SourceMap) (u v : pystr) (t : SourceTag) :
  u <> v -> tags_of (append_source m u t) v = tags_of m v.
Proof.
  intros Hne. induction m as [|[k tags] m IH]; simpl.
  - now rewrite pystr_eqb_neq.
  - destruct (PyStr.eqb k u) eqn:Hk; simpl.
    + apply pystr_eqb_eq in Hk. subst k. now rewrite pystr_eqb_neq.
    + now rewrite IH.
Qed.

Lemma keys_append_source (m : SourceMap) (u : pystr) (t : SourceTag) :
  (In u (keys m) /\ keys (append_source m u t) = keys m)
  \/ (~ In u (keys m) /\ keys (append_source m u t) = keys m ++ [u]).
Proof.
  induction m as [|[k tags] m IH]; simpl.
  - right. split; [tauto | reflexivity].
  - destruct (PyStr.eqb k u) eqn:Hk; simpl.
    + apply pystr_eqb_eq in Hk. left. split; [now left | reflexivity].
    + assert (k <> u) by (intros ->; now rewrite pystr_eqb_refl in Hk).
      destruct IH as [[Hin Heq]|[Hnin Heq]]; unfold keys in *; rewrite Heq.
      * left. split; [now right | reflexivity].
      * right. split; [tauto | reflexivity].
Qed.

Lemma well_keyed_append (m : SourceMap) (u : pystr) (t : SourceTag) :
  truthy u = true -> well_keyed m -> well_keyed (append_source m u t).
Proof.
  intros Hu [Hnd Hall]. unfold well_keyed.
  destruct (keys_append_source m u t) as [[_ ->]|[Hnin ->]]; [now split|].
  split.
  - apply NoDup_app; [assumption | repeat constructor; simpl; tauto |].
    intros x Hx [<-|[]]. contradiction.
  - apply Forall_app. split; [assumption | now repeat constructor].
Qed.

Lemma well_keyed_add (t : SourceTag) (us : list pystr) (m : SourceMap) :
  well_keyed m -> well_keyed (add_usernames t m us).
Proof.
  revert m. induction us as [|a us IH]; intros m Hm; simpl; [exact Hm|].
  apply IH. destruct (truthy a) eqn:Ha; [|exact Hm].
  now apply well_keyed_append.
Qed.

Lemma tags_of_add (t : SourceTag) (u : pystr) (us : list pystr)
  (m : SourceMap) :
  truthy u = true ->
  tags_of (add_usernames t m us) u = tags_of m u ++ repeat t (occurrences us u).
Proof.
  intros Hu. revert m. unfold occurrences.
  induction us as [|a us IH]; intros m; cbn [add_usernames fold_left count_occ].
  - simpl. now rewrite app_nil_r.
  - fold (add_usernames t (if truthy a then append_source m a t else m) us).
    rewrite IH.
    destruct (pystr_eq_dec a u) as [->|Hne].
    + rewrite Hu, tags_of_append_same, <- app_assoc. reflexivity.
    + destruct (truthy a); [rewrite tags_of_append_other by assumption|];
        reflexivity.
Qed.

Lemma tags_of_In (m : SourceMap) (u : pystr) (srcs : list SourceTag) :
  NoDup (keys m) -> In (u, srcs) m -> tags_of m u = srcs.
Proof.
  induction m as [|[k tags] m IH]; simpl; [tauto|].
  intros Hnd [Heq|Hin].
  - injection Heq as -> ->. now rewrite pystr_eqb_refl.
  - inversion Hnd as [|? ? Hk Hnd']; subst.
    rewrite pystr_eqb_neq; [now apply IH|].
    intros ->. apply Hk. change u with (fst (u, srcs)).
    now apply in_map.
Qed.

Lemma merge_sources_well_keyed (d : Deputy) : well_keyed (merge_sources d).
Proof.
  unfold merge_sources.
  repeat apply well_keyed_add.
  split; constructor.
Qed.

End MergeFacts.

(** C2, as stated, fails: the identifiers ["a"] and ["A"] coming from two
    source lists stay two candidates, each with its own single tag. *)
Lemma merge_case_counterexample :
  merge_sources (mkDeputy (lit "x") [lit "a"] [lit "A"] [])
  = [(lit "a", [twitter]); (lit "A", [websearch])]
  /\ List.length (merge_sources (mkDeputy (lit "x") [lit "a"] [lit "A"] []))
     = 2%nat.
Proof. split; reflexivity. Qed.

(** C2, amended. The merge deduplicates by exact, case-sensitive
    identifier: no identifier is kept twice, each kept identifier carries
    one tag per occurrence in each source list, and the same identifier
    coming from two source lists yields a single candidate tagged with
    both sources. *)
Theorem merge_dedup_exact (d : Deputy) :
  NoDup (List.map fst (merge_sources d))
  /\ (forall u srcs, In (u, srcs) (merge_sources d) -> srcs = provenance d u)
  /\ (forall n u, truthy u = true ->
        merge_sources (mkDeputy n [u] [u] []) = [(u, [twitter; websearch])]
        /\ merge_sources (mkDeputy n [u] [] [u]) = [(u, [twitter; variant])]
        /\ merge_sources (mkDeputy n [] [u] [u]) = [(u, [websearch; variant])]).
Proof.
  destruct (merge_sources_well_keyed d) as [Hnd Hall].
  split; [exact Hnd|]. split.
  - intros u srcs Hin.
    assert (Hu : truthy u = true).
    { rewrite Forall_forall in Hall. apply Hall.
      change u with (fst (u, srcs)). now apply in_map. }
    rewrite <- (@tags_of_In _ _ _ Hnd Hin).
    unfold merge_sources, provenance.
    rewrite !tags_of_add by assumption. simpl.
    now rewrite <- app_assoc.
  - intros n u Hu. unfold merge_sources. simpl.
    rewrite Hu. simpl. now rewrite pystr_eqb_refl.
Qed.

Lemma merge_dedup_exact_witness :
  merge_sources (mkDeputy (lit "x") [lit "a"] [lit "a"] [])
  = [(lit "a", [twitter; websearch])].
Proof.
  apply (merge_dedup_exact (mkDeputy (lit "x") [lit "a"] [lit "a"] [])).
  reflexivity.
Defined.

(* ----------------------------------------------------------------- *)
(** ** The orchestrator: the pool without subscribers *)

(** The test [subscribers >= 1] of the source, when it fails. *)
Ltac no_subscriber H :=
  match goal with
  | |- context [(?s >=? 1)%Z] =>
      replace (s >=? 1)%Z with false
        by (symmetry; rewrite Z.geb_leb; apply Z.leb_gt; exact H)
  end.

Section FallbackFacts.

Variable check_tiktok_exists : pystr -> bool * Z.
Variable analyze_tiktok_bio : pystr -> option BioAnalysis.

Lemma build_candidates_existing (m : SourceMap) :
  build_candidates check_tiktok_exists analyze_tiktok_bio m
  = List.map (candidate_of check_tiktok_exists analyze_tiktok_bio)
             (existing_usernames check_tiktok_exists m).
Proof.
  unfold build_candidates, existing_usernames, candidate_of.
  induction m as [|[u srcs] m IH]; [reflexivity|].
  cbn [flat_map filter fst snd]. rewrite IH.
  destruct (check_tiktok_exists u) as [ex subs] eqn:Hc.
  destruct ex; cbn [negb fst snd app List.map]; [|reflexivity].
  now rewrite Hc.
Qed.

Lemma candidate_of_no_subscribers (e : pystr * list SourceTag) :
  (snd (check_tiktok_exists (fst e)) < 1)%Z ->
  candidate_of check_tiktok_exists analyze_tiktok_bio e
  = mkCandidate (fst e) true (snd (check_tiktok_exists (fst e))) (snd e)
                None 0%Z 0%R.
Proof.
  intros He. unfold candidate_of, new_candidate.
  no_subscriber He.
  reflexivity.
Qed.

Lemma no_subscribers_filter (l : SourceMap) :
  (forall e, In e l -> (snd (check_tiktok_exists (fst e)) < 1)%Z) ->
  filter (fun c => (subscribers c >=? 1)%Z)
         (List.map (candidate_of check_tiktok_exists analyze_tiktok_bio) l)
  = [].
Proof.
  induction l as [|e l IH]; intros H; [reflexivity|].
  assert (He : (snd (check_tiktok_exists (fst e)) < 1)%Z)
    by (apply H; now left).
  cbn [List.map filter].
  rewrite (candidate_of_no_subscribers _ He). cbn [subscribers].
  no_subscriber He.
  apply IH. intros e' He'. apply H. now right.
Qed.

(** C7. When at least one merged identifier exists and no existing one
    has a subscriber, the individual is reported as found, the best
    candidate is the first existing identifier in merge order, the
    shortlist is that candidate alone, and it is returned as it was
    built: raw score 0, confidence 0, no text analysis. *)
Theorem zero_popularity_fallback (deputy : Deputy)
  (u : pystr) (srcs : list SourceTag) (others : SourceMap) :
  existing_usernames check_tiktok_exists (merge_sources deputy)
  = (u, srcs) :: others ->
  (forall e, In e ((u, srcs) :: others) ->
     (snd (check_tiktok_exists (fst e)) < 1)%Z) ->
  let result := process_deputy check_tiktok_exists analyze_tiktok_bio deputy in
  let best :=
    mkCandidate u true (snd (check_tiktok_exists u)) srcs None 0%Z 0%R in
  found result = true
  /\ result = (Some best, [best])
  /\ raw_score best = 0%Z
  /\ confidence best = 0%R.
Proof.
  intros Hex Hzero result best.
  assert (Hres : result = (Some best, [best])).
  { unfold result, process_deputy.
    destruct (merge_sources deputy) as [|e m] eqn:Hm; [discriminate Hex|].
    rewrite build_candidates_existing, Hex.
    rewrite (no_subscribers_filter _ Hzero).
    cbn [List.map].
    rewrite (candidate_of_no_subscribers (u, srcs))
      by (apply Hzero; now left).
    reflexivity. }
  repeat split; auto.
  rewrite Hres. reflexivity.
Qed.

End FallbackFacts.

Lemma zero_popularity_fallback_witness :
  process_deputy check_dupont no_bio dupont
  = (Some (mkCandidate (lit "jdupont") true 0 [twitter; variant] None 0 0%R),
     [mkCandidate (lit "jdupont") true 0 [twitter; variant] None 0 0%R]).
Proof.
  apply (@zero_popularity_fallback check_dupont no_bio dupont
           (lit "jdupont") [twitter; variant] [(lit "j.dupont", [variant])]).
  - reflexivity.
  - intros e [<-|[<-|[]]]; reflexivity.
Defined.

(* ----------------------------------------------------------------- *)
(** ** The orchestrator: the scoring branch *)

Section ScoringBranchFacts.

Lemma insert_desc_sorted (c : TikTokCandidate) (l : list TikTokCandidate) :
  sorted_desc (List.map raw_score l) = true ->
  sorted_desc (List.map raw_score (insert_desc c l)) = true.
Proof.
  induction l as [|h t IH]; [reflexivity|].
  intros Hs. cbn [insert_desc].
  destruct (raw_score h <=? raw_score c)%Z eqn:Hle.
  - cbn [List.map sorted_desc] in *. now rewrite Hle.
  - apply Z.leb_gt in Hle.
    destruct t as [|h' t'].
    + cbn. apply andb_true_intro. split; [apply Z.leb_le; lia | reflexivity].
    + cbn [List.map sorted_desc] in Hs.
      apply andb_prop in Hs. destruct Hs as [Hh Ht].
      specialize (IH Ht). cbn [insert_desc] in *.
      destruct (raw_score h' <=? raw_score c)%Z;
        cbn [List.map sorted_desc] in *;
        apply andb_true_intro; split; auto.
      apply Z.leb_le. lia.
Qed.

(** The array handed to the distributor is in descending order. *)
Lemma sort_by_score_sorted (l : list TikTokCandidate) :
  sorted_desc (List.map raw_score (sort_by_score l)) = true.
Proof.
  induction l as [|c l IH]; [reflexivity|].
  cbn [sort_by_score fold_right]. now apply insert_desc_sorted.
Qed.

Lemma insert_desc_length (c : TikTokCandidate) (l : list TikTokCandidate) :
  List.length (insert_desc c l) = S (List.length l).
Proof.
  induction l as [|h t IH]; [reflexivity|].
  cbn [insert_desc]. destruct (raw_score h <=? raw_score c)%Z; simpl; auto.
Qed.

Lemma sort_by_score_length (l : list TikTokCandidate) :
  List.length (sort_by_score l) = List.length l.
Proof.
  induction l as [|c l IH]; [reflexivity|].
  unfold sort_by_score in *. cbn [fold_right].
  rewrite insert_desc_length, IH. reflexivity.
Qed.

End ScoringBranchFacts.

Example process_dupont_ranking :
  let result := process_deputy check_dupont_subs no_bio dupont in
  List.map Candidate.username (snd result) = [lit "j.dupont"; lit "jdupont"]
  /\ List.map raw_score (snd result) = [50; 5]%Z
  /\ List.map source (snd result) = [[variant]; [twitter; variant]].
Proof. repeat split. Qed.

Example process_no_username :
  process_deputy check_dupont no_bio (mkDeputy (lit "x") [[]] [] [])
  = (None, []).
Proof. reflexivity. Qed.

(* ----------------------------------------------------------------- *)
(** ** First occurrences: [dict.fromkeys] and the keys of the merge *)

Section DedupFacts.

Lemma mem_In (u : pystr) (l : list pystr) : mem u l = true <-> In u l.
Proof.
  unfold mem. rewrite existsb_exists. split.
  - intros (x & Hx & He). apply pystr_eqb_eq in He. now subst.
  - intros H. exists u. split; [assumption | apply pystr_eqb_refl].
Qed.

Lemma filter_other_id (x : pystr) (l : list pystr) :
  ~ In x l -> filter (fun y => negb (PyStr.eqb x y)) l = l.
Proof.
  induction l as [|a l IH]; simpl; intros H; [reflexivity|].
  rewrite pystr_eqb_neq by (intros ->; apply H; now left).
  simpl. f_equal. apply IH. tauto.
Qed.

Lemma dedup_In (x : pystr) (l : list pystr) : In x (dedup l) <-> In x l.
Proof.
  induction l as [|a l IH]; simpl; [tauto|].
  rewrite filter_In, IH.
  destruct (pystr_eq_dec a x) as [->|Hne].
  - tauto.
  - rewrite pystr_eqb_neq by assumption. simpl. tauto.
Qed.

Lemma dedup_NoDup (l : list pystr) : NoDup (dedup l).
Proof.
  induction l as [|a l IH]; simpl; constructor.
  - rewrite filter_In, pystr_eqb_refl. simpl. intros [_ H]. discriminate.
  - now apply NoDup_filter.
Qed.

Lemma dedup_NoDup_id (l : list pystr) : NoDup l -> dedup l = l.
Proof.
  induction 1 as [|a l Ha Hl IH]; simpl; [reflexivity|].
  rewrite IH, filter_other_id by assumption. reflexivity.
Qed.

Lemma dedup_length (l : list pystr) :
  (List.length (dedup l) <= List.length l)%nat.
Proof.
  induction l as [|a l IH]; simpl; [lia|].
  pose proof (filter_length_le (fun y => negb (PyStr.eqb a y)) (dedup l)).
  lia.
Qed.

Lemma dedup_Forall (P : pystr -> Prop) (l : list pystr) :
  Forall P l -> Forall P (dedup l).
Proof.
  rewrite !Forall_forall. intros H x Hx. apply H. now apply dedup_In.
Qed.

(** Appending one element at the end, as [append_source] does for a new
    key. *)
Lemma dedup_snoc (l : list pystr) (a : pystr) :
  dedup (l ++ [a]) = if mem a l then dedup l else dedup l ++ [a].
Proof.
  induction l as [|x l IH]; [reflexivity|].
  cbn [app dedup]. rewrite IH.
  unfold mem. cbn [existsb].
  fold (mem a l).
  destruct (pystr_eq_dec a x) as [->|Hne].
  - rewrite pystr_eqb_refl. cbn [orb].
    destruct (mem x l) eqn:Hm; [reflexivity|].
    rewrite filter_app. cbn [filter]. rewrite pystr_eqb_refl. cbn.
    now rewrite app_nil_r.
  - rewrite (pystr_eqb_neq Hne). cbn [orb].
    destruct (mem a l); [reflexivity|].
    rewrite filter_app. cbn [filter].
    rewrite pystr_eqb_neq by congruence. reflexivity.
Qed.

Lemma keys_add_usernames (tag : SourceTag) (us seen : list pystr)
  (m : SourceMap) :
  keys m = dedup seen ->
  keys (add_usernames tag m us) = dedup (seen ++ filter truthy us).
Proof.
  revert seen m. induction us as [|a us IH]; intros seen m Hm.
  - simpl. now rewrite app_nil_r.
  - cbn [add_usernames fold_left filter].
    fold (add_usernames tag (if truthy a then append_source m a tag else m) us).
    destruct (truthy a) eqn:Ha; [|now apply IH].
    replace (seen ++ a :: filter truthy us)
      with ((seen ++ [a]) ++ filter truthy us)
      by (rewrite <- app_assoc; reflexivity).
    apply IH. rewrite dedup_snoc.
    destruct (keys_append_source m a tag) as [[Hin ->]|[Hnin ->]].
    + rewrite Hm in Hin.
      apply (proj1 (dedup_In _ _)) in Hin.
      apply (proj2 (mem_In _ _)) in Hin.
      now rewrite Hin.
    + assert (Hmem : mem a seen = false).
      { destruct (mem a seen) eqn:E; [|reflexivity].
        exfalso. apply Hnin. rewrite Hm.
        apply (proj2 (dedup_In _ _)). now apply (proj1 (mem_In _ _)). }
      now rewrite Hmem, Hm.
Qed.

Lemma keys_merge_sources (d : Deputy) :
  keys (merge_sources d) = dedup (filter truthy (all_usernames d)).
Proof.
  unfold merge_sources, all_usernames.
  rewrite !filter_app, app_assoc.
  apply keys_add_usernames. apply keys_add_usernames.
  apply (keys_add_usernames twitter (twitter_username d) [] []).
  reflexivity.
Qed.

End DedupFacts.

Lemma keys_merge_sources_In (d : Deputy) (u : pystr) :
  In u (keys (merge_sources d))
  <-> truthy u = true /\ In u (all_usernames d).
Proof.
  rewrite keys_merge_sources, dedup_In, filter_In. tauto.
Qed.

(** X1. The merged candidates come in first-seen order: their
    identifiers are the non-empty identifiers of the twitter list, then
    of the websearch list, then of the variant list, each kept at its
    first occurrence only. So an identifier is a candidate exactly when
    it is non-empty and one of the three lists has it. *)
Theorem merge_first_seen_order (d : Deputy) :
  List.map fst (merge_sources d)
  = dedup (filter truthy
             (twitter_username d ++ websearch_username d
              ++ variant_username d))
  /\ (forall u,
        In u (List.map fst (merge_sources d))
        <-> truthy u = true
            /\ (In u (twitter_username d) \/ In u (websearch_username d)
                \/ In u (variant_username d))).
Proof.
  split.
  - apply keys_merge_sources.
  - intros u.
    pose proof (keys_merge_sources_In d u) as H.
    unfold keys, all_usernames in H.
    rewrite !in_app_iff in H. exact H.
Qed.

(* ----------------------------------------------------------------- *)
(** ** Provenance as a set of sources *)

Section ProvenanceFacts.

Lemma merge_sources_provenance (d : Deputy) (u : pystr)
  (srcs : list SourceTag) :
  In (u, srcs) (merge_sources d) -> srcs = provenance d u.
Proof.
  intros Hin.
  destruct (merge_sources_well_keyed d) as [Hnd Hall].
  assert (Hu : truthy u = true).
  { rewrite Forall_forall in Hall. apply Hall.
    change u with (fst (u, srcs)). now apply in_map. }
  rewrite <- (@tags_of_In _ _ _ Hnd Hin).
  unfold merge_sources, provenance.
  rewrite !tags_of_add by assumption. simpl.
  now rewrite <- app_assoc.
Qed.

Lemma occurrences_NoDup (l : list pystr) (u : pystr) :
  NoDup l -> occurrences l u = if mem u l then 1%nat else 0%nat.
Proof.
  intros Hnd. unfold occurrences.
  destruct (mem u l) eqn:Hm.
  - apply (proj1 (mem_In _ _)) in Hm.
    pose proof (proj1 (NoDup_count_occ pystr_eq_dec l) Hnd u).
    pose proof (proj1 (count_occ_In pystr_eq_dec l u) Hm). lia.
  - apply count_occ_not_In. intros Hin.
    apply (proj2 (mem_In _ _)) in Hin. congruence.
Qed.

Lemma provenance_NoDup_lists (d : Deputy) (u : pystr) :
  NoDup (twitter_username d) -> NoDup (websearch_username d) ->
  NoDup (variant_username d) ->
  provenance d u = filter (proposed_by d u) [twitter; websearch; variant].
Proof.
  intros Ht Hw Hv. unfold provenance.
  rewrite !occurrences_NoDup by assumption.
  cbn [filter proposed_by].
  destruct (mem u (twitter_username d)), (mem u (websearch_username d)),
           (mem u (variant_username d)); reflexivity.
Qed.

Lemma filter_tags_NoDup (p : SourceTag -> bool) :
  NoDup (filter p [twitter; websearch; variant]).
Proof.
  apply NoDup_filter.
  repeat constructor; simpl; intuition discriminate.
Qed.

End ProvenanceFacts.

(** X2. When no source list repeats an identifier, the provenance of a
    candidate is the set of the sources that propose it: one tag for each
    of the lists twitter, websearch, variant that has the identifier, in
    that order, so between one and three tags and none twice. *)
Theorem provenance_is_a_set (d : Deputy) (u : pystr)
  (srcs : list SourceTag) :
  NoDup (twitter_username d) -> NoDup (websearch_username d) ->
  NoDup (variant_username d) ->
  In (u, srcs) (merge_sources d) ->
  srcs = filter (proposed_by d u) [twitter; websearch; variant]
  /\ NoDup srcs
  /\ (1 <= List.length srcs <= 3)%nat.
Proof.
  intros Ht Hw Hv Hin.
  assert (Hs : srcs = filter (proposed_by d u) [twitter; websearch; variant]).
  { rewrite (merge_sources_provenance _ _ _ Hin).
    now apply provenance_NoDup_lists. }
  split; [exact Hs|]. split.
  - rewrite Hs. apply filter_tags_NoDup.
  - assert (Hkey : In u (keys (merge_sources d))).
    { change u with (fst (u, srcs)). now apply in_map. }
    apply keys_merge_sources_In in Hkey. destruct Hkey as [_ Hu].
    unfold all_usernames in Hu. rewrite !in_app_iff in Hu.
    rewrite Hs. cbn [filter proposed_by].
    assert (Hany : mem u (twitter_username d) = true
                   \/ mem u (websearch_username d) = true
                   \/ mem u (variant_username d) = true).
    { destruct Hu as [H|[H|H]]; apply (proj2 (mem_In _ _)) in H; auto. }
    destruct (mem u (twitter_username d)), (mem u (websearch_username d)),
             (mem u (variant_username d)); simpl; try lia;
      destruct Hany as [H|[H|H]]; discriminate.
Qed.

Lemma provenance_is_a_set_witness :
  [twitter; variant]
  = filter (proposed_by dupont (lit "jdupont")) [twitter; websearch; variant].
Proof.
  apply (@provenance_is_a_set dupont (lit "jdupont") [twitter; variant]).
  - unfold dupont. cbn [twitter_username]. repeat constructor; simpl.
    + intros [H|[]]. discriminate H.
    + tauto.
  - constructor.
  - unfold dupont. cbn [variant_username]. repeat constructor; simpl.
    + intros [H|[]]. discriminate H.
    + tauto.
  - vm_compute. tauto.
Defined.

(* ----------------------------------------------------------------- *)
(** ** [part1_generate_usernames.py]: cleaning and patterns *)

Section CleanFacts.

Lemma long_enough (v : pystr) :
  truthy v && (1 <? List.length v)%nat = true <-> (2 <= List.length v)%nat.
Proof.
  destruct v as [|a [|b v]]; simpl; split; intros H;
    try discriminate; try lia; reflexivity.
Qed.

Lemma clean_source_In (l : list pystr) (v : pystr) :
  In v (clean_source l) <-> In v l /\ (2 <= List.length v)%nat.
Proof.
  unfold clean_source. rewrite dedup_In, filter_In, long_enough. tauto.
Qed.

Lemma clean_source_NoDup (l : list pystr) : NoDup (clean_source l).
Proof. apply dedup_NoDup. Qed.

Lemma filter_Forall_id (A : Type) (p : A -> bool) (l : list A) :
  Forall (fun x => p x = true) l -> filter p l = l.
Proof.
  induction 1 as [|a l Ha Hl IH]; simpl; [reflexivity|].
  now rewrite Ha, IH.
Qed.

End CleanFacts.

(** X3. The cleaning of each source list in [generate_all_usernames]
    keeps exactly the entries of two characters or more, each once, at
    its first occurrence; cleaning a cleaned list changes nothing. *)
Theorem clean_source_spec (l : list pystr) :
  NoDup (clean_source l)
  /\ (forall v, In v (clean_source l)
                <-> In v l /\ (2 <= List.length v)%nat)
  /\ clean_source l
     = dedup (filter (fun v => (2 <=? List.length v)%nat) l)
  /\ clean_source (clean_source l) = clean_source l.
Proof.
  split; [apply clean_source_NoDup|].
  split; [apply clean_source_In|]. split.
  - unfold clean_source. f_equal. apply filter_ext.
    intros v. destruct v as [|a [|b v]]; reflexivity.
  - unfold clean_source at 1.
    rewrite filter_Forall_id.
    + apply dedup_NoDup_id, clean_source_NoDup.
    + apply Forall_forall. intros v Hv.
      apply clean_source_In in Hv. now apply long_enough.
Qed.

Section PatternFacts.

Let plain := plain_char.

(** The characters of the name once its hyphens are spaces. *)
Let plain_or_space (c : codepoint) : Prop :=
  is_ascii c = true /\ is_upper c = false /\ c <> 45%N.

Lemma firstn_In (A : Type) (n : nat) (l : list A) (x : A) :
  In x (firstn n l) -> In x l.
Proof.
  intros H. rewrite <- (firstn_skipn n l). apply in_or_app. now left.
Qed.

Lemma split_from_plain (s word : pystr) :
  Forall plain_or_space s -> Forall plain word ->
  Forall (Forall plain) (split_from word s).
Proof.
  revert word. induction s as [|c s IH]; intros word Hs Hw.
  - destruct word; cbn [split_from]; repeat constructor.
    now apply Forall_rev.
  - inversion Hs as [|? ? Hc Hs']; subst. cbn [split_from].
    destruct (is_space c) eqn:Hsp.
    + destruct word.
      * apply IH; [assumption | constructor].
      * constructor; [now apply Forall_rev|].
        apply IH; [assumption | constructor].
    + apply IH; [assumption|]. constructor; [|assumption].
      destruct Hc as (Ha & Hu & Hh). repeat split; auto.
      intros ->. discriminate Hsp.
Qed.

Lemma split_from_nonempty (s word : pystr) :
  Forall (fun w => w <> []) (split_from word s).
Proof.
  revert word. induction s as [|c s IH]; intros word; cbn [split_from].
  - destruct word as [|a w]; repeat constructor.
    intros H. apply (f_equal (@List.length _)) in H.
    rewrite length_rev in H. discriminate H.
  - destruct (is_space c); [|apply IH].
    destruct word as [|a w]; [apply IH|].
    constructor; [|apply IH].
    intros H. apply (f_equal (@List.length _)) in H.
    rewrite length_rev in H. discriminate H.
Qed.

Lemma concat_plain (l : list pystr) :
  Forall (Forall plain) l -> Forall plain (List.concat l).
Proof.
  induction 1 as [|w l Hw Hl IH]; simpl; [constructor|].
  apply Forall_app. now split.
Qed.

Lemma lit_plain (s : string) :
  forallb (fun c => is_ascii c && negb (is_upper c)
                    && negb (c =? 45)%N && negb (c =? 32)%N) (lit s) = true ->
  Forall plain (lit s).
Proof.
  rewrite forallb_forall. intros H. apply Forall_forall. intros c Hc.
  specialize (H c Hc).
  apply andb_prop in H. destruct H as [H H32].
  apply andb_prop in H. destruct H as [H H45].
  apply andb_prop in H. destruct H as [Ha Hu].
  apply negb_true_iff in Hu, H45, H32.
  apply N.eqb_neq in H45, H32. repeat split; assumption.
Qed.

Variable nfkd : pystr -> pystr.

Lemma hyphens_replaced (full_name : pystr) :
  Forall plain_or_space
         (replace_char 45%N 32%N (normalize_string nfkd full_name)).
Proof.
  pose proof (normalize_string_ascii nfkd full_name) as Ha.
  pose proof (normalize_string_no_upper nfkd full_name) as Hu.
  unfold all_ascii, no_upper in *.
  rewrite Forall_forall in Ha, Hu.
  unfold replace_char. apply Forall_map, Forall_forall.
  intros c Hc. specialize (Ha c Hc). specialize (Hu c Hc).
  destruct (c =? 45)%N eqn:E.
  - repeat split; try reflexivity. discriminate.
  - apply N.eqb_neq in E. repeat split; assumption.
Qed.

Lemma generate_pattern_variants_plain (full_name : pystr) :
  Forall (Forall plain) (generate_pattern_variants nfkd full_name).
Proof.
  unfold generate_pattern_variants.
  pose proof (hyphens_replaced full_name) as Hname.
  set (name := replace_char 45%N 32%N (normalize_string nfkd full_name)) in *.
  assert (Hparts : Forall (Forall plain) (split name))
    by (apply split_from_plain; [assumption | constructor]).
  assert (Hone : Forall (Forall plain) [remove_char 32%N name]).
  { repeat constructor. unfold remove_char.
    apply Forall_forall. intros c Hc. apply filter_In in Hc.
    destruct Hc as [Hc H32]. rewrite Forall_forall in Hname.
    destruct (Hname c Hc) as (Ha & Hu & Hh).
    apply negb_true_iff, N.eqb_neq in H32. repeat split; assumption. }
  destruct (split name) as [|first [|second others]]; try exact Hone.
  inversion Hparts as [|? ? Hfirst Hrest]; subst.
  apply concat_plain in Hrest.
  set (last := List.concat (second :: others)) in *.
  assert (Hinit : Forall plain (firstn 1 first))
    by (apply Forall_forall; intros c Hc; apply firstn_In in Hc;
        rewrite Forall_forall in Hfirst; auto).
  assert (Hdot : Forall plain (lit ".")) by (apply lit_plain; reflexivity).
  assert (Hund : Forall plain (lit "_")) by (apply lit_plain; reflexivity).
  assert (Hoff : Forall plain (lit "_officiel"))
    by (apply lit_plain; reflexivity).
  apply dedup_Forall.
  repeat match goal with
         | |- Forall _ (_ :: _) => apply Forall_cons
         | |- Forall _ [] => apply Forall_nil
         | |- Forall _ (_ ++ _) => apply Forall_app; split
         end; assumption.
Qed.

Lemma generate_pattern_variants_count (full_name : pystr) :
  (1 <= List.length (generate_pattern_variants nfkd full_name) <= 9)%nat.
Proof.
  unfold generate_pattern_variants.
  destruct (split _) as [|first [|second others]]; try (simpl; lia).
  match goal with |- context [dedup ?l] =>
    pose proof (dedup_length l) as H; cbn [List.length] in H end.
  split; [|exact H]. cbn [dedup List.length]. lia.
Qed.

End PatternFacts.

Section PatternLengths.

Variable nfkd : pystr -> pystr.

Lemma generate_pattern_variants_long (full_name : pystr) :
  (2 <= List.length
          (split (replace_char 45%N 32%N (normalize_string nfkd full_name))))%nat ->
  Forall (fun v => (2 <= List.length v)%nat)
         (generate_pattern_variants nfkd full_name).
Proof.
  unfold generate_pattern_variants.
  pose proof (split_from_nonempty
                (replace_char 45%N 32%N (normalize_string nfkd full_name)) [])
    as Hne.
  fold (split (replace_char 45%N 32%N (normalize_string nfkd full_name)))
    in Hne.
  destruct (split _) as [|first [|second others]]; cbn [List.length];
    intros Hlen; try lia.
  inversion Hne as [|? ? Hfirst Hrest]; subst.
  inversion Hrest as [|? ? Hsecond _]; subst.
  assert (H1 : (1 <= List.length first)%nat)
    by (destruct first; [congruence | simpl; lia]).
  assert (H2 : (1 <= List.length (List.concat (second :: others)))%nat).
  { cbn [List.concat]. rewrite length_app.
    destruct second; [congruence | simpl; lia]. }
  assert (H3 : List.length (firstn 1 first) = 1%nat)
    by (rewrite length_firstn; lia).
  set (last := List.concat (second :: others)) in *.
  apply dedup_Forall.
  repeat match goal with
         | |- Forall _ (_ :: _) => apply Forall_cons
         | |- Forall _ [] => apply Forall_nil
         end;
    rewrite ?length_app; lia.
Qed.

End PatternLengths.

(** X4. The patterns generated from a name are between one and nine,
    without repetition, and made of lower-case ASCII characters other
    than the space and the hyphen; when the normalized name has two
    words or more, every pattern has at least two characters. *)
Theorem pattern_variants_well_formed (nfkd : pystr -> pystr)
  (full_name : pystr) :
  let variants := generate_pattern_variants nfkd full_name in
  let name := replace_char 45%N 32%N (normalize_string nfkd full_name) in
  NoDup variants
  /\ (1 <= List.length variants <= 9)%nat
  /\ (forall v c, In v variants -> In c v -> plain_char c)
  /\ ((2 <= List.length (split name))%nat ->
      forall v, In v variants -> (2 <= List.length v)%nat).
Proof.
  cbn zeta. split; [|split; [|split]].
  - unfold generate_pattern_variants.
    destruct (split _) as [|first [|second others]];
      try (repeat constructor; simpl; tauto).
    apply dedup_NoDup.
  - apply generate_pattern_variants_count.
  - intros v c Hv Hc.
    pose proof (generate_pattern_variants_plain nfkd full_name) as H.
    rewrite Forall_forall in H. specialize (H v Hv).
    rewrite Forall_forall in H. now apply H.
  - intros Hlen v Hv.
    pose proof (generate_pattern_variants_long nfkd full_name Hlen) as H.
    rewrite Forall_forall in H. now apply H.
Qed.

Lemma pattern_variants_well_formed_witness :
  (2 <= List.length (lit "jean.emiledupont"))%nat.
Proof.
  apply (pattern_variants_well_formed nfkd_latin1 jean_emile_dupont).
  - vm_compute. lia.
  - vm_compute. tauto.
Defined.

(** X5. The entry [generate_all_usernames] produces for a deputy has
    three lists without repetition whose identifiers all have two
    characters or more, the pattern list being plain lower-case ASCII;
    without web search the websearch list is empty. Merged by
    [process_deputy], such an entry gives every candidate the set of the
    sources that propose it as provenance. *)
Theorem generated_entry_well_formed (nfkd : pystr -> pystr)
  (name : pystr) (twitter_variants searched : list pystr)
  (use_web_search : bool) :
  let d :=
    generate_all_usernames nfkd name twitter_variants searched use_web_search in
  NoDup (twitter_username d) /\ NoDup (websearch_username d)
  /\ NoDup (variant_username d)
  /\ (forall u, In u (all_usernames d) -> (2 <= List.length u)%nat)
  /\ (forall u c, In u (variant_username d) -> In c u -> plain_char c)
  /\ websearch_username
       (generate_all_usernames nfkd name twitter_variants searched false) = []
  /\ (forall u srcs, In (u, srcs) (merge_sources d) ->
        srcs = filter (proposed_by d u) [twitter; websearch; variant]).
Proof.
  cbn zeta. unfold generate_all_usernames.
  cbn [twitter_username websearch_username variant_username].
  split; [apply clean_source_NoDup|].
  split; [apply clean_source_NoDup|].
  split; [apply clean_source_NoDup|].
  split; [|split; [|split; [reflexivity|]]].
  - intros u Hu. unfold all_usernames in Hu.
    cbn [twitter_username websearch_username variant_username] in Hu.
    rewrite !in_app_iff in Hu.
    destruct Hu as [H|[H|H]]; apply clean_source_In in H; tauto.
  - intros u c Hu Hc. apply clean_source_In in Hu. destruct Hu as [Hu _].
    pose proof (generate_pattern_variants_plain nfkd name) as H.
    rewrite Forall_forall in H. specialize (H u Hu).
    rewrite Forall_forall in H. now apply H.
  - intros u srcs Hin.
    rewrite (merge_sources_provenance _ _ _ Hin).
    apply provenance_NoDup_lists; apply clean_source_NoDup.
Qed.

Lemma generated_entry_well_formed_witness :
  [twitter; variant]
  = filter
      (proposed_by
         (generate_all_usernames nfkd_latin1 jean_emile_dupont
            [lit "jeanemiledupont"; lit "JeanEmile"; lit "j"] [] false)
         (lit "jeanemiledupont"))
      [twitter; websearch; variant].
Proof.
  apply (generated_entry_well_formed nfkd_latin1 jean_emile_dupont
           [lit "jeanemiledupont"; lit "JeanEmile"; lit "j"] [] false).
  vm_compute. tauto.
Defined.

(* ----------------------------------------------------------------- *)
(** ** The sort of the scoring branch *)

Section SortFacts.

Lemma insert_desc_perm (c : TikTokCandidate) (l : list TikTokCandidate) :
  Permutation (insert_desc c l) (c :: l).
Proof.
  induction l as [|h t IH]; cbn [insert_desc]; [reflexivity|].
  destruct (raw_score h <=? raw_score c)%Z; [reflexivity|].
  rewrite IH. apply perm_swap.
Qed.

Lemma sort_by_score_perm (l : list TikTokCandidate) :
  Permutation (sort_by_score l) l.
Proof.
  induction l as [|c l IH]; [reflexivity|].
  unfold sort_by_score in *. cbn [fold_right].
  rewrite insert_desc_perm. now constructor.
Qed.

Lemma insert_desc_with_score (k : Z) (c : TikTokCandidate)
  (l : list TikTokCandidate) :
  with_score k (insert_desc c l) = with_score k (c :: l).
Proof.
  unfold with_score.
  induction l as [|h t IH]; cbn [insert_desc]; [reflexivity|].
  destruct (raw_score h <=? raw_score c)%Z eqn:Hle; [reflexivity|].
  apply Z.leb_gt in Hle.
  cbn [filter] in *. rewrite IH.
  destruct (raw_score c =? k)%Z eqn:Hc, (raw_score h =? k)%Z eqn:Hh;
    try reflexivity.
  apply Z.eqb_eq in Hc, Hh. lia.
Qed.

Lemma sort_by_score_with_score (k : Z) (l : list TikTokCandidate) :
  with_score k (sort_by_score l) = with_score k l.
Proof.
  induction l as [|c l IH]; [reflexivity|].
  unfold sort_by_score in *. cbn [fold_right].
  rewrite insert_desc_with_score.
  unfold with_score in *. cbn [filter]. now rewrite IH.
Qed.

Lemma sorted_desc_head_max (a : Z) (t : list Z) :
  sorted_desc (a :: t) = true -> Forall (fun x => (x <= a)%Z) t.
Proof.
  revert a. induction t as [|b t IH]; intros a H; [constructor|].
  cbn [sorted_desc] in H. apply andb_prop in H. destruct H as [Hba Ht].
  apply Z.leb_le in Hba.
  constructor; [assumption|].
  specialize (IH b Ht). revert IH. apply Forall_impl. intros x Hx. lia.
Qed.

(** The head of the sorted list has the highest score and is, among the
    candidates with that score, the first of the unsorted list. *)
Lemma sort_by_score_head (l : list TikTokCandidate) (h : TikTokCandidate)
  (t : list TikTokCandidate) :
  sort_by_score l = h :: t ->
  (forall c, In c l -> (raw_score c <= raw_score h)%Z)
  /\ hd_error (with_score (raw_score h) l) = Some h.
Proof.
  intros Hs. split.
  - intros c Hc.
    apply (Permutation_in _ (Permutation_sym (sort_by_score_perm l))) in Hc.
    rewrite Hs in Hc. destruct Hc as [<-|Hc]; [lia|].
    pose proof (sort_by_score_sorted l) as Hsorted.
    rewrite Hs in Hsorted. cbn [List.map] in Hsorted.
    apply sorted_desc_head_max in Hsorted.
    rewrite Forall_forall in Hsorted.
    apply Hsorted. now apply in_map.
  - rewrite <- sort_by_score_with_score, Hs.
    unfold with_score. cbn [filter]. now rewrite Z.eqb_refl.
Qed.

End SortFacts.

(** X6. The sort of the scoring branch rearranges the candidates without
    losing or adding any, puts the raw scores in descending order, and is
    stable: the candidates of any given raw score come out in the order
    they went in. *)
Theorem sort_by_score_stable (l : list TikTokCandidate) :
  Permutation (sort_by_score l) l
  /\ sorted_desc (List.map raw_score (sort_by_score l)) = true
  /\ (forall k, with_score k (sort_by_score l) = with_score k l).
Proof.
  split; [apply sort_by_score_perm|].
  split; [apply sort_by_score_sorted|].
  intros k. apply sort_by_score_with_score.
Qed.

(* ----------------------------------------------------------------- *)
(** ** The orchestrator: what [process_deputy] returns *)

Section RankingFacts.

Variable check_tiktok_exists : pystr -> bool * Z.
Variable analyze_tiktok_bio : pystr -> option BioAnalysis.

Let run := process_deputy check_tiktok_exists analyze_tiktok_bio.
Let all := candidates check_tiktok_exists analyze_tiktok_bio.
Let with_subs := candidates_with_subs check_tiktok_exists analyze_tiktok_bio.
Let scored_of := scored check_tiktok_exists analyze_tiktok_bio.
Let ranked_of := ranked check_tiktok_exists analyze_tiktok_bio.

Lemma process_deputy_cases (d : Deputy) :
  run d
  = match all d with
    | [] => (None, [])
    | first :: _ =>
        match with_subs d with
        | [] => (Some first, [first])
        | _ :: _ => (hd_error (ranked_of d), firstn 3 (ranked_of d))
        end
    end.
Proof.
  unfold run, all, with_subs, ranked_of, process_deputy, ranked, scored,
    candidates_with_subs, candidates.
  destruct (merge_sources d) as [|e m]; [reflexivity|].
  destruct (build_candidates _ _ (e :: m)) as [|first rest]; [reflexivity|].
  destruct (filter _ (first :: rest)); reflexivity.
Qed.

Lemma candidates_existing (d : Deputy) :
  all d
  = List.map (candidate_of check_tiktok_exists analyze_tiktok_bio)
             (existing_usernames check_tiktok_exists (merge_sources d)).
Proof. apply build_candidates_existing. Qed.

Lemma In_candidates (d : Deputy) (c : TikTokCandidate) :
  In c (all d) ->
  exists_ c = true
  /\ In (Candidate.username c, source c) (merge_sources d)
  /\ check_tiktok_exists (Candidate.username c) = (true, subscribers c)
  /\ raw_score c = 0%Z /\ confidence c = 0%R.
Proof.
  rewrite candidates_existing, in_map_iff.
  intros ([u srcs] & <- & He).
  unfold existing_usernames in He. apply filter_In in He.
  destruct He as [He Hex]. cbn [fst] in Hex.
  unfold candidate_of, new_candidate.
  cbn [exists_ Candidate.username source subscribers raw_score confidence
       fst snd].
  repeat split; try assumption.
  destruct (check_tiktok_exists u) as [ex subs]. cbn in *. now subst.
Qed.

Lemma In_with_subs (d : Deputy) (c : TikTokCandidate) :
  In c (with_subs d) <-> In c (all d) /\ (1 <= subscribers c)%Z.
Proof.
  unfold with_subs, candidates_with_subs. fold (all d).
  rewrite filter_In, Z.geb_leb, Z.leb_le. tauto.
Qed.

Lemma assign_keeps (A : Type) (g : TikTokCandidate -> A)
  (l : list TikTokCandidate) (xs : list R) :
  (forall c x, g (set_confidence c x) = g c) ->
  List.length l = List.length xs ->
  List.map g (List.map (fun '(c, x) => set_confidence c x) (combine l xs))
  = List.map g l.
Proof.
  intros Hg. revert xs.
  induction l as [|c l IH]; intros [|x xs] Hlen; try discriminate;
    [reflexivity|].
  cbn [combine List.map]. rewrite Hg. f_equal. apply IH.
  now injection Hlen.
Qed.

Lemma assign_confidence (l : list TikTokCandidate) (xs : list R) :
  List.length l = List.length xs ->
  List.map confidence
           (List.map (fun '(c, x) => set_confidence c x) (combine l xs))
  = xs.
Proof.
  revert xs.
  induction l as [|c l IH]; intros [|x xs] Hlen; try discriminate;
    [reflexivity|].
  cbn [combine List.map set_confidence confidence]. f_equal. apply IH.
  now injection Hlen.
Qed.

Lemma scores_length (l : list TikTokCandidate) :
  List.length l
  = List.length (calculate_confidence (List.map raw_score l)).
Proof. now rewrite calculate_confidence_length, length_map. Qed.

Lemma ranked_keeps (A : Type) (g : TikTokCandidate -> A) (d : Deputy) :
  (forall c x, g (set_confidence c x) = g c) ->
  List.map g (ranked_of d) = List.map g (sort_by_score (scored_of d)).
Proof.
  intros Hg. unfold ranked_of, ranked. fold (scored_of d).
  apply assign_keeps; [assumption | apply scores_length].
Qed.

Lemma ranked_confidence (d : Deputy) :
  List.map confidence (ranked_of d)
  = calculate_confidence (List.map raw_score (sort_by_score (scored_of d))).
Proof.
  unfold ranked_of, ranked. fold (scored_of d).
  apply assign_confidence, scores_length.
Qed.

Lemma ranked_length (d : Deputy) :
  List.length (ranked_of d) = List.length (with_subs d).
Proof.
  rewrite <- (length_map raw_score (ranked_of d)).
  rewrite (ranked_keeps raw_score) by reflexivity.
  rewrite length_map, sort_by_score_length.
  unfold scored_of, scored. now rewrite length_map.
Qed.

Lemma ranked_In (d : Deputy) (c : TikTokCandidate) :
  In c (ranked_of d) ->
  exists c0 x,
    In c0 (with_subs d)
    /\ c = set_confidence (set_raw_score c0 (calculate_raw_score c0)) x.
Proof.
  unfold ranked_of, ranked. fold (scored_of d).
  rewrite in_map_iff. intros ([c1 x] & <- & Hin).
  apply in_combine_l in Hin.
  apply (Permutation_in _ (sort_by_score_perm _)) in Hin.
  unfold scored_of, scored in Hin. apply in_map_iff in Hin.
  destruct Hin as (c0 & <- & Hc0). now exists c0, x.
Qed.

Lemma hd_error_firstn (A : Type) (n : nat) (l : list A) :
  hd_error (firstn (S n) l) = hd_error l.
Proof. destruct l; reflexivity. Qed.

Lemma existing_nonempty (d : Deputy) :
  all d <> []
  <-> exists u, In u (all_usernames d) /\ truthy u = true
                /\ fst (check_tiktok_exists u) = true.
Proof.
  rewrite candidates_existing. split.
  - intros H.
    destruct (existing_usernames _ _) as [|[u srcs] rest] eqn:He;
      [now elim H|].
    assert (Hin : In (u, srcs) (existing_usernames check_tiktok_exists
                                  (merge_sources d)))
      by (rewrite He; now left).
    unfold existing_usernames in Hin. apply filter_In in Hin.
    destruct Hin as [Hin Hex]. cbn [fst] in Hex.
    assert (Hkey : In u (keys (merge_sources d)))
      by (change u with (fst (u, srcs)); now apply in_map).
    apply keys_merge_sources_In in Hkey.
    exists u. tauto.
  - intros (u & Hu & Ht & Hex) Hnil.
    assert (Hkey : In u (keys (merge_sources d)))
      by (apply keys_merge_sources_In; tauto).
    unfold keys in Hkey. apply in_map_iff in Hkey.
    destruct Hkey as ([u' srcs] & Heq & Hin). cbn in Heq. subst u'.
    assert (He : In (u, srcs) (existing_usernames check_tiktok_exists
                                 (merge_sources d)))
      by (unfold existing_usernames; apply filter_In; split; assumption).
    apply (in_map (candidate_of check_tiktok_exists analyze_tiktok_bio)) in He.
    rewrite Hnil in He. exact He.
Qed.

(** X7. Whatever the input and the answers of the network, the best
    candidate is the head of the shortlist (both are absent together),
    the shortlist has at most three candidates, and the deputy is
    reported as found exactly when one of the three lists has a non-empty
    identifier whose account exists. *)
Theorem process_deputy_result_shape (d : Deputy) :
  let r := process_deputy check_tiktok_exists analyze_tiktok_bio d in
  fst r = hd_error (snd r)
  /\ (List.length (snd r) <= 3)%nat
  /\ (found r = true
      <-> exists u, In u (all_usernames d) /\ truthy u = true
                    /\ fst (check_tiktok_exists u) = true)
  /\ (found r = false <-> r = (None, [])).
Proof.
  cbn zeta. fold (run d).
  pose proof (existing_nonempty d) as Hex.
  rewrite process_deputy_cases.
  destruct (all d) as [|first rest] eqn:Hall.
  - cbn. repeat split; try lia; try discriminate; auto.
    intros H. exfalso. apply Hex in H. now apply H.
  - assert (Hsome : exists u, In u (all_usernames d) /\ truthy u = true
                              /\ fst (check_tiktok_exists u) = true)
      by (apply Hex; discriminate).
    destruct (with_subs d) as [|c cs] eqn:Hsubs.
    + cbn. repeat split; try lia; try discriminate; auto.
    + assert (Hr : ranked_of d <> []).
      { intros H. apply (f_equal (@List.length _)) in H.
        rewrite ranked_length, Hsubs in H. discriminate H. }
      cbn [fst snd]. rewrite hd_error_firstn.
      destruct (ranked_of d) as [|b bs]; [now elim Hr|].
      unfold found. cbn [fst hd_error].
      repeat split; auto; try discriminate.
      pose proof (firstn_le_length 3 (b :: bs)). lia.
Qed.

Lemma NoDup_map_filter (A B : Type) (f : A -> B) (p : A -> bool)
  (l : list A) :
  NoDup (List.map f l) -> NoDup (List.map f (filter p l)).
Proof.
  induction l as [|a l IH]; cbn [List.map filter]; intros H; [constructor|].
  inversion H as [|? ? Ha Hl]; subst.
  destruct (p a); cbn [List.map]; [|now apply IH].
  constructor; [|now apply IH].
  intros Hin. apply Ha. apply in_map_iff in Hin.
  destruct Hin as (x & Hx & Hin). apply filter_In in Hin.
  rewrite <- Hx. apply in_map. tauto.
Qed.

Lemma NoDup_firstn (A : Type) (n : nat) (l : list A) :
  NoDup l -> NoDup (firstn n l).
Proof.
  intros H. rewrite <- (firstn_skipn n l) in H.
  now apply NoDup_app_remove_r in H.
Qed.

Lemma sorted_desc_firstn (n : nat) (l : list Z) :
  sorted_desc l = true -> sorted_desc (firstn n l) = true.
Proof.
  revert n. induction l as [|a l IH]; intros [|n] H; try reflexivity.
  cbn [firstn]. specialize (IH n).
  destruct l as [|b l]; [destruct n; reflexivity|].
  cbn [sorted_desc] in H. apply andb_prop in H. destruct H as [Hba Hl].
  destruct n as [|n]; [reflexivity|].
  cbn [firstn sorted_desc] in *. rewrite Hba. cbn [andb]. now apply IH.
Qed.

Lemma with_subs_usernames_NoDup (d : Deputy) :
  NoDup (List.map Candidate.username (with_subs d)).
Proof.
  unfold with_subs, candidates_with_subs. fold (all d).
  apply NoDup_map_filter. rewrite candidates_existing, map_map.
  cbn [candidate_of new_candidate Candidate.username].
  unfold existing_usernames. apply NoDup_map_filter.
  apply merge_sources_well_keyed.
Qed.

Lemma scored_keeps (A : Type) (g : TikTokCandidate -> A) (d : Deputy) :
  (forall c s, g (set_raw_score c s) = g c) ->
  List.map g (scored_of d) = List.map g (with_subs d).
Proof.
  intros Hg. unfold scored_of, scored. fold (with_subs d).
  rewrite map_map. apply map_ext. intros c. apply Hg.
Qed.

Lemma scoring_branch (d : Deputy) :
  with_subs d <> [] ->
  run d = (hd_error (ranked_of d), firstn 3 (ranked_of d)).
Proof.
  intros H. rewrite process_deputy_cases.
  destruct (with_subs d) as [|c cs] eqn:Hs; [now elim H|].
  destruct (all d) as [|first rest] eqn:Ha; [|reflexivity].
  exfalso. assert (Hin : In c (with_subs d)) by (rewrite Hs; now left).
  apply In_with_subs in Hin. rewrite Ha in Hin. tauto.
Qed.

(** X8. When some existing identifier has a subscriber, the shortlist
    holds three of the existing candidates with subscribers (all of them
    when there are fewer), in descending order of raw score and with
    distinct identifiers. Each of them exists, has at least one subscriber, carries
    the raw score the scorer gives it, and has the identifier and the
    provenance of a merged entry: an existing account without subscribers
    is never shortlisted here. *)
Theorem scoring_branch_shortlist (d : Deputy) :
  candidates_with_subs check_tiktok_exists analyze_tiktok_bio d <> [] ->
  let shortlist :=
    snd (process_deputy check_tiktok_exists analyze_tiktok_bio d) in
  List.length shortlist
  = Nat.min 3 (List.length
                 (candidates_with_subs check_tiktok_exists
                    analyze_tiktok_bio d))
  /\ sorted_desc (List.map raw_score shortlist) = true
  /\ NoDup (List.map Candidate.username shortlist)
  /\ (forall c, In c shortlist ->
        (1 <= subscribers c)%Z
        /\ exists_ c = true
        /\ raw_score c = calculate_raw_score c
        /\ In (Candidate.username c, source c) (merge_sources d)
        /\ check_tiktok_exists (Candidate.username c)
           = (true, subscribers c)).
Proof.
  intros Hsubs. fold (with_subs d) in *. fold (run d).
  rewrite (scoring_branch d Hsubs). cbn [snd].
  split; [|split; [|split]].
  - now rewrite length_firstn, ranked_length.
  - rewrite <- firstn_map, (ranked_keeps raw_score) by reflexivity.
    apply sorted_desc_firstn, sort_by_score_sorted.
  - rewrite <- firstn_map. apply NoDup_firstn.
    rewrite (ranked_keeps Candidate.username) by reflexivity.
    apply (Permutation_NoDup
             (Permutation_map _ (Permutation_sym (sort_by_score_perm _)))).
    rewrite (scored_keeps Candidate.username) by reflexivity.
    apply with_subs_usernames_NoDup.
  - intros c Hc. apply firstn_In in Hc. apply ranked_In in Hc.
    destruct Hc as (c0 & x & Hc0 & ->).
    apply In_with_subs in Hc0. destruct Hc0 as [Hc0 Hpos].
    apply In_candidates in Hc0.
    destruct Hc0 as (Hex & Hm & Hcheck & _ & _).
    cbn [set_confidence set_raw_score subscribers exists_ raw_score
         Candidate.username source].
    repeat split; assumption.
Qed.

Lemma with_score_scored (k : Z) (l : list TikTokCandidate) :
  with_score k
    (List.map (fun c => set_raw_score c (calculate_raw_score c)) l)
  = List.map (fun c => set_raw_score c (calculate_raw_score c))
             (filter (fun c => (calculate_raw_score c =? k)%Z) l).
Proof.
  unfold with_score.
  induction l as [|c l IH]; [reflexivity|].
  cbn [List.map filter set_raw_score raw_score]. rewrite IH.
  destruct (calculate_raw_score c =? k)%Z; reflexivity.
Qed.

Lemma ranked_head (d : Deputy) (b : TikTokCandidate)
  (bs : list TikTokCandidate) :
  ranked_of d = b :: bs ->
  exists h t x,
    sort_by_score (scored_of d) = h :: t /\ b = set_confidence h x.
Proof.
  unfold ranked_of, ranked. fold (scored_of d).
  destruct (sort_by_score (scored_of d)) as [|h t]; [discriminate|].
  destruct (calculate_confidence _) as [|x xs]; [discriminate|].
  cbn [combine List.map]. intros H. injection H as <- _.
  now exists h, t, x.
Qed.

(** X9. When some existing identifier has a subscriber, the best
    candidate is one of highest raw score among the existing candidates
    with subscribers and, of those with that score, the first in merge
    order: ties go to the twitter list, then websearch, then variant,
    and within a list to the identifier listed first. *)
Theorem best_candidate_choice (d : Deputy) :
  candidates_with_subs check_tiktok_exists analyze_tiktok_bio d <> [] ->
  let pool := candidates_with_subs check_tiktok_exists analyze_tiktok_bio d in
  exists c0 x,
    fst (process_deputy check_tiktok_exists analyze_tiktok_bio d)
    = Some (set_confidence (set_raw_score c0 (calculate_raw_score c0)) x)
    /\ (forall c, In c pool ->
          (calculate_raw_score c <= calculate_raw_score c0)%Z)
    /\ hd_error
         (filter (fun c => (calculate_raw_score c
                            =? calculate_raw_score c0)%Z) pool)
       = Some c0.
Proof.
  intros Hsubs. cbn zeta. fold (with_subs d) in *. fold (run d).
  rewrite (scoring_branch d Hsubs). cbn [fst].
  destruct (ranked_of d) as [|b bs] eqn:Hr.
  { apply (f_equal (@List.length _)) in Hr. rewrite ranked_length in Hr.
    destruct (with_subs d); [now elim Hsubs | discriminate Hr]. }
  destruct (ranked_head d Hr) as (h & t & x & Hsort & ->).
  destruct (sort_by_score_head _ Hsort) as [Hmax Hfirst].
  unfold scored_of, scored in Hmax, Hfirst. fold (with_subs d) in Hmax, Hfirst.
  rewrite with_score_scored in Hfirst.
  destruct (filter _ (with_subs d)) as [|c0 rest] eqn:Hf; [discriminate|].
  cbn [List.map hd_error] in Hfirst. injection Hfirst as <-.
  exists c0, x. cbn [hd_error].
  split; [reflexivity|].
  cbn [set_raw_score raw_score] in Hf, Hmax.
  split; [|now rewrite Hf].
  intros c Hc.
  specialize (Hmax (set_raw_score c (calculate_raw_score c))).
  cbn [set_raw_score raw_score] in Hmax. apply Hmax.
  now apply (in_map (fun c => set_raw_score c (calculate_raw_score c))).
Qed.

Lemma sum_firstn (n : nat) (l : list R) :
  Forall (fun x => (0 <= x)%R) l -> (sum (firstn n l) <= sum l)%R.
Proof.
  revert n. induction l as [|a l IH]; intros [|n] H; cbn [firstn sum fold_right];
    try lra.
  - inversion H as [|? ? Ha Hl]; subst.
    specialize (IH 0%nat Hl). cbn [firstn sum fold_right] in IH.
    fold (sum l). lra.
  - inversion H as [|? ? Ha Hl]; subst.
    specialize (IH n Hl). fold (sum (firstn n l)). fold (sum l). lra.
Qed.

(** The distributor on an array in descending order. *)
Lemma calculate_confidence_sorted (scores : list Z) :
  sorted_desc scores = true ->
  Forall (fun x => (0 <= x <= 1)%R) (calculate_confidence scores)
  /\ (sum (calculate_confidence scores) <= 1)%R
  /\ (forall x, hd_error (calculate_confidence scores) = Some x ->
        (0.25 <= x < 0.95)%R)
  /\ (forall i j, (1 <= i < List.length scores)%nat ->
        (1 <= j < List.length scores)%nat ->
        nth i (calculate_confidence scores) 0%R
        = nth j (calculate_confidence scores) 0%R).
Proof.
  intros Hsorted. destruct scores as [|a [|b t]].
  - cbn [calculate_confidence sum fold_right hd_error List.length].
    split; [constructor|]. split; [lra|]. split.
    + intros x Hx. discriminate Hx.
    + intros i j Hi. lia.
  - cbn [calculate_confidence sum fold_right hd_error List.length].
    pose proof (single_confidence_range a).
    split; [constructor; [lra | constructor]|]. split; [lra|]. split.
    + intros x Hx. injection Hx as <-. lra.
    + intros i j Hi. lia.
  - pose proof (top_of_range (sorted_desc_head _ _ _ Hsorted)) as [Hlo Hhi].
    pose proof (confidence_sum_general a b t) as Hsum.
    rewrite calculate_confidence_many in *.
    set (top := top_of a b) in *.
    set (k := S (List.length t)) in *.
    assert (Hk : (1 <= INR k)%R).
    { replace 1%R with (INR 1) by reflexivity. apply le_INR. unfold k. lia. }
    assert (Hshare : (0 <= (1 - top) / INR k <= 1)%R).
    { split.
      - unfold Rdiv. apply Rmult_le_pos; [lra|].
        left. apply Rinv_0_lt_compat. lra.
      - apply (Rmult_le_reg_r (INR k)); [lra|]. cancel_div. lra. }
    split; [|split; [lra|split]].
    + constructor; [lra|]. apply Forall_forall. intros x Hx.
      apply repeat_spec in Hx. now subst.
    + cbn [hd_error]. intros x Hx. injection Hx as <-. lra.
    + cbn [List.length]. intros [|i] [|j] Hi Hj; try lia.
      cbn [nth]. fold k in Hi, Hj.
      rewrite !nth_repeat_lt by lia. reflexivity.
Qed.

(** X10. When some existing identifier has a subscriber, the shortlisted
    candidates carry the first three values the distributor returns for
    the descending array of all raw scores: each lies between 0 and 1,
    they add up to at most 1, the best candidate's confidence is at least
    0.25 and below 0.95, and every other shortlisted candidate gets one
    and the same confidence. Floats are read as real numbers. *)
Theorem shortlist_confidences (d : Deputy) :
  candidates_with_subs check_tiktok_exists analyze_tiktok_bio d <> [] ->
  let r := process_deputy check_tiktok_exists analyze_tiktok_bio d in
  let scores :=
    List.map raw_score
      (sort_by_score (scored check_tiktok_exists analyze_tiktok_bio d)) in
  List.map confidence (snd r) = firstn 3 (calculate_confidence scores)
  /\ sorted_desc scores = true
  /\ Forall (fun x => (0 <= x <= 1)%R) (List.map confidence (snd r))
  /\ (sum (List.map confidence (snd r)) <= 1)%R
  /\ (forall b, fst r = Some b -> (0.25 <= confidence b < 0.95)%R)
  /\ (forall i j, (1 <= i < List.length (snd r))%nat ->
        (1 <= j < List.length (snd r))%nat ->
        nth i (List.map confidence (snd r)) 0%R
        = nth j (List.map confidence (snd r)) 0%R).
Proof.
  intros Hsubs. cbn zeta. fold (with_subs d) in *. fold (run d).
  fold (scored_of d).
  rewrite (scoring_branch d Hsubs). cbn [fst snd].
  pose proof (sort_by_score_sorted (scored_of d)) as Hsorted.
  destruct (calculate_confidence_sorted _ Hsorted)
    as (Hunit & Hsum & Hhead & Hsame).
  assert (Hconf : List.map confidence (firstn 3 (ranked_of d))
                  = firstn 3 (calculate_confidence
                                (List.map raw_score
                                   (sort_by_score (scored_of d)))))
    by (rewrite <- firstn_map; f_equal; apply ranked_confidence).
  rewrite Hconf.
  set (confs := calculate_confidence _) in *.
  split; [reflexivity|]. split; [exact Hsorted|].
  split; [|split; [|split]].
  - apply Forall_forall. intros x Hx. apply firstn_In in Hx.
    rewrite Forall_forall in Hunit. now apply Hunit.
  - apply Rle_trans with (sum confs); [|exact Hsum].
    apply sum_firstn. revert Hunit. apply Forall_impl. intros x Hx. lra.
  - intros b Hb. apply Hhead. unfold confs.
    rewrite <- (ranked_confidence d).
    destruct (ranked_of d) as [|b' bs]; [discriminate|].
    cbn [hd_error List.map] in *. now injection Hb as ->.
  - intros i j Hi Hj.
    rewrite length_firstn, ranked_length in Hi, Hj.
    assert (Hlen : List.length (List.map raw_score
                                  (sort_by_score (scored_of d)))
                   = List.length (with_subs d)).
    { rewrite length_map, sort_by_score_length.
      unfold scored_of, scored. now rewrite length_map. }
    rewrite !nth_firstn.
    replace (i <? 3)%nat with true by (symmetry; apply Nat.ltb_lt; lia).
    replace (j <? 3)%nat with true by (symmetry; apply Nat.ltb_lt; lia).
    apply Hsame; rewrite Hlen; lia.
Qed.

End RankingFacts.

Lemma dupont_has_subscribers :
  candidates_with_subs check_dupont_subs no_bio dupont <> [].
Proof. vm_compute. discriminate. Qed.

Lemma scoring_branch_shortlist_witness :
  List.length (snd (process_deputy check_dupont_subs no_bio dupont))
  = Nat.min 3 (List.length
                 (candidates_with_subs check_dupont_subs no_bio dupont)).
Proof.
  apply (@scoring_branch_shortlist check_dupont_subs no_bio dupont).
  apply dupont_has_subscribers.
Defined.

Lemma best_candidate_choice_witness :
  exists c0 x,
    fst (process_deputy check_dupont_subs no_bio dupont)
    = Some (set_confidence (set_raw_score c0 (calculate_raw_score c0)) x)
    /\ (forall c, In c (candidates_with_subs check_dupont_subs no_bio dupont) ->
          (calculate_raw_score c <= calculate_raw_score c0)%Z)
    /\ hd_error
         (filter (fun c => (calculate_raw_score c
                            =? calculate_raw_score c0)%Z)
                 (candidates_with_subs check_dupont_subs no_bio dupont))
       = Some c0.
Proof.
  apply (@best_candidate_choice check_dupont_subs no_bio dupont).
  apply dupont_has_subscribers.
Defined.

Lemma shortlist_confidences_witness :
  (sum (List.map confidence
          (snd (process_deputy check_dupont_subs no_bio dupont))) <= 1)%R.
Proof.
  apply (@shortlist_confidences check_dupont_subs no_bio dupont).
  apply dupont_has_subscribers.
Defined.

(* ----------------------------------------------------------------- *)
(** ** The keyword classifier: substrings and first match *)

Section SubstringFacts.

Lemma starts_with_spec (p s : pystr) :
  starts_with p s = true <-> exists rest, s = p ++ rest.
Proof.
  revert s. induction p as [|a p IH]; intros s; cbn [starts_with].
  - split; [intros _; now exists s | reflexivity].
  - destruct s as [|b s].
    + split; [discriminate | intros [rest H]; discriminate H].
    + rewrite andb_true_iff, N.eqb_eq, IH. split.
      * intros [-> [rest ->]]. now exists rest.
      * intros [rest H]. injection H as -> ->. split; [reflexivity|].
        now exists rest.
Qed.

Lemma contains_spec (s kw : pystr) :
  contains s kw = true <-> exists pre post, s = pre ++ kw ++ post.
Proof.
  induction s as [|c s IH]; cbn [contains].
  - rewrite orb_false_r, starts_with_spec. split.
    + intros [rest H]. now exists [], rest.
    + intros (pre & post & H). destruct pre as [|x pre]; [|discriminate H].
      now exists post.
  - rewrite orb_true_iff, starts_with_spec, IH. split.
    + intros [[rest H]|(pre & post & H)].
      * now exists [], rest.
      * exists (c :: pre), post. now rewrite H.
    + intros (pre & post & H). destruct pre as [|x pre].
      * left. now exists post.
      * right. injection H as -> ->. now exists pre, post.
Qed.

(** A text that has a keyword has every substring of that keyword. *)
Lemma contains_trans (s long short : pystr) :
  contains long short = true -> contains s long = true ->
  contains s short = true.
Proof.
  rewrite !contains_spec.
  intros (p1 & q1 & ->) (p2 & q2 & ->).
  exists (p2 ++ p1), (q1 ++ q2). now rewrite <- !app_assoc.
Qed.

Lemma detect_party_first (ps : list (pystr * list pystr)) (bio n : pystr) :
  detect_party ps bio = Some n
  <-> exists before kws after,
        ps = before ++ (n, kws) :: after
        /\ any_in kws bio = true
        /\ Forall (fun p => any_in (snd p) bio = false) before.
Proof.
  induction ps as [|[m kws] ps IH]; cbn [detect_party].
  - split; [discriminate|].
    intros (before & k & after & H & _). destruct before; discriminate H.
  - destruct (any_in kws bio) eqn:Hk.
    + split.
      * intros H. injection H as ->.
        exists [], kws, ps. repeat split; auto.
      * intros (before & k & after & H & Hany & Hnone).
        destruct before as [|[m' k'] before].
        -- now injection H as -> _ _.
        -- injection H as Hm Hkws _. subst m' k'.
           inversion Hnone as [|? ? Hfalse _]; subst.
           cbn [snd] in Hfalse. rewrite Hk in Hfalse. discriminate Hfalse.
    + rewrite IH. split.
      * intros (before & k & after & -> & Hany & Hnone).
        exists ((m, kws) :: before), k, after.
        repeat split; auto.
      * intros (before & k & after & H & Hany & Hnone).
        destruct before as [|[m' k'] before].
        -- injection H as Hm Hkws _. subst m k.
           rewrite Hk in Hany. discriminate Hany.
        -- injection H as Hm Hkws Hps. subst m' k' ps.
           inversion Hnone; subst.
           now exists before, k, after.
Qed.

End SubstringFacts.

(** X11. On a non-empty text the institution flag is set exactly when the
    normalized text has ["assemblee"] or ["palais bourbon"] as a
    substring, and the role flag exactly when it has ["depute"],
    ["parlementaire"] or ["elu"] as a substring or the institution flag
    is set: the keywords ["deputee"], ["elue"] and
    ["assemblee nationale"] never change the outcome. *)
Theorem role_and_institution_keywords (nfkd : pystr -> pystr)
  (bio_text : pystr) :
  truthy bio_text = true ->
  let norm := normalize_string nfkd bio_text in
  let r := analyze_bio_keywords nfkd bio_text in
  kw_mentions_assemblee r
  = contains norm (lit "assemblee") || contains norm (lit "palais bourbon")
  /\ kw_mentions_depute r
     = contains norm (lit "depute") || contains norm (lit "parlementaire")
       || contains norm (lit "elu") || kw_mentions_assemblee r.
Proof.
  intros Hne. cbn zeta. unfold analyze_bio_keywords. rewrite Hne.
  cbn [negb kw_mentions_assemblee kw_mentions_depute].
  set (norm := normalize_string nfkd bio_text).
  unfold any_in, depute_keywords, assemblee_keywords.
  cbn [List.map existsb].
  assert (H1 : contains norm (lit "deputee") = true ->
               contains norm (lit "depute") = true)
    by (apply contains_trans; reflexivity).
  assert (H2 : contains norm (lit "elue") = true ->
               contains norm (lit "elu") = true)
    by (apply contains_trans; reflexivity).
  assert (H3 : contains norm (lit "assemblee nationale") = true ->
               contains norm (lit "assemblee") = true)
    by (apply contains_trans; reflexivity).
  destruct (contains norm (lit "depute")),
           (contains norm (lit "deputee")),
           (contains norm (lit "parlementaire")),
           (contains norm (lit "elu")),
           (contains norm (lit "elue")),
           (contains norm (lit "assemblee nationale")),
           (contains norm (lit "assemblee")),
           (contains norm (lit "palais bourbon"));
    cbn; split; try reflexivity;
    try (now specialize (H1 eq_refl));
    try (now specialize (H2 eq_refl));
    try (now specialize (H3 eq_refl)).
Qed.

Lemma role_and_institution_keywords_witness :
  kw_mentions_assemblee (analyze_bio_keywords nfkd_latin1 bio_assemblee)
  = contains (normalize_string nfkd_latin1 bio_assemblee) (lit "assemblee")
    || contains (normalize_string nfkd_latin1 bio_assemblee)
                (lit "palais bourbon").
Proof.
  apply (role_and_institution_keywords nfkd_latin1 bio_assemblee).
  reflexivity.
Defined.

(** X12. On a non-empty text the party label is that of the first party,
    in the order of the [parties] dictionary, one of whose keywords is a
    substring of the normalized text, whatever the order of the words in
    the text; the affiliation flag is set exactly when there is a
    label. *)
Theorem party_first_match (nfkd : pystr -> pystr) (bio_text : pystr) :
  truthy bio_text = true ->
  let norm := normalize_string nfkd bio_text in
  let r := analyze_bio_keywords nfkd bio_text in
  kw_mentions_party r
  = match kw_party_name r with Some _ => true | None => false end
  /\ (forall n,
        kw_party_name r = Some n
        <-> exists before kws after,
              parties = before ++ (n, kws) :: after
              /\ any_in kws norm = true
              /\ Forall (fun p => any_in (snd p) norm = false) before).
Proof.
  intros Hne. cbn zeta. unfold analyze_bio_keywords. rewrite Hne.
  cbn [negb kw_mentions_party kw_party_name].
  split; [reflexivity|].
  intros n. apply detect_party_first.
Qed.

Lemma party_first_match_witness :
  kw_party_name (analyze_bio_keywords nfkd_latin1 bio_elue_lr)
  = Some (lit "RN").
Proof.
  apply (party_first_match nfkd_latin1 bio_elue_lr); [reflexivity|].
  exists (firstn 2 parties),
         (List.map lit ["rn"; "rassemblement national"; "front national";
                        "fn"]%string),
         (skipn 3 parties).
  split; [reflexivity|]. split; [reflexivity|].
  repeat constructor.
Defined.

Section InvarianceFacts.

Variable nfkd : pystr -> pystr.
Hypothesis nfkd_ascii : forall s, all_ascii s -> nfkd s = s.

Lemma normalize_string_stable (x : pystr) :
  normalize_string nfkd (normalize_string nfkd x) = normalize_string nfkd x.
Proof.
  pose proof (normalize_string_ascii nfkd x) as Hascii.
  pose proof (normalize_string_no_upper nfkd x) as Hlow.
  unfold normalize_string at 1.
  rewrite (nfkd_ascii Hascii), (encode_ascii_ignore_id Hascii),
    (lower_id Hlow).
  unfold normalize_string. apply strip_idem.
Qed.

Lemma normalize_string_nil : normalize_string nfkd [] = [].
Proof.
  unfold normalize_string. rewrite nfkd_ascii by constructor. reflexivity.
Qed.

Lemma analyze_normalized (t : pystr) :
  analyze_bio_keywords nfkd (normalize_string nfkd t)
  = analyze_bio_keywords nfkd t.
Proof.
  destruct t as [|c t]; [now rewrite normalize_string_nil|].
  unfold analyze_bio_keywords at 2. cbn [truthy negb].
  unfold analyze_bio_keywords.
  destruct (normalize_string nfkd (c :: t)) as [|a n] eqn:Hn.
  - reflexivity.
  - cbn [truthy negb]. rewrite <- Hn, normalize_string_stable. reflexivity.
Qed.

End InvarianceFacts.

(** X13. The classifier sees a text only through its normalization:
    analysing a text or its normalized form gives the same tags, two
    texts with the same normalized form get the same tags (so case,
    accents and surrounding whitespace never matter), and a text whose
    normalized form is empty gets no tag at all. NFKD enters through the
    property that it leaves ASCII text unchanged. *)
Theorem analysis_up_to_normalization (nfkd : pystr -> pystr) :
  (forall s, all_ascii s -> nfkd s = s) ->
  (forall t,
     analyze_bio_keywords nfkd (normalize_string nfkd t)
     = analyze_bio_keywords nfkd t)
  /\ (forall t1 t2,
        normalize_string nfkd t1 = normalize_string nfkd t2 ->
        analyze_bio_keywords nfkd t1 = analyze_bio_keywords nfkd t2)
  /\ (forall t,
        normalize_string nfkd t = [] ->
        analyze_bio_keywords nfkd t
        = mkKeywords false false false false None).
Proof.
  intros Hnfkd. split; [|split].
  - intros t. now apply analyze_normalized.
  - intros t1 t2 H.
    rewrite <- (analyze_normalized nfkd Hnfkd t1),
      <- (analyze_normalized nfkd Hnfkd t2).
    now rewrite H.
  - intros t H. rewrite <- (analyze_normalized nfkd Hnfkd t), H. reflexivity.
Qed.

Lemma analysis_up_to_normalization_witness :
  analyze_bio_keywords nfkd_latin1 bio_rocket
  = mkKeywords false false false false None.
Proof.
  apply (analysis_up_to_normalization nfkd_latin1 nfkd_latin1_ascii).
  reflexivity.
Defined.

(* ----------------------------------------------------------------- *)
(** ** The scorer: order and range *)

Section ScorerOrder.

Open Scope Z_scope.

Lemma calculate_raw_score_split (c : TikTokCandidate) :
  calculate_raw_score c
  = popularity_tier_bonus (subscribers c) + text_bonus (bio_analysis c).
Proof.
  unfold calculate_raw_score, popularity_tier_bonus, text_bonus, bonus.
  rewrite !Z.geb_leb.
  repeat match goal with
         | |- context [(?a <=? ?b)] => destruct (a <=? b)
         end;
    (destruct (bio_analysis c) as [bio|]; [|lia]);
    (destruct (bio_found bio); [|lia]);
    destruct (mentions_depute bio), (mentions_assemblee bio),
             (mentions_party bio), (verified bio); lia.
Qed.

Lemma popularity_tier_bonus_mono (p q : Z) :
  p <= q -> popularity_tier_bonus p <= popularity_tier_bonus q.
Proof.
  intros H. unfold popularity_tier_bonus.
  repeat match goal with
         | |- context [(?a <=? ?b)] =>
             let E := fresh "E" in
             destruct (a <=? b) eqn:E;
             [apply Z.leb_le in E | apply Z.leb_gt in E]
         end; lia.
Qed.

Lemma text_bonus_range (a : option BioAnalysis) : 0 <= text_bonus a <= 70.
Proof.
  destruct a as [bio|]; simpl; [|lia].
  destruct (bio_found bio); [|lia].
  unfold bonus.
  destruct (mentions_depute bio), (mentions_assemblee bio),
           (mentions_party bio), (verified bio); lia.
Qed.

Lemma calculate_raw_score_range (c : TikTokCandidate) :
  0 <= calculate_raw_score c <= 170.
Proof.
  rewrite calculate_raw_score_split.
  pose proof (text_bonus_range (bio_analysis c)) as Htext.
  pose proof (popularity_tier_bonus_values (subscribers c)) as Hv.
  cbn [In] in Hv. lia.
Qed.

(** The array [process_deputy] hands to the distributor is an array of
    raw scores in descending order, whatever the network answers. *)
Lemma distributor_input_raw (check_tiktok_exists : pystr -> bool * Z)
  (analyze_tiktok_bio : pystr -> option BioAnalysis) (d : Deputy) :
  raw_scores
    (List.map raw_score
       (sort_by_score (scored check_tiktok_exists analyze_tiktok_bio d)))
  = true
  /\ sorted_desc
       (List.map raw_score
          (sort_by_score (scored check_tiktok_exists analyze_tiktok_bio d)))
     = true.
Proof.
  split; [|apply sort_by_score_sorted].
  apply raw_scores_Forall, Forall_forall. intros z Hz.
  apply in_map_iff in Hz. destruct Hz as (c & <- & Hc).
  apply (Permutation_in _ (sort_by_score_perm _)) in Hc.
  unfold scored in Hc. apply in_map_iff in Hc.
  destruct Hc as (c0 & <- & _). cbn [set_raw_score raw_score].
  apply calculate_raw_score_range.
Qed.

End ScorerOrder.

(** X14. For a fixed text analysis the raw score never decreases when the
    number of subscribers grows; it never exceeds 170, and a candidate
    with at least one subscriber scores at least 2. *)
Theorem raw_score_monotone (c1 c2 : TikTokCandidate) :
  bio_analysis c1 = bio_analysis c2 ->
  (subscribers c1 <= subscribers c2)%Z ->
  (calculate_raw_score c1 <= calculate_raw_score c2 <= 170)%Z
  /\ ((1 <= subscribers c1)%Z -> (2 <= calculate_raw_score c1)%Z).
Proof.
  intros Hbio Hsubs.
  rewrite !calculate_raw_score_split, Hbio.
  pose proof (popularity_tier_bonus_mono Hsubs) as Hmono.
  pose proof (text_bonus_range (bio_analysis c2)) as Htext.
  pose proof (popularity_tier_bonus_values (subscribers c2)) as Hv.
  cbn [In] in Hv.
  split; [lia|].
  intros Hpos.
  assert (2 <= popularity_tier_bonus (subscribers c1))%Z; [|lia].
  pose proof (popularity_tier_bonus_mono Hpos) as H.
  exact H.
Qed.

Lemma raw_score_monotone_witness :
  (calculate_raw_score small_account
   <= calculate_raw_score large_account <= 170)%Z.
Proof.
  apply (raw_score_monotone small_account large_account);
    [reflexivity | vm_compute; discriminate].
Defined.

(* ----------------------------------------------------------------- *)
(** ** Reading the page: [analyze_tiktok_bio] and [check_tiktok_exists] *)

Section FetchFacts.

Variable nfkd : pystr -> pystr.
Variable str_strip str_lower : pystr -> pystr.
Variable extract_user_info : pystr -> option UserInfo.
Variable quick_check_exists : pystr -> bool.
Variable analyze : pystr -> option BioAnalysis.

Let analysis_of :=
  analyze_tiktok_bio nfkd str_strip str_lower extract_user_info.
Let check := check_tiktok_exists extract_user_info quick_check_exists.

(** X15. The analysis [analyze_tiktok_bio] returns is found exactly when
    its biography is non-empty. Without a biography every mention flag is
    off and there is no party, while the follower count and the verified
    badge of the page are still reported; with one, the flags are those
    of the keyword classifier on that biography. In both cases the
    institution flag implies the role flag and the affiliation flag is
    set exactly when a party is named. *)
Theorem analyze_tiktok_bio_invariants (username : pystr) :
  let b :=
    analyze_tiktok_bio nfkd str_strip str_lower extract_user_info username in
  let page := extract_user_info (str_lower (lstrip_at (str_strip username))) in
  bio_found b = truthy (bio_text b)
  /\ bio_text b = get_info page info_bio []
  /\ followers b = get_info page info_followers 0%Z
  /\ Bio.verified b = get_info page info_verified false
  /\ (bio_found b = false ->
      mentions_depute b = false /\ mentions_assemblee b = false
      /\ mentions_party b = false /\ mentions_region b = false
      /\ party_name b = None)
  /\ (bio_found b = true ->
      mkKeywords (mentions_depute b) (mentions_party b) (mentions_region b)
                 (mentions_assemblee b) (party_name b)
      = analyze_bio_keywords nfkd (bio_text b))
  /\ (mentions_assemblee b = true -> mentions_depute b = true)
  /\ mentions_party b
     = match party_name b with Some _ => true | None => false end.
Proof.
  cbn zeta. unfold analyze_tiktok_bio.
  set (page := extract_user_info _).
  destruct (get_info page info_bio []) as [|c bio] eqn:Hbio.
  - cbn. repeat split; auto; discriminate.
  - cbn [truthy negb bio_found bio_text followers Bio.verified
         mentions_depute mentions_assemblee mentions_party mentions_region
         party_name].
    split; [reflexivity|]. split; [reflexivity|].
    split; [reflexivity|]. split; [reflexivity|].
    split; [discriminate|].
    split; [intros _; now destruct (analyze_bio_keywords nfkd (c :: bio))|].
    unfold analyze_bio_keywords.
    cbn [truthy negb kw_mentions_depute kw_mentions_assemblee
         kw_mentions_party kw_party_name].
    split; [intros ->; apply orb_true_r | reflexivity].
Qed.

(** X16. A page without biography earns the popularity bonus and nothing
    else: the 50 points of the verified badge are lost with the
    biography, since the scorer reads the badge only when a biography was
    found. *)
Theorem no_bio_no_verified_bonus (username : pystr) (subs : Z)
  (srcs : list SourceTag) :
  get_info (extract_user_info (str_lower (lstrip_at (str_strip username))))
           info_bio [] = [] ->
  calculate_raw_score
    (new_candidate username subs srcs
       (Some (analyze_tiktok_bio nfkd str_strip str_lower extract_user_info
                username)))
  = popularity_tier_bonus subs.
Proof.
  intros Hbio.
  rewrite calculate_raw_score_split.
  cbn [new_candidate subscribers bio_analysis text_bonus].
  unfold analyze_tiktok_bio. rewrite Hbio. cbn. lia.
Qed.

Lemma shortlisted_from_candidates (d : Deputy) (c : TikTokCandidate) :
  In c (snd (process_deputy check analyze d)) ->
  exists c0,
    In c0 (candidates check analyze d)
    /\ Candidate.username c = Candidate.username c0
    /\ subscribers c = subscribers c0.
Proof.
  pose proof (process_deputy_cases check analyze d) as Hcases.
  cbv zeta in Hcases. rewrite Hcases.
  destruct (candidates check analyze d) as [|first rest] eqn:Hall;
    [intros []|].
  destruct (candidates_with_subs check analyze d) as [|s ss] eqn:Hsubs.
  - cbn [snd]. intros [<-|[]]. exists first. repeat split. now left.
  - cbn [snd]. intros Hc. apply firstn_In in Hc.
    pose proof (ranked_In check analyze d c) as Hr. cbv zeta in Hr.
    destruct (Hr Hc) as (c0 & x & Hc0 & ->).
    rewrite Hsubs in Hc0.
    exists c0. split; [|split; reflexivity].
    rewrite <- Hall.
    pose proof (In_with_subs check analyze d c0) as Hw. cbv zeta in Hw.
    rewrite Hsubs in Hw. now apply Hw.
Qed.

(** X17. With the existence check of the source, a deputy is found
    exactly when some non-empty identifier of the three lists passes the
    HEAD request and has a readable page; every returned candidate is
    such an identifier and its subscribers are the followers read on its
    page. *)
Theorem found_needs_both_checks (d : Deputy) :
  let r :=
    process_deputy
      (check_tiktok_exists extract_user_info quick_check_exists) analyze d in
  (found r = true
   <-> exists u, In u (all_usernames d) /\ truthy u = true
                 /\ quick_check_exists u = true
                 /\ extract_user_info u <> None)
  /\ (forall c, In c (snd r) ->
        quick_check_exists (Candidate.username c) = true
        /\ exists info,
             extract_user_info (Candidate.username c) = Some info
             /\ subscribers c = info_followers info).
Proof.
  cbn zeta. fold check.
  assert (Hcheck : forall u,
            fst (check u) = true
            <-> quick_check_exists u = true /\ extract_user_info u <> None).
  { intros u. unfold check, check_tiktok_exists.
    destruct (quick_check_exists u), (extract_user_info u); cbn;
      split; try tauto; try discriminate;
      try (intros _; split; [reflexivity | discriminate]);
      intros [H1 H2]; try discriminate; now elim H2. }
  split.
  - pose proof (existing_nonempty check analyze d) as Hex.
    pose proof (process_deputy_cases check analyze d) as Hcases.
    cbv zeta in Hex, Hcases. rewrite Hcases.
    assert (Hfound :
              found
                match candidates check analyze d with
                | [] => (None, [])
                | first :: _ =>
                    match candidates_with_subs check analyze d with
                    | [] => (Some first, [first])
                    | _ :: _ =>
                        (hd_error (ranked check analyze d),
                         firstn 3 (ranked check analyze d))
                    end
                end = true
              <-> candidates check analyze d <> []).
    { destruct (candidates check analyze d) as [|first rest] eqn:Hall.
      - cbn. split; [discriminate | intros H; now elim H].
      - destruct (candidates_with_subs check analyze d) as [|s ss] eqn:Hs.
        + cbn. split; [discriminate | reflexivity].
        + pose proof (ranked_length check analyze d) as Hlen.
          cbv zeta in Hlen. rewrite Hs in Hlen.
          destruct (ranked check analyze d); [discriminate Hlen|].
          cbn. split; [discriminate | reflexivity]. }
    rewrite Hfound, Hex.
    split; intros (u & Hu & Ht & Hc); exists u;
      (split; [assumption|]); (split; [assumption|]); now apply Hcheck.
  - intros c Hc.
    destruct (shortlisted_from_candidates d c Hc) as (c0 & Hc0 & -> & ->).
    pose proof (In_candidates check analyze d c0) as Hin. cbv zeta in Hin.
    destruct (Hin Hc0) as (_ & _ & Hck & _).
    unfold check, check_tiktok_exists in Hck.
    destruct (quick_check_exists (Candidate.username c0));
      [|discriminate Hck].
    split; [reflexivity|].
    destruct (extract_user_info (Candidate.username c0)) as [info|];
      [|discriminate Hck].
    exists info. split; [reflexivity|]. cbn in Hck. now injection Hck.
Qed.

End FetchFacts.

Lemma no_bio_no_verified_bonus_witness :
  calculate_raw_score
    (new_candidate (lit "jdupont") 12000 [twitter]
       (Some (analyze_tiktok_bio nfkd_latin1 strip lower verified_without_bio
                (lit "jdupont"))))
  = 50%Z.
Proof.
  apply (no_bio_no_verified_bonus nfkd_latin1 strip lower verified_without_bio
           (lit "jdupont") 12000 [twitter]).
  reflexivity.
Defined.

(* ----------------------------------------------------------------- *)
(** ** The report written by [main] *)

Section ReportFacts.

Variable check_tiktok_exists : pystr -> bool * Z.
Variable analyze_tiktok_bio : pystr -> option BioAnalysis.

Let run := process_deputy check_tiktok_exists analyze_tiktok_bio.

Lemma result_head_and_length (d : Deputy) :
  fst (run d) = hd_error (snd (run d))
  /\ (List.length (snd (run d)) <= 3)%nat.
Proof.
  pose proof (process_deputy_cases check_tiktok_exists analyze_tiktok_bio d)
    as Hcases.
  cbv zeta in Hcases. unfold run. rewrite Hcases.
  destruct (candidates _ _ d) as [|first rest]; [cbn; split; [reflexivity|lia]|].
  destruct (candidates_with_subs _ _ d); [cbn; split; [reflexivity|lia]|].
  cbn [fst snd]. split.
  - now rewrite hd_error_firstn.
  - apply firstn_le_length.
Qed.

Lemma best_confidence_range (d : Deputy) (b : TikTokCandidate) :
  fst (run d) = Some b -> (0 <= confidence b < 0.95)%R.
Proof.
  pose proof (process_deputy_cases check_tiktok_exists analyze_tiktok_bio d)
    as Hcases.
  cbv zeta in Hcases. unfold run. rewrite Hcases.
  destruct (candidates _ _ d) as [|first rest] eqn:Hall; [discriminate|].
  destruct (candidates_with_subs _ _ d) as [|s ss] eqn:Hsubs.
  - cbn [fst]. intros H. injection H as <-.
    pose proof (In_candidates check_tiktok_exists analyze_tiktok_bio d first)
      as Hin.
    cbv zeta in Hin. rewrite Hall in Hin.
    destruct (Hin (or_introl eq_refl)) as (_ & _ & _ & _ & ->). lra.
  - cbn [fst]. intros Hb.
    pose proof (ranked_confidence check_tiktok_exists analyze_tiktok_bio d)
      as Hconf.
    cbv zeta in Hconf.
    pose proof (sort_by_score_sorted
                  (scored check_tiktok_exists analyze_tiktok_bio d))
      as Hsorted.
    destruct (calculate_confidence_sorted _ Hsorted) as (_ & _ & Hhead & _).
    assert (0.25 <= confidence b < 0.95)%R; [|lra].
    apply Hhead. rewrite <- Hconf.
    destruct (ranked _ _ d) as [|b' bs]; [discriminate Hb|].
    cbn [hd_error List.map] in *. now injection Hb as ->.
Qed.

Lemma confidences_range (ds : list Deputy) :
  Forall (fun x => (0 <= x < 0.95)%R)
         (confidences
            (results check_tiktok_exists analyze_tiktok_bio ds)).
Proof.
  induction ds as [|d ds IH]; [constructor|].
  unfold results in *. cbn [List.map confidences flat_map].
  apply Forall_app. split; [|exact IH].
  unfold result_entry. fold (run d).
  destruct (fst (run d)) as [b|] eqn:Hb; cbn; [|constructor].
  constructor; [|constructor].
  now apply (best_confidence_range d).
Qed.

Lemma average_range (cs : list R) :
  Forall (fun x => (0 <= x < 0.95)%R) cs ->
  cs <> [] ->
  (0 <= sum cs / INR (List.length cs) < 0.95)%R.
Proof.
  intros Hall Hne.
  assert (Hn : (1 <= INR (List.length cs))%R).
  { replace 1%R with (INR 1) by reflexivity. apply le_INR.
    destruct cs; [now elim Hne | simpl; lia]. }
  assert (Hsum : (0 <= sum cs)%R
                 /\ (sum cs <= 0.95 * INR (List.length cs))%R
                 /\ (cs <> [] -> sum cs < 0.95 * INR (List.length cs))%R).
  { clear Hne Hn.
    induction Hall as [|x l Hx Hl IH].
    - cbn. repeat split; try lra. intros H. now elim H.
    - change (x :: l) with ([x] ++ l).
      cbn [app sum fold_right]. fold (sum l).
      cbn [List.length]. rewrite S_INR.
      destruct IH as (I0 & I1 & _). repeat split; lra. }
  destruct Hsum as (H0 & _ & H1). specialize (H1 Hne).
  split.
  - unfold Rdiv. apply Rmult_le_pos; [assumption|].
    left. apply Rinv_0_lt_compat. lra.
  - apply (Rmult_lt_reg_r (INR (List.length cs))); [lra|].
    cancel_div. lra.
Qed.

(** X18. The report of [main] has one entry per deputy; the count of
    found deputies is the number of deputies for whom [process_deputy]
    returned a best candidate. An entry is marked found exactly when it
    has a best match; it lists at most three matches, and when it has a
    best match its first listed match is that very candidate (same
    identifier, raw score and confidence). The average confidence over
    the found deputies (0 when there is none) is at least 0 and below
    0.95, floats being read as real numbers. *)
Theorem main_report (deputies : list Deputy) :
  let rs := results check_tiktok_exists analyze_tiktok_bio deputies in
  List.length rs = List.length deputies
  /\ found_count rs
     = List.length
         (filter
            (fun d =>
               found (process_deputy check_tiktok_exists
                        analyze_tiktok_bio d))
            deputies)
  /\ (forall r, In r rs ->
        (entry_found r = true <-> best_match r <> None)
        /\ (List.length (top_3_matches r) <= 3)%nat
        /\ (forall b, best_match r = Some b ->
              exists row rest,
                top_3_matches r = row :: rest
                /\ row_username row = best_username b
                /\ row_raw_score row = best_raw_score b
                /\ row_confidence row = best_confidence b))
  /\ (0 <= avg_confidence rs < 0.95)%R.
Proof.
  cbn zeta. split; [|split; [|split]].
  - unfold results. apply length_map.
  - unfold found_count, results.
    induction deputies as [|d ds IH]; [reflexivity|].
    cbn [List.map filter]. unfold result_entry at 1, found at 1.
    destruct (fst (process_deputy _ _ d)); cbn [entry_found List.length];
      now rewrite IH.
  - intros r Hr. unfold results in Hr. apply in_map_iff in Hr.
    destruct Hr as (d & <- & _).
    destruct (result_head_and_length d) as [Hhead Hlen].
    unfold result_entry. fold (run d).
    destruct (fst (run d)) as [best|] eqn:Hb.
    + cbn [entry_found best_match top_3_matches].
      split; [split; [discriminate | reflexivity]|].
      split; [now rewrite length_map|].
      intros b Hsome. injection Hsome as <-.
      destruct (snd (run d)) as [|c cs]; [discriminate Hhead|].
      cbn [hd_error] in Hhead. injection Hhead as ->.
      exists (match_row c), (List.map match_row cs).
      repeat split; reflexivity.
    + cbn [entry_found best_match top_3_matches List.length].
      split; [split; [discriminate | intros H; now elim H]|].
      split; [lia|]. intros b Hsome. discriminate Hsome.
  - unfold avg_confidence.
    pose proof (confidences_range deputies) as Hrange.
    destruct (confidences _) as [|c cs] eqn:Hcs; [lra|].
    apply average_range; [assumption | discriminate].
Qed.

End ReportFacts.

(* ----------------------------------------------------------------- *)
(** ** The cleanup of the suggested identifiers *)

Section CleanupFacts.

Variable str_strip : pystr -> pystr.
Variable isalnum : codepoint -> bool.

Let valid (u : pystr) : Prop :=
  Forall (fun c => valid_char isalnum c = true) u.

Lemma pad_repeat (missing : nat) (cleaned : list pystr) :
  pad missing cleaned = cleaned ++ repeat [] missing.
Proof.
  revert cleaned. induction missing as [|n IH]; intros cleaned.
  - cbn. now rewrite app_nil_r.
  - cbn [pad repeat]. rewrite IH, <- app_assoc. reflexivity.
Qed.

Lemma cleanup_top_5_eq (top_5 : list pystr) :
  cleanup_top_5 str_strip isalnum top_5
  = firstn 5 (cleaned_of str_strip isalnum top_5)
    ++ repeat [] (5 - List.length (cleaned_of str_strip isalnum top_5)).
Proof.
  unfold cleanup_top_5. cbv zeta. rewrite pad_repeat, firstn_app.
  f_equal. apply firstn_all2. rewrite repeat_length. lia.
Qed.

Lemma clean_username_valid (username : pystr) :
  valid (clean_username str_strip isalnum username)
  /\ (List.length (clean_username str_strip isalnum username) <= 24)%nat.
Proof.
  unfold clean_username. cbv zeta. split.
  - unfold valid. apply Forall_forall. intros c Hc.
    apply firstn_In in Hc. apply filter_In in Hc. tauto.
  - apply firstn_le_length.
Qed.

Lemma cleaned_of_spec (top_5 : list pystr) :
  Forall (fun u => (2 <= List.length u <= 24)%nat /\ valid u)
         (cleaned_of str_strip isalnum top_5).
Proof.
  unfold cleaned_of. apply Forall_forall. intros u Hu.
  apply filter_In in Hu. destruct Hu as [Hin Hlen].
  apply in_map_iff in Hin. destruct Hin as (username & <- & _).
  destruct (clean_username_valid username) as [Hvalid Hmax].
  apply andb_prop in Hlen. destruct Hlen as [_ Hmin].
  apply Nat.leb_le in Hmin. repeat split; assumption.
Qed.

Lemma Forall_firstn (A : Type) (P : A -> Prop) (n : nat) (l : list A) :
  Forall P l -> Forall P (firstn n l).
Proof.
  intros H. apply Forall_forall. intros x Hx.
  apply firstn_In in Hx. revert x Hx. now apply Forall_forall.
Qed.

Lemma repeat_Forall (A : Type) (P : A -> Prop) (x : A) (n : nat) :
  P x -> Forall P (repeat x n).
Proof. intros H. induction n; cbn; now constructor. Qed.

(** X19. Whatever the language model returned for a name, the list the
    cleanup stores has exactly five entries: the cleaned identifiers that
    pass the test, in their order, cut after the fifth, then empty
    strings. A non-empty entry has between 2 and 24 characters, each
    alphanumeric, a dot or an underscore; so no entry has an ['@'] when
    ['@'] is not alphanumeric. *)
Theorem top_5_cleanup_shape (top_5 : list pystr) :
  let cleaned := cleaned_of str_strip isalnum top_5 in
  let out := cleanup_top_5 str_strip isalnum top_5 in
  List.length out = 5%nat
  /\ out = firstn 5 cleaned ++ repeat [] (5 - List.length cleaned)
  /\ Forall (fun u => u <> []) (firstn 5 cleaned)
  /\ Forall (fun u =>
               u = []
               \/ ((2 <= List.length u <= 24)%nat
                   /\ Forall (fun c => valid_char isalnum c = true) u))
            out
  /\ (isalnum 64%N = false -> Forall (fun u => ~ In 64%N u) out).
Proof.
  cbv zeta. pose proof (cleaned_of_spec top_5) as Hspec.
  rewrite cleanup_top_5_eq.
  set (cleaned := cleaned_of str_strip isalnum top_5) in *.
  assert (Hshape :
            Forall (fun u =>
                      u = []
                      \/ ((2 <= List.length u <= 24)%nat /\ valid u))
                   (firstn 5 cleaned ++ repeat [] (5 - List.length cleaned))).
  { apply Forall_app. split.
    - apply Forall_firstn. revert Hspec. apply Forall_impl.
      intros u Hu. now right.
    - apply repeat_Forall. now left. }
  split; [|split; [|split; [|split]]].
  - rewrite length_app, length_firstn, repeat_length. lia.
  - reflexivity.
  - apply Forall_firstn. revert Hspec. apply Forall_impl.
    intros u [Hlen _] ->. cbn in Hlen. lia.
  - exact Hshape.
  - intros Hat. revert Hshape. apply Forall_impl.
    intros u [-> | [_ Hvalid]]; [now intros []|].
    intros Hin. unfold valid in Hvalid.
    rewrite Forall_forall in Hvalid. specialize (Hvalid _ Hin).
    unfold valid_char in Hvalid. rewrite Hat in Hvalid.
    cbn in Hvalid. discriminate.
Qed.

Hypothesis at_not_alnum : isalnum 64%N = false.
Hypothesis strip_valid : forall s, valid s -> str_strip s = s.

Lemma clean_username_id (u : pystr) :
  valid u -> (List.length u <= 24)%nat ->
  clean_username str_strip isalnum u = u.
Proof.
  intros Hvalid Hlen. unfold clean_username. cbv zeta.
  assert (Hat : lstrip_at u = u).
  { unfold lstrip_at. destruct u as [|c t]; [reflexivity|].
    cbn [drop_while]. inversion Hvalid as [|? ? Hc _]; subst.
    destruct (N.eqb_spec 64%N c) as [<-|]; [|reflexivity].
    unfold valid_char in Hc. rewrite at_not_alnum in Hc. discriminate. }
  rewrite Hat, (strip_valid Hvalid), (filter_Forall_id _ Hvalid).
  now apply firstn_all2.
Qed.

Lemma cleaned_of_fixed (l : list pystr) (k : nat) :
  Forall (fun u => (2 <= List.length u <= 24)%nat /\ valid u) l ->
  cleaned_of str_strip isalnum (l ++ repeat ([] : pystr) k) = l.
Proof.
  intros Hl. unfold cleaned_of. rewrite map_app, filter_app.
  replace (filter _ (List.map _ (repeat ([] : pystr) k)))
    with (@nil pystr).
  - rewrite app_nil_r.
    induction Hl as [|u l [Hlen Hvalid] Hl IH]; [reflexivity|].
    cbn [List.map filter].
    rewrite (clean_username_id Hvalid) by lia.
    replace (truthy u && (2 <=? List.length u)%nat) with true.
    + now rewrite IH.
    + symmetry. apply andb_true_intro. split.
      * destruct u; [cbn in Hlen; lia | reflexivity].
      * apply Nat.leb_le. lia.
  - induction k as [|k IH]; [reflexivity|].
    cbn [repeat List.map filter].
    rewrite (@clean_username_id [] (Forall_nil _)) by (cbn; lia).
    cbn. exact IH.
Qed.

(** X20. When ['@'] is not alphanumeric and [str.strip] leaves a text of
    alphanumeric characters, dots and underscores unchanged, the cleanup
    is idempotent: a list it has produced is left as it is. *)
Theorem top_5_cleanup_idempotent (top_5 : list pystr) :
  cleanup_top_5 str_strip isalnum (cleanup_top_5 str_strip isalnum top_5)
  = cleanup_top_5 str_strip isalnum top_5.
Proof.
  rewrite (cleanup_top_5_eq top_5).
  set (cleaned := cleaned_of str_strip isalnum top_5).
  rewrite cleanup_top_5_eq.
  rewrite cleaned_of_fixed
    by (apply Forall_firstn, cleaned_of_spec).
  rewrite firstn_firstn, length_firstn. f_equal.
  f_equal. lia.
Qed.

End CleanupFacts.

Lemma ascii_strip_valid (s : pystr) :
  Forall (fun c => valid_char ascii_alnum c = true) s -> strip s = s.
Proof.
  intros Hvalid.
  assert (Hspace : Forall (fun c => is_space c = false) s).
  { revert Hvalid. apply Forall_impl. intros c Hc.
    unfold valid_char, ascii_alnum in Hc. unfold is_space.
    destruct (N.leb_spec 9 c), (N.leb_spec c 13), (N.leb_spec 28 c),
      (N.leb_spec c 32); try reflexivity; exfalso;
      repeat match type of Hc with
             | context [(?a <=? ?b)%N] => destruct (N.leb_spec a b)
             | context [(?a =? ?b)%N] => destruct (N.eqb_spec a b)
             end; cbn in Hc; try discriminate; lia. }
  assert (Hdrop : forall t, Forall (fun c => is_space c = false) t ->
                            drop_while is_space t = t).
  { intros t Ht. destruct Ht as [|c t Hc _]; [reflexivity|].
    cbn [drop_while]. now rewrite Hc. }
  unfold strip, rstrip, lstrip.
  rewrite (Hdrop s Hspace), (Hdrop (rev s)) by now apply Forall_rev.
  apply rev_involutive.
Qed.

Lemma top_5_cleanup_idempotent_witness :
  cleanup_top_5 strip ascii_alnum suggested_dupont
  = [lit "j.dupont"; lit "jeandupont"; lit "dupont_officiel"; []; []]
  /\ cleanup_top_5 strip ascii_alnum
       (cleanup_top_5 strip ascii_alnum suggested_dupont)
     = cleanup_top_5 strip ascii_alnum suggested_dupont.
Proof.
  split; [vm_compute; reflexivity|].
  apply (@top_5_cleanup_idempotent strip ascii_alnum).
  - reflexivity.
  - exact ascii_strip_valid.
Defined.

(* ----------------------------------------------------------------- *)
(** ** Loading the report into the table *)

Section LoadFacts.

Variable check_tiktok_exists : pystr -> bool * Z.
Variable analyze_tiktok_bio : pystr -> option BioAnalysis.

Let run := process_deputy check_tiktok_exists analyze_tiktok_bio.
Let report := results check_tiktok_exists analyze_tiktok_bio.

Lemma shortlist_usernames_NoDup (d : Deputy) :
  NoDup (List.map Candidate.username (snd (run d))).
Proof.
  pose proof (process_deputy_cases check_tiktok_exists analyze_tiktok_bio d)
    as Hcases.
  cbv zeta in Hcases. unfold run. rewrite Hcases.
  destruct (candidates _ _ d) as [|first rest]; [constructor|].
  destruct (candidates_with_subs _ _ d) as [|s ss] eqn:Hs.
  - cbn. constructor; [intros [] | constructor].
  - cbn [snd]. rewrite <- firstn_map. apply NoDup_firstn.
    pose proof (@ranked_keeps check_tiktok_exists analyze_tiktok_bio _
                  Candidate.username d (fun _ _ => eq_refl)) as Hr.
    cbv zeta in Hr. rewrite Hr.
    apply (Permutation_NoDup
             (Permutation_map _ (Permutation_sym (sort_by_score_perm _)))).
    pose proof (@scored_keeps check_tiktok_exists analyze_tiktok_bio _
                  Candidate.username d (fun _ _ => eq_refl)) as Hsc.
    cbv zeta in Hsc. rewrite Hsc.
    exact (with_subs_usernames_NoDup check_tiktok_exists
             analyze_tiktok_bio d).
Qed.

Lemma shortlist_from_candidates (d : Deputy) (c : TikTokCandidate) :
  In c (snd (run d)) ->
  exists c0,
    In c0 (candidates check_tiktok_exists analyze_tiktok_bio d)
    /\ Candidate.username c = Candidate.username c0.
Proof.
  pose proof (process_deputy_cases check_tiktok_exists analyze_tiktok_bio d)
    as Hcases.
  cbv zeta in Hcases. unfold run. rewrite Hcases.
  destruct (candidates _ _ d) as [|first rest] eqn:Hall; [intros []|].
  destruct (candidates_with_subs _ _ d) as [|s ss] eqn:Hs; cbn [snd].
  - intros [<- | []]. exists first. split; [now left | reflexivity].
  - intros Hc. apply firstn_In in Hc.
    pose proof (@ranked_In check_tiktok_exists analyze_tiktok_bio d c)
      as Hr.
    cbv zeta in Hr. destruct (Hr Hc) as (c0 & x & Hc0 & ->).
    pose proof (@In_with_subs check_tiktok_exists analyze_tiktok_bio d c0)
      as Hw.
    cbv zeta in Hw. apply Hw in Hc0. rewrite Hall in Hc0.
    exists c0. split; [tauto | reflexivity].
Qed.

Lemma best_username_truthy (d : Deputy) (best : TikTokCandidate) :
  fst (run d) = Some best -> truthy (Candidate.username best) = true.
Proof.
  intros Hbest.
  destruct (result_head_and_length check_tiktok_exists analyze_tiktok_bio d)
    as [Hhead _].
  fold (run d) in Hhead. rewrite Hbest in Hhead.
  destruct (snd (run d)) as [|c cs] eqn:Hs; [discriminate Hhead|].
  cbn in Hhead. injection Hhead as ->.
  destruct (@shortlist_from_candidates d c) as (c0 & Hc0 & ->);
    [rewrite Hs; now left|].
  pose proof (@In_candidates check_tiktok_exists analyze_tiktok_bio d c0)
    as Hin.
  cbv zeta in Hin. destruct (Hin Hc0) as (_ & Hm & _).
  assert (Hkey : In (Candidate.username c0) (keys (merge_sources d))).
  { unfold keys. apply in_map_iff.
    now exists (Candidate.username c0, source c0). }
  apply keys_merge_sources_In in Hkey. tauto.
Qed.

Lemma deputy_of_entry (d : Deputy) :
  match fst (run d) with
  | None => deputy_of_item (result_entry d (run d)) = None
  | Some best =>
      exists row,
        deputy_of_item (result_entry d (run d)) = Some row
        /\ dep_name row = name d
        /\ dep_found row = true
        /\ legislatures row = []
        /\ best_match_username row = Some (Candidate.username best)
        /\ best_match_url row
           = Some (tiktok_url_of (Candidate.username best))
        /\ dep_top_3_matches row
           = Some (List.map (enrich (best_match_of best))
                            (List.map match_row (snd (run d))))
  end.
Proof.
  unfold result_entry.
  destruct (fst (run d)) as [best|]; [|reflexivity].
  eexists. split; [reflexivity|]. cbn. repeat split; reflexivity.
Qed.

Lemma insert_deputies_spec (deputies : list Deputy) :
  match insert_deputies (report deputies) with
  | None => exists d, In d deputies /\ found (run d) = false
  | Some rows =>
      Forall (fun d => found (run d) = true) deputies
      /\ Forall2
           (fun d row =>
              deputy_of_item (result_entry d (run d)) = Some row)
           deputies rows
  end.
Proof.
  induction deputies as [|d ds IH]; [cbn; split; constructor|].
  unfold report, results in *. cbn [List.map insert_deputies].
  fold (run d). pose proof (deputy_of_entry d) as Hd.
  assert (Hfound : found (run d)
                   = match fst (run d) with Some _ => true | None => false end)
    by reflexivity.
  destruct (fst (run d)) as [best|] eqn:Hbest.
  - destruct Hd as (row & Hrow & _). rewrite Hrow.
    destruct (insert_deputies _) as [rows|].
    + destruct IH as [Hall Hrows].
      split; [now constructor | now constructor].
    + destruct IH as (d' & Hin & Hd'). exists d'. split; [now right|].
      exact Hd'.
  - rewrite Hd. exists d. split; [now left | exact Hfound].
Qed.

(** X21. Loading the report written by [main] succeeds exactly when
    every deputy of the report was found: an entry without best match
    makes the loop raise. In that case [load_json_data], which has
    already emptied the table, leaves it empty, and
    [initialize_database] leaves the table as it was. When the loop
    succeeds the table holds one row per deputy, in order and under the
    deputy's name, each marked found, with a non-empty best identifier,
    the address of that identifier, and no legislature. *)
Theorem load_needs_every_deputy_found (deputies : list Deputy)
  (db : list DeputyRow) :
  let data := results check_tiktok_exists analyze_tiktok_bio deputies in
  (insert_deputies data <> None
   <-> forall d, In d deputies ->
         found (process_deputy check_tiktok_exists analyze_tiktok_bio d)
         = true)
  /\ (insert_deputies data = None ->
      load_json_data db data = [] /\ initialize_database db data = db)
  /\ (forall rows,
        insert_deputies data = Some rows ->
        load_json_data db data = rows
        /\ initialize_database [] data = rows
        /\ List.map dep_name rows = List.map name deputies
        /\ Forall
             (fun row =>
                dep_found row = true
                /\ legislatures row = []
                /\ exists u,
                     truthy u = true
                     /\ best_match_username row = Some u
                     /\ best_match_url row = Some (tiktok_url_of u))
             rows).
Proof.
  cbv zeta. fold (report deputies).
  pose proof (insert_deputies_spec deputies) as Hspec.
  split; [|split].
  - destruct (insert_deputies _) as [rows|].
    + destruct Hspec as [Hall _]. split; [|discriminate].
      intros _. now apply Forall_forall.
    + destruct Hspec as (d & Hin & Hd). split; [intros H; now elim H|].
      intros H. specialize (H d Hin). fold (run d) in H.
      rewrite H in Hd. discriminate.
  - intros Hnone. unfold load_json_data, initialize_database.
    rewrite Hnone. split; [reflexivity|].
    now destruct (0 <? List.length db)%nat.
  - intros rows Hrows. unfold load_json_data, initialize_database.
    rewrite Hrows in *. cbn [List.length Nat.ltb Nat.leb app].
    destruct Hspec as [_ Hall].
    split; [reflexivity|]. split; [reflexivity|].
    clear Hrows. induction Hall as [|d row ds rows Hrow Hrest IH].
    + split; [reflexivity | constructor].
    + destruct IH as [IHnames IHrows].
      pose proof (deputy_of_entry d) as Hd.
      destruct (fst (run d)) as [best|] eqn:Hbest;
        [|rewrite Hd in Hrow; discriminate].
      destruct Hd as (row' & Hrow' & Hname & Hfound & Hleg & Hu & Hurl & _).
      rewrite Hrow in Hrow'. injection Hrow' as <-.
      split; [cbn [List.map]; now rewrite Hname, IHnames|].
      constructor; [|exact IHrows].
      split; [assumption|]. split; [assumption|].
      exists (Candidate.username best).
      split; [now apply (best_username_truthy d)|]. now split.
Qed.

Lemma enrich_same (b : BestMatch) (m : MatchRow) :
  row_username m = best_username b ->
  sm_bio (enrich b m) = best_bio b
  /\ sm_verified (enrich b m) = best_verified b
  /\ sm_mentions_depute (enrich b m) = best_mentions_depute b
  /\ sm_mentions_assemblee (enrich b m) = best_mentions_assemblee b
  /\ sm_mentions_party (enrich b m) = best_mentions_party b
  /\ sm_mentions_region (enrich b m) = best_mentions_region b
  /\ sm_party_name (enrich b m) = best_party_name b.
Proof.
  intros H. unfold enrich. rewrite H, pystr_eqb_refl. cbn.
  repeat split; reflexivity.
Qed.

Lemma enrich_other (b : BestMatch) (m : MatchRow) :
  row_username m <> best_username b ->
  sm_bio (enrich b m) = []
  /\ sm_verified (enrich b m) = false
  /\ sm_mentions_depute (enrich b m) = false
  /\ sm_mentions_assemblee (enrich b m) = false
  /\ sm_mentions_party (enrich b m) = false
  /\ sm_mentions_region (enrich b m) = false
  /\ sm_party_name (enrich b m) = Some [].
Proof.
  intros H. unfold enrich. rewrite (pystr_eqb_neq H). cbn.
  repeat split; reflexivity.
Qed.

Lemma enrich_username (b : BestMatch) (m : MatchRow) :
  sm_username (enrich b m) = row_username m.
Proof. unfold enrich. now destruct (PyStr.eqb _ _). Qed.

(** X22. In the row stored for a found deputy, the listed matches keep
    the identifiers of the shortlist, in order. The first is the best
    match and carries its biography, badge, mention flags and party;
    every other one is stored with an empty biography, no badge, no
    mention and an empty party, whatever its own page said. *)
Theorem stored_matches_enrichment (d : Deputy) :
  found (process_deputy check_tiktok_exists analyze_tiktok_bio d) = true ->
  let r := process_deputy check_tiktok_exists analyze_tiktok_bio d in
  exists best row first others,
    fst r = Some best
    /\ deputy_of_item (result_entry d r) = Some row
    /\ dep_top_3_matches row = Some (first :: others)
    /\ List.map sm_username (first :: others)
       = List.map Candidate.username (snd r)
    /\ sm_username first = Candidate.username best
    /\ sm_bio first = bio_field best bio_text []
    /\ sm_verified first = bio_field best Bio.verified false
    /\ sm_mentions_depute first = bio_field best mentions_depute false
    /\ sm_mentions_assemblee first
       = bio_field best mentions_assemblee false
    /\ sm_mentions_party first = bio_field best mentions_party false
    /\ sm_mentions_region first = bio_field best mentions_region false
    /\ sm_party_name first = bio_field best party_name (Some [])
    /\ Forall
         (fun m =>
            sm_bio m = [] /\ sm_verified m = false
            /\ sm_mentions_depute m = false
            /\ sm_mentions_assemblee m = false
            /\ sm_mentions_party m = false
            /\ sm_mentions_region m = false
            /\ sm_party_name m = Some [])
         others.
Proof.
  intros Hfound. cbv zeta. fold (run d) in *.
  unfold found in Hfound.
  pose proof (deputy_of_entry d) as Hd.
  destruct (fst (run d)) as [best|] eqn:Hbest; [|discriminate].
  destruct Hd as (row & Hrow & _ & _ & _ & _ & _ & Htop).
  destruct (result_head_and_length check_tiktok_exists analyze_tiktok_bio d)
    as [Hhead _].
  fold (run d) in Hhead. rewrite Hbest in Hhead.
  pose proof (shortlist_usernames_NoDup d) as Hnodup.
  destruct (snd (run d)) as [|c cs] eqn:Hs; [discriminate Hhead|].
  cbn in Hhead. injection Hhead as <-.
  cbn [List.map] in Htop, Hnodup.
  exists best, row, (enrich (best_match_of best) (match_row best)),
    (List.map (enrich (best_match_of best)) (List.map match_row cs)).
  destruct (@enrich_same (best_match_of best) (match_row best) eq_refl)
    as (E1 & E2 & E3 & E4 & E5 & E6 & E7).
  split; [reflexivity|]. split; [exact Hrow|]. split; [exact Htop|].
  split.
  { cbn [List.map]. rewrite enrich_username. f_equal.
    rewrite !map_map. apply map_ext. intros a. apply enrich_username. }
  split; [apply enrich_username|].
  repeat (split; [assumption|]).
  inversion Hnodup as [|? ? Hnotin _]; subst.
  apply Forall_forall. intros m Hm.
  rewrite map_map in Hm. apply in_map_iff in Hm.
  destruct Hm as (c & <- & Hc).
  apply enrich_other. cbn. intros Heq. apply Hnotin.
  rewrite <- Heq. now apply in_map.
Qed.

End LoadFacts.

Lemma stored_matches_enrichment_witness :
  exists best row first others,
    fst (process_deputy check_dupont_subs no_bio dupont) = Some best
    /\ deputy_of_item
         (result_entry dupont
            (process_deputy check_dupont_subs no_bio dupont))
       = Some row
    /\ dep_top_3_matches row = Some (first :: others)
    /\ List.map sm_username (first :: others)
       = List.map Candidate.username
           (snd (process_deputy check_dupont_subs no_bio dupont))
    /\ sm_username first = Candidate.username best
    /\ sm_bio first = bio_field best bio_text []
    /\ sm_verified first = bio_field best Bio.verified false
    /\ sm_mentions_depute first = bio_field best mentions_depute false
    /\ sm_mentions_assemblee first
       = bio_field best mentions_assemblee false
    /\ sm_mentions_party first = bio_field best mentions_party false
    /\ sm_mentions_region first = bio_field best mentions_region false
    /\ sm_party_name first = bio_field best party_name (Some [])
    /\ Forall
         (fun m =>
            sm_bio m = [] /\ sm_verified m = false
            /\ sm_mentions_depute m = false
            /\ sm_mentions_assemblee m = false
            /\ sm_mentions_party m = false
            /\ sm_mentions_region m = false
            /\ sm_party_name m = Some [])
         others.
Proof.
  apply (@stored_matches_enrichment check_dupont_subs no_bio dupont).
  vm_compute. reflexivity.
Defined.

(* ----------------------------------------------------------------- *)
(** ** The identifier read from a manual address *)

Section SplitFacts.

Variable sep : codepoint.

Lemma split_on_nonempty (s : pystr) : split_on sep s <> [].
Proof.
  destruct s as [|c t]; cbn [split_on]; [discriminate|].
  destruct (c =? sep)%N; [discriminate|].
  destruct (split_on sep t); discriminate.
Qed.

Lemma split_on_no_sep (s : pystr) : ~ In sep s -> split_on sep s = [s].
Proof.
  induction s as [|c t IH]; intros Hs; [reflexivity|].
  cbn [split_on]. destruct (N.eqb_spec c sep) as [->|_].
  - exfalso. apply Hs. now left.
  - rewrite IH; [reflexivity|]. intros Hin. apply Hs. now right.
Qed.

Lemma last_app_nonempty (A : Type) (l1 l2 : list A) (d : A) :
  l2 <> [] -> last (l1 ++ l2) d = last l2 d.
Proof.
  intros Hl2. induction l1 as [|a l1 IH]; [reflexivity|].
  cbn [app last]. destruct (l1 ++ l2) eqn:Happ; [|exact IH].
  apply app_eq_nil in Happ. destruct Happ as [_ ->]. now elim Hl2.
Qed.

Lemma split_on_app (pre rest : pystr) :
  exists front,
    front <> []
    /\ split_on sep (pre ++ sep :: rest) = front ++ split_on sep rest.
Proof.
  induction pre as [|c p (front & Hne & IH)].
  - exists [[]]. split; [discriminate|].
    cbn [app split_on]. now rewrite N.eqb_refl.
  - cbn [app split_on]. destruct (c =? sep)%N.
    + exists ([] :: front). split; [discriminate|]. now rewrite IH.
    + rewrite IH. destruct front as [|w ws]; [now elim Hne|].
      exists ((c :: w) :: ws). split; [discriminate | reflexivity].
Qed.

Lemma last_split_on_app (pre rest : pystr) :
  last (split_on sep (pre ++ sep :: rest)) []
  = last (split_on sep rest) [].
Proof.
  destruct (split_on_app pre rest) as (front & _ & ->).
  apply last_app_nonempty, split_on_nonempty.
Qed.

Lemma last_split_on_no_sep (s : pystr) :
  ~ In sep (last (split_on sep s) []).
Proof.
  induction s as [|c t IH]; [intros []|].
  cbn [split_on]. destruct (N.eqb_spec c sep) as [->|Hc].
  - pose proof (split_on_nonempty t) as Hne.
    destruct (split_on sep t) as [|w ws]; [now elim Hne | exact IH].
  - pose proof (split_on_nonempty t) as Hne.
    destruct (split_on sep t) as [|w ws]; [now elim Hne|].
    destruct ws as [|w' ws]; [|exact IH].
    cbn [last] in *. intros [Heq | Hin]; [now apply Hc | now apply IH].
Qed.

End SplitFacts.

Section StripCharFacts.

Variable ch : codepoint.

Lemma hd_rev (s : pystr) (d : codepoint) : hd d (rev s) = last s d.
Proof.
  destruct (rev s) as [|e r] eqn:Hrev.
  - apply (f_equal (@rev codepoint)) in Hrev.
    rewrite rev_involutive in Hrev. now subst.
  - apply (f_equal (@rev codepoint)) in Hrev.
    rewrite rev_involutive in Hrev. subst s. cbn [rev hd].
    now rewrite last_last.
Qed.

Lemma drop_while_keep (s : pystr) (d : codepoint) :
  d <> ch -> hd d s <> ch -> drop_while (N.eqb ch) s = s.
Proof.
  intros Hd Hs. destruct s as [|c t]; [reflexivity|].
  cbn [drop_while hd] in *.
  destruct (N.eqb_spec ch c) as [<-|]; [now elim Hs | reflexivity].
Qed.

Lemma strip_char_id (s : pystr) (d : codepoint) :
  d <> ch -> hd d s <> ch -> last s d <> ch -> strip_char ch s = s.
Proof.
  intros Hd Hhd Hlast. unfold strip_char.
  rewrite (drop_while_keep s Hd Hhd).
  rewrite (@drop_while_keep (rev s) d Hd) by now rewrite hd_rev.
  apply rev_involutive.
Qed.

Lemma strip_char_ends (s : pystr) (d : codepoint) :
  d <> ch ->
  hd d (strip_char ch s) <> ch /\ last (strip_char ch s) d <> ch.
Proof.
  intros Hd. unfold strip_char.
  set (a := drop_while (N.eqb ch) s).
  destruct (drop_while_suffix (N.eqb ch) (rev a)) as [pre Hpre].
  destruct (drop_while (N.eqb ch) (rev a)) as [|e r] eqn:Hdrop;
    [cbn; now split|].
  pose proof (drop_while_head _ _ Hdrop) as He.
  apply N.eqb_neq in He.
  split.
  - assert (Ha : a = rev (e :: r) ++ rev pre).
    { rewrite <- rev_app_distr, <- Hpre. now rewrite rev_involutive. }
    destruct (rev (e :: r)) as [|c t] eqn:Hrev.
    + apply (f_equal (@List.length codepoint)) in Hrev.
      rewrite length_rev in Hrev. discriminate.
    + cbn [hd]. cbn [app] in Ha. unfold a in Ha.
      pose proof (drop_while_head _ _ Ha) as Hc.
      apply N.eqb_neq in Hc. congruence.
  - cbn [rev]. rewrite last_last. congruence.
Qed.

Lemma strip_char_In (s : pystr) (c : codepoint) :
  In c (strip_char ch s) -> In c s.
Proof.
  unfold strip_char. intros Hin. apply in_rev in Hin.
  destruct (drop_while_suffix (N.eqb ch)
              (rev (drop_while (N.eqb ch) s))) as [pre Hpre].
  assert (H1 : In c (rev (drop_while (N.eqb ch) s)))
    by (rewrite Hpre; apply in_or_app; now right).
  apply in_rev in H1.
  destruct (drop_while_suffix (N.eqb ch) s) as [pre' Hpre'].
  rewrite Hpre'. apply in_or_app. now right.
Qed.

Lemma strip_char_snoc (s : pystr) (d : codepoint) :
  d <> ch -> hd d s <> ch -> last s d <> ch ->
  strip_char ch (s ++ [ch]) = s.
Proof.
  intros Hd Hhd Hlast. unfold strip_char.
  destruct s as [|c t].
  - cbn. now rewrite N.eqb_refl.
  - cbn [app drop_while hd] in *.
    destruct (N.eqb_spec ch c) as [<-|_]; [now elim Hhd|].
    change (c :: t ++ [ch]) with ((c :: t) ++ [ch]).
    rewrite rev_app_distr. cbn [rev app drop_while].
    rewrite N.eqb_refl.
    change (rev t ++ [c]) with (rev (c :: t)).
    rewrite (@drop_while_keep (rev (c :: t)) d Hd)
      by now rewrite hd_rev.
    apply rev_involutive.
Qed.

End StripCharFacts.

(** X23. The identifier [add_manual_account] reads from an address is
    what follows the last ['@'] (the whole address when it has none),
    without the slashes at both ends: it has no ['@'] and neither begins
    nor ends with a slash, whatever else follows the ['@']. Reading the
    address [https://www.tiktok.com/@u] built from such an identifier,
    with or without a final slash, or the bare identifier, gives the
    identifier back. *)
Theorem manual_username_spec (tiktok_url : pystr) :
  let u := manual_username tiktok_url in
  ~ In 64%N u
  /\ hd 0%N u <> 47%N
  /\ last u 0%N <> 47%N
  /\ (forall pre rest,
        tiktok_url = pre ++ [64%N] ++ rest -> ~ In 64%N rest ->
        u = strip_char 47%N rest)
  /\ (~ In 64%N tiktok_url -> u = strip_char 47%N tiktok_url)
  /\ (forall v,
        ~ In 64%N v -> hd 0%N v <> 47%N -> last v 0%N <> 47%N ->
        manual_username (tiktok_url_of v) = v
        /\ manual_username (tiktok_url_of v ++ lit "/") = v
        /\ manual_username v = v)
  /\ manual_username (tiktok_url_of u) = u.
Proof.
  cbv zeta.
  assert (Hzero : 0%N <> 47%N) by discriminate.
  assert (Hafter : forall pre rest,
             ~ In 64%N rest ->
             manual_username (pre ++ [64%N] ++ rest) = strip_char 47%N rest).
  { intros pre rest Hrest. unfold manual_username. cbn [app].
    now rewrite last_split_on_app, split_on_no_sep. }
  assert (Hbare : forall s,
             ~ In 64%N s -> manual_username s = strip_char 47%N s).
  { intros s Hs. unfold manual_username. now rewrite split_on_no_sep. }
  assert (Hat : ~ In 64%N (manual_username tiktok_url)).
  { unfold manual_username. intros Hin. apply strip_char_In in Hin.
    exact (last_split_on_no_sep _ _ Hin). }
  destruct (@strip_char_ends 47%N (last (split_on 64%N tiktok_url) [])
              0%N Hzero) as [Hhd Hlast].
  fold (manual_username tiktok_url) in Hhd, Hlast.
  assert (Hround : forall v,
             ~ In 64%N v -> hd 0%N v <> 47%N -> last v 0%N <> 47%N ->
             manual_username (tiktok_url_of v) = v
             /\ manual_username (tiktok_url_of v ++ lit "/") = v
             /\ manual_username v = v).
  { intros v Hv Hvhd Hvlast. unfold tiktok_url_of.
    change (lit "https://www.tiktok.com/@")
      with (lit "https://www.tiktok.com/" ++ [64%N]).
    rewrite <- !app_assoc.
    split; [|split].
    - rewrite (Hafter _ v Hv). exact (strip_char_id v Hzero Hvhd Hvlast).
    - rewrite (Hafter _ (v ++ lit "/")).
      + exact (strip_char_snoc v Hzero Hvhd Hvlast).
      + intros Hin. apply in_app_or in Hin.
        destruct Hin as [Hin | [Hin | []]]; [now apply Hv | discriminate].
    - rewrite (Hbare v Hv). exact (strip_char_id v Hzero Hvhd Hvlast). }
  split; [exact Hat|]. split; [exact Hhd|]. split; [exact Hlast|].
  split; [intros pre rest -> Hrest; now apply Hafter|].
  split; [exact (Hbare tiktok_url)|].
  split; [exact Hround|].
  now apply Hround.
Qed.

(* ----------------------------------------------------------------- *)
(** ** Verification, manual accounts and the export *)

Section VerificationFacts.

Lemma statuses_differ : PyStr.eqb compte_verifie aucun_compte = false.
Proof. vm_compute. reflexivity. Qed.

Lemma export_row_cases (deputy : DeputyRow) :
  export_row deputy
  = if no_tiktok_account deputy then
      Some (mkCsvRow (dep_name deputy)
              (match legislatures deputy with
               | [] => []
               | _ :: _ => join (lit ", ") (legislatures deputy)
               end)
              [] [] aucun_compte)
    else
      match human_verified_username deputy with
      | Some (c :: t) =>
          Some (mkCsvRow (dep_name deputy)
                  (match legislatures deputy with
                   | [] => []
                   | _ :: _ => join (lit ", ") (legislatures deputy)
                   end)
                  (c :: t) (tiktok_url_of (c :: t)) compte_verifie)
      | _ => None
      end.
Proof.
  unfold export_row. cbv zeta.
  destruct (no_tiktok_account deputy); [reflexivity|].
  destruct (human_verified_username deputy) as [[|c t]|]; reflexivity.
Qed.

Lemma add_manual_account_flags (deputy : DeputyRow) (tiktok_url : pystr) :
  let updated := add_manual_account deputy tiktok_url in
  dep_name updated = dep_name deputy
  /\ legislatures updated = legislatures deputy
  /\ no_tiktok_account updated = no_tiktok_account deputy
  /\ verified_by_human updated = true
  /\ human_verified_username updated = Some (manual_username tiktok_url).
Proof.
  cbv zeta. unfold add_manual_account. cbv zeta.
  destruct (dep_top_3_matches deputy);
    cbn [set_top_3_matches set_verified_by_human
         set_human_verified_username best_match_username];
    destruct (negb (truthy_column (best_match_username deputy)));
    cbn; repeat split; reflexivity.
Qed.

Lemma verify_deputy_flags (deputy : DeputyRow)
  (verification : VerificationUpdate) :
  let updated := verify_deputy deputy verification in
  dep_name updated = dep_name deputy
  /\ legislatures updated = legislatures deputy
  /\ no_tiktok_account updated
     = match vu_no_tiktok_account verification with
       | Some flag => flag
       | None => no_tiktok_account deputy
       end
  /\ verified_by_human updated
     = match vu_no_tiktok_account verification with
       | Some true => true
       | _ => vu_verified_by_human verification
       end
  /\ human_verified_username updated
     = match vu_no_tiktok_account verification with
       | Some true => None
       | _ => vu_human_verified_username verification
       end.
Proof.
  cbv zeta. unfold verify_deputy. cbv zeta.
  destruct (vu_no_tiktok_account verification) as [[|]|];
    cbn; repeat split; reflexivity.
Qed.

Lemma export_rows_In (exported : list DeputyRow) (row : CsvRow) :
  In row (export_rows exported)
  <-> exists e, In e exported /\ export_row e = Some row.
Proof.
  unfold export_rows. rewrite in_flat_map.
  split; intros (e & He & H); exists e; (split; [exact He|]).
  - destruct (export_row e) as [r|]; [|destruct H].
    destruct H as [<- | []]. reflexivity.
  - rewrite H. now left.
Qed.

Section ExportFacts.

Variable order_by_name : list DeputyRow -> list DeputyRow.
Hypothesis order_by_name_perm :
  forall l, Permutation (order_by_name l) l.


(** The file for a table holding a single deputy. *)
Lemma export_single (deputy : DeputyRow) :
  export_verified_accounts order_by_name [deputy]
  = if verified_by_human deputy then
      match export_row deputy with
      | Some row => [row]
      | None => []
      end
    else [].
Proof.
  unfold export_verified_accounts. cbv zeta. cbn [filter].
  destruct (verified_by_human deputy).
  - rewrite (Permutation_length_1_inv
               (Permutation_sym (order_by_name_perm [deputy]))).
    cbn. now rewrite app_nil_r.
  - now rewrite (Permutation_nil
                   (Permutation_sym (order_by_name_perm []))).
Qed.

(** X24. The no-account mark wins over any identifier in the export, the
    export being that of a table holding just the deputy.
    [add_manual_account] always verifies the deputy and never changes
    the mark: a deputy marked as having no account who is then given a
    manual account is still exported as ['Aucun compte TikTok'] with an
    empty identifier, and an address whose identifier is empty gives an
    unmarked deputy no exported row at all although the deputy is
    verified. [verify_deputy] with the mark set verifies the deputy and
    drops the identifier whatever the request says. With the mark left
    out of the request, a marked deputy keeps the mark: a request that
    verifies it exports it without the identifier of the request, and a
    request that does not verify it leaves it out of the export. *)
Theorem no_account_mark_wins (deputy : DeputyRow) :
  (forall tiktok_url,
     let updated := add_manual_account deputy tiktok_url in
     verified_by_human updated = true
     /\ no_tiktok_account updated = no_tiktok_account deputy
     /\ (no_tiktok_account deputy = true ->
         exists row,
           export_verified_accounts order_by_name [updated] = [row]
           /\ csv_nom row = dep_name deputy
           /\ csv_username row = [] /\ csv_lien row = []
           /\ csv_statut row = aucun_compte)
     /\ (no_tiktok_account deputy = false ->
         manual_username tiktok_url = [] ->
         export_verified_accounts order_by_name [updated] = [])
     /\ (no_tiktok_account deputy = false ->
         manual_username tiktok_url <> [] ->
         exists row,
           export_verified_accounts order_by_name [updated] = [row]
           /\ csv_nom row = dep_name deputy
           /\ csv_username row = manual_username tiktok_url
           /\ csv_lien row = tiktok_url_of (manual_username tiktok_url)
           /\ csv_statut row = compte_verifie))
  /\ (forall verification,
        let updated := verify_deputy deputy verification in
        vu_no_tiktok_account verification = Some true ->
        verified_by_human updated = true
        /\ human_verified_username updated = None
        /\ no_tiktok_account updated = true
        /\ exists row,
             export_verified_accounts order_by_name [updated] = [row]
             /\ csv_nom row = dep_name deputy
             /\ csv_username row = [] /\ csv_lien row = []
             /\ csv_statut row = aucun_compte)
  /\ (forall verification,
        let updated := verify_deputy deputy verification in
        vu_no_tiktok_account verification = None ->
        no_tiktok_account deputy = true ->
        no_tiktok_account updated = true
        /\ verified_by_human updated = vu_verified_by_human verification
        /\ (vu_verified_by_human verification = true ->
            exists row,
              export_verified_accounts order_by_name [updated] = [row]
              /\ csv_nom row = dep_name deputy
              /\ csv_username row = [] /\ csv_lien row = []
              /\ csv_statut row = aucun_compte)
        /\ (vu_verified_by_human verification = false ->
            export_verified_accounts order_by_name [updated] = [])).
Proof.
  split; [|split].
  - intros tiktok_url. cbv zeta.
    destruct (add_manual_account_flags deputy tiktok_url)
      as (Hname & Hleg & Hflag & Hver & Huser).
    split; [exact Hver|]. split; [exact Hflag|].
    rewrite export_single, Hver, export_row_cases, Hflag, Huser, Hname, Hleg.
    split; [|split].
    + intros ->. eexists. split; [reflexivity|]. cbn.
      repeat split; reflexivity.
    + intros -> ->. reflexivity.
    + intros -> Hne.
      destruct (manual_username tiktok_url) as [|c t]; [now elim Hne|].
      eexists. split; [reflexivity|]. cbn. repeat split; reflexivity.
  - intros verification. cbv zeta. intros Hmark.
    destruct (verify_deputy_flags deputy verification)
      as (Hname & Hleg & Hflag & Hver & Huser).
    rewrite Hmark in Hflag, Hver, Huser.
    split; [exact Hver|]. split; [exact Huser|]. split; [exact Hflag|].
    rewrite export_single, Hver, export_row_cases, Hflag, Hname, Hleg.
    eexists. split; [reflexivity|]. cbn. repeat split; reflexivity.
  - intros verification. cbv zeta. intros Hmark Hdeputy.
    destruct (verify_deputy_flags deputy verification)
      as (Hname & Hleg & Hflag & Hver & _).
    rewrite Hmark in Hflag, Hver. rewrite Hdeputy in Hflag.
    split; [exact Hflag|]. split; [exact Hver|].
    rewrite export_single, Hver, export_row_cases, Hflag, Hname, Hleg.
    split.
    + intros ->. eexists. split; [reflexivity|]. cbn.
      repeat split; reflexivity.
    + intros ->. reflexivity.
Qed.

Lemma apply_verification_export (deputy fresh : DeputyRow) (row : CsvRow) :
  export_row deputy = Some row ->
  csv_nom row = dep_name deputy
  /\ snd (apply_verification fresh row) = 1%nat
  /\ dep_name (fst (apply_verification fresh row)) = dep_name fresh
  /\ verified_by_human (fst (apply_verification fresh row)) = true
  /\ no_tiktok_account (fst (apply_verification fresh row))
     = no_tiktok_account deputy
  /\ human_verified_username (fst (apply_verification fresh row))
     = if no_tiktok_account deputy then None
       else human_verified_username deputy.
Proof.
  rewrite export_row_cases. unfold apply_verification. cbv zeta.
  destruct (no_tiktok_account deputy).
  - intros H. injection H as <-. cbn [csv_statut csv_username csv_nom].
    rewrite pystr_eqb_refl. cbn. repeat split; reflexivity.
  - destruct (human_verified_username deputy) as [[|c t]|];
      try discriminate.
    intros H. injection H as <-. cbn [csv_statut csv_username csv_nom].
    rewrite statuses_differ, pystr_eqb_refl. cbn.
    repeat split; reflexivity.
Qed.


End ExportFacts.

End VerificationFacts.

Lemma no_account_mark_wins_witness :
  exists row,
    export_verified_accounts (fun l => l)
      [add_manual_account martin_without_account
         (tiktok_url_of (lit "mmartin"))]
    = [row]
    /\ csv_nom row = dep_name martin_without_account
    /\ csv_username row = [] /\ csv_lien row = []
    /\ csv_statut row = aucun_compte.
Proof.
  destruct (@no_account_mark_wins (fun l => l)
              (fun l => Permutation_refl l) martin_without_account)
    as [Hadd _].
  destruct (Hadd (tiktok_url_of (lit "mmartin"))) as (_ & _ & Hmarked & _).
  apply Hmarked. reflexivity.
Defined.


(* ----------------------------------------------------------------- *)
(** ** Export, then reload with the verifications *)

Section ReloadFacts.

(** What the loop over the CSV rows does to one row of the table. *)
Let step (d : DeputyRow) (row : CsvRow) : DeputyRow :=
  if truthy (csv_nom row) && PyStr.eqb (dep_name d) (csv_nom row)
  then fst (apply_verification d row)
  else d.

Lemma apply_verification_name (d : DeputyRow) (row : CsvRow) :
  dep_name (fst (apply_verification d row)) = dep_name d.
Proof.
  unfold apply_verification. cbv zeta.
  destruct (PyStr.eqb _ _); [reflexivity|].
  destruct (_ && _); reflexivity.
Qed.

Lemma apply_verification_count (d1 d2 : DeputyRow) (row : CsvRow) :
  snd (apply_verification d1 row) = snd (apply_verification d2 row).
Proof.
  unfold apply_verification. cbv zeta.
  destruct (PyStr.eqb _ _); [reflexivity|].
  destruct (_ && _); reflexivity.
Qed.

Lemma step_named (d : DeputyRow) (row : CsvRow) :
  truthy (csv_nom row) = true ->
  step d row
  = if PyStr.eqb (dep_name d) (csv_nom row)
    then fst (apply_verification d row) else d.
Proof. intros H. unfold step. now rewrite H. Qed.

Lemma step_unnamed (d : DeputyRow) (row : CsvRow) :
  truthy (csv_nom row) = false -> step d row = d.
Proof. intros H. unfold step. now rewrite H. Qed.

Lemma step_name (d : DeputyRow) (row : CsvRow) :
  dep_name (step d row) = dep_name d.
Proof.
  unfold step. destruct (_ && _); [apply apply_verification_name|].
  reflexivity.
Qed.

Lemma fold_step_name (rows : list CsvRow) (d : DeputyRow) :
  dep_name (fold_left step rows d) = dep_name d.
Proof.
  revert d. induction rows as [|row rows IH]; intros d; [reflexivity|].
  cbn [fold_left]. now rewrite IH, step_name.
Qed.

Lemma NoDup_map_inj (A B : Type) (f : A -> B) (l : list A) (a b : A) :
  NoDup (List.map f l) -> In a l -> In b l -> f a = f b -> a = b.
Proof.
  induction l as [|x l IH]; [intros _ []|].
  cbn [List.map]. intros Hnd Ha Hb Hab.
  inversion Hnd as [|? ? Hx Hl]; subst.
  destruct Ha as [<-|Ha], Hb as [<-|Hb].
  - reflexivity.
  - exfalso. apply Hx. rewrite Hab. now apply in_map.
  - exfalso. apply Hx. rewrite <- Hab. now apply in_map.
  - now apply IH.
Qed.

Lemma apply_to_first_map (row : CsvRow) (cur : list DeputyRow) :
  NoDup (List.map dep_name cur) ->
  fst (apply_to_first row cur)
  = List.map
      (fun d =>
         if PyStr.eqb (dep_name d) (csv_nom row)
         then fst (apply_verification d row) else d)
      cur.
Proof.
  induction cur as [|a rest IH]; [reflexivity|].
  cbn [List.map apply_to_first]. intros Hnd.
  inversion Hnd as [|? ? Ha Hrest]; subst.
  destruct (PyStr.eqb (dep_name a) (csv_nom row)) eqn:Heq.
  - destruct (apply_verification a row) as [a' n]. cbn [fst]. f_equal.
    rewrite <- (map_id rest) at 1. apply map_ext_in. intros d Hd.
    destruct (PyStr.eqb (dep_name d) (csv_nom row)) eqn:Hd'; [|reflexivity].
    exfalso. apply Ha. apply pystr_eqb_eq in Heq, Hd'.
    rewrite Heq, <- Hd'. now apply in_map.
  - specialize (IH Hrest).
    destruct (apply_to_first row rest) as [rest' n]. cbn [fst] in *.
    now rewrite IH.
Qed.

Lemma apply_to_first_count (row : CsvRow) (cur : list DeputyRow)
  (k : nat) :
  In (csv_nom row) (List.map dep_name cur) ->
  (forall d, snd (apply_verification d row) = k) ->
  snd (apply_to_first row cur) = k.
Proof.
  intros Hin Hk. induction cur as [|a rest IH]; [destruct Hin|].
  cbn [List.map apply_to_first] in *.
  destruct (PyStr.eqb (dep_name a) (csv_nom row)) eqn:Heq.
  - rewrite <- (Hk a). now destruct (apply_verification a row).
  - destruct Hin as [Ha | Hin].
    + rewrite Ha, pystr_eqb_refl in Heq. discriminate.
    + specialize (IH Hin).
      destruct (apply_to_first row rest) as [rest' n]. exact IH.
Qed.

Lemma apply_to_first_names (row : CsvRow) (cur : list DeputyRow) :
  List.map dep_name (fst (apply_to_first row cur)) = List.map dep_name cur.
Proof.
  induction cur as [|a rest IH]; [reflexivity|].
  cbn [apply_to_first].
  destruct (PyStr.eqb (dep_name a) (csv_nom row)).
  - pose proof (apply_verification_name a row) as Hname.
    destruct (apply_verification a row) as [a' n]. cbn [fst] in *.
    cbn [List.map]. now rewrite Hname.
  - destruct (apply_to_first row rest) as [rest' n]. cbn [fst] in *.
    cbn [List.map]. now rewrite IH.
Qed.

Lemma apply_rows_map (rows : list CsvRow) (cur : list DeputyRow) (n : nat) :
  NoDup (List.map dep_name cur) ->
  fst (apply_rows rows cur n)
  = List.map (fun d => fold_left step rows d) cur.
Proof.
  revert cur n. induction rows as [|row rows IH]; intros cur n Hnd.
  - cbn. now rewrite map_id.
  - cbn [apply_rows fold_left].
    destruct (truthy (csv_nom row)) eqn:Hnom; cbn [negb].
    + pose proof (@apply_to_first_map row cur Hnd) as Hmap.
      pose proof (apply_to_first_names row cur) as Hnames.
      destruct (apply_to_first row cur) as [cur' k]. cbn [fst] in *.
      rewrite IH by now rewrite Hnames.
      rewrite Hmap, map_map. apply map_ext. intros d.
      now rewrite (@step_named d row Hnom).
    + rewrite IH by assumption. apply map_ext. intros d.
      now rewrite (@step_unnamed d row Hnom).
Qed.

Lemma apply_rows_count (rows : list CsvRow) (cur : list DeputyRow)
  (n : nat) :
  Forall
    (fun row =>
       truthy (csv_nom row) = true
       /\ In (csv_nom row) (List.map dep_name cur)
       /\ forall d, snd (apply_verification d row) = 1%nat)
    rows ->
  snd (apply_rows rows cur n) = (n + List.length rows)%nat.
Proof.
  revert cur n. induction rows as [|row rows IH]; intros cur n Hrows.
  - cbn. lia.
  - inversion Hrows as [|? ? (Hnom & Hin & Hone) Hrest]; subst.
    cbn [apply_rows]. rewrite Hnom. cbn [negb].
    pose proof (apply_to_first_names row cur) as Hnames.
    pose proof (@apply_to_first_count row cur 1%nat Hin Hone) as Hcount.
    destruct (apply_to_first row cur) as [cur' k]. cbn [fst snd] in *.
    rewrite IH.
    + subst k. cbn [List.length]. lia.
    + revert Hrest. apply Forall_impl. intros r (H1 & H2 & H3).
      rewrite Hnames. now repeat split.
Qed.

Lemma export_row_nom (e : DeputyRow) (row : CsvRow) :
  export_row e = Some row -> csv_nom row = dep_name e.
Proof.
  rewrite export_row_cases.
  destruct (no_tiktok_account e); [intros H; now injection H as <-|].
  destruct (human_verified_username e) as [[|c t]|]; try discriminate.
  intros H. now injection H as <-.
Qed.

Lemma fold_step_other (rows : list CsvRow) (x : DeputyRow) :
  (forall row, In row rows -> csv_nom row <> dep_name x) ->
  fold_left step rows x = x.
Proof.
  revert x. induction rows as [|row rows IH]; intros x H; [reflexivity|].
  cbn [fold_left].
  assert (Hstep : step x row = x).
  { unfold step. rewrite pystr_eqb_neq; [now rewrite andb_false_r|].
    intros Heq. apply (H row); [now left | now symmetry]. }
  rewrite Hstep. apply IH. intros r Hr. apply H. now right.
Qed.

Lemma fold_step_export (exported : list DeputyRow) (d x : DeputyRow) :
  NoDup (List.map dep_name exported) ->
  In d exported ->
  truthy (dep_name d) = true ->
  dep_name x = dep_name d ->
  fold_left step (export_rows exported) x
  = match export_row d with
    | Some row => fst (apply_verification x row)
    | None => x
    end.
Proof.
  intros Hnd Hin Hd. revert x.
  induction exported as [|e ex IH]; intros x Hx; [destruct Hin|].
  cbn [List.map] in Hnd. inversion Hnd as [|? ? He Hex]; subst.
  change (export_rows (e :: ex))
    with ((match export_row e with Some row => [row] | None => [] end)
          ++ export_rows ex).
  rewrite fold_left_app.
  destruct Hin as [-> | Hin].
  - assert (Hrest : forall y, dep_name y = dep_name d ->
                              fold_left step (export_rows ex) y = y).
    { intros y Hy. apply fold_step_other. intros row Hrow Heq.
      apply export_rows_In in Hrow. destruct Hrow as (e' & He' & Hrow).
      apply export_row_nom in Hrow. apply He.
      rewrite <- Hy, <- Heq, Hrow. now apply in_map. }
    destruct (export_row d) as [row|] eqn:Hrow; cbn [fold_left].
    + rewrite Hrest by now rewrite step_name.
      unfold step. rewrite (export_row_nom _ Hrow), Hd, Hx.
      now rewrite pystr_eqb_refl.
    + now apply Hrest.
  - assert (Hne : dep_name e <> dep_name x).
    { intros Heq. apply He. rewrite Heq, Hx. now apply in_map. }
    assert (Hfirst :
              fold_left step
                (match export_row e with Some row => [row] | None => [] end)
                x = x).
    { apply fold_step_other. intros row Hrow.
      destruct (export_row e) as [r|] eqn:Hr; [|destruct Hrow].
      destruct Hrow as [<- | []]. now rewrite (export_row_nom _ Hr). }
    rewrite Hfirst. now apply IH.
Qed.

Section Reload.

(** The rows a reload puts in the place of the former ones: any rows
    under the same names. *)
Variable reset : DeputyRow -> DeputyRow.
Hypothesis reset_name : forall d, dep_name (reset d) = dep_name d.

(** X26. Take a table whose names are non-empty and pairwise distinct,
    export it, reload the table under the same names, and apply the
    exported rows as [initialize_with_verifications] does, the rows of
    the file coming in any order. Every exported row is counted, and
    each row of the new table is the reloaded row with the exported row
    of its deputy applied when the deputy was verified and exported, and
    the reloaded row itself otherwise. *)
Theorem verifications_survive_reload (db exported : list DeputyRow) :
  NoDup (List.map dep_name db) ->
  Forall (fun d => truthy (dep_name d) = true) db ->
  Permutation exported (filter verified_by_human db) ->
  apply_rows (export_rows exported) (List.map reset db) 0
  = (List.map
       (fun d =>
          if verified_by_human d then
            match export_row d with
            | Some row => fst (apply_verification (reset d) row)
            | None => reset d
            end
          else reset d)
       db,
     List.length (export_rows exported)).
Proof.
  intros Hnd Hnames Hperm.
  assert (Hreset : List.map dep_name (List.map reset db)
                   = List.map dep_name db).
  { rewrite map_map. apply map_ext. exact reset_name. }
  assert (Hexp : forall e, In e exported ->
                           In e db /\ verified_by_human e = true).
  { intros e He. apply (Permutation_in _ Hperm) in He.
    now apply filter_In in He. }
  rewrite (surjective_pairing (apply_rows _ _ _)). f_equal.
  - rewrite apply_rows_map by now rewrite Hreset.
    rewrite map_map. apply map_ext_in. intros d Hd.
    destruct (verified_by_human d) eqn:Hv.
    + apply fold_step_export.
      * apply (Permutation_NoDup
                 (Permutation_map _ (Permutation_sym Hperm))).
        now apply NoDup_map_filter.
      * apply (Permutation_in _ (Permutation_sym Hperm)).
        apply filter_In. now split.
      * rewrite Forall_forall in Hnames. now apply Hnames.
      * apply reset_name.
    + apply fold_step_other. intros row Hrow Heq.
      apply export_rows_In in Hrow. destruct Hrow as (e & He & Hrow).
      apply export_row_nom in Hrow. destruct (Hexp e He) as [Hin Hver].
      assert (e = d).
      { apply (NoDup_map_inj dep_name db); try assumption.
        now rewrite <- Hrow, Heq, reset_name. }
      subst e. rewrite Hv in Hver. discriminate.
  - rewrite apply_rows_count; [reflexivity|].
    apply Forall_forall. intros row Hrow.
    apply export_rows_In in Hrow. destruct Hrow as (e & He & Hrow).
    destruct (Hexp e He) as [Hin _].
    rewrite (export_row_nom _ Hrow), Hreset.
    split; [rewrite Forall_forall in Hnames; now apply Hnames|].
    split; [now apply in_map|].
    intros d0. now destruct (apply_verification_export e d0 Hrow)
      as (_ & H & _).
Qed.

End Reload.

End ReloadFacts.

Lemma verifications_survive_reload_witness :
  apply_rows (export_rows [verified_dupont; martin_without_account])
    (List.map reset_verification
       [verified_dupont; martin_without_account; stored_durand]) 0
  = (List.map
       (fun d =>
          if verified_by_human d then
            match export_row d with
            | Some row =>
                fst (apply_verification (reset_verification d) row)
            | None => reset_verification d
            end
          else reset_verification d)
       [verified_dupont; martin_without_account; stored_durand],
     List.length (export_rows [verified_dupont; martin_without_account])).
Proof.
  apply (@verifications_survive_reload reset_verification).
  - intros d. reflexivity.
  - cbn. repeat constructor; cbn; intuition discriminate.
  - repeat constructor.
  - cbn. apply Permutation_refl.
Defined.

(* ----------------------------------------------------------------- *)
(** ** The variants of a Twitter handle *)

Section HandleFacts.

Variable str_strip : pystr -> pystr.
Variable str_lower : pystr -> pystr.

Lemma remove_char_absent (a : codepoint) (s : pystr) :
  ~ In a (remove_char a s).
Proof.
  unfold remove_char. intros Hin. apply filter_In in Hin.
  destruct Hin as [_ H]. now rewrite N.eqb_refl in H.
Qed.

Lemma remove_char_id (a : codepoint) (s : pystr) :
  ~ In a s -> remove_char a s = s.
Proof.
  intros Hs. unfold remove_char. apply filter_Forall_id.
  apply Forall_forall. intros c Hc.
  destruct (N.eqb_spec c a) as [->|]; [now elim Hs | reflexivity].
Qed.

Lemma remove_char_shorter (a : codepoint) (s : pystr) :
  In a s -> (List.length (remove_char a s) < List.length s)%nat.
Proof.
  unfold remove_char. induction s as [|c t IH]; [intros []|].
  cbn [filter List.length]. intros [-> | Hin].
  - rewrite N.eqb_refl. cbn [negb].
    apply Nat.lt_succ_r, filter_length_le.
  - specialize (IH Hin). destruct (negb (c =? a)%N); cbn [List.length]; lia.
Qed.

Lemma replace_char_absent (a b : codepoint) (s : pystr) :
  a <> b -> ~ In a (replace_char a b s).
Proof.
  intros Hab. unfold replace_char. intros Hin. apply in_map_iff in Hin.
  destruct Hin as (c & Hc & _).
  destruct (N.eqb_spec c a); congruence.
Qed.

Lemma replace_char_id (a b : codepoint) (s : pystr) :
  ~ In a s -> replace_char a b s = s.
Proof.
  intros Hs. unfold replace_char. rewrite <- (map_id s) at 2.
  apply map_ext_in. intros c Hc.
  destruct (N.eqb_spec c a) as [->|]; [now elim Hs | reflexivity].
Qed.

Lemma replace_char_changes (a b : codepoint) (s : pystr) :
  a <> b -> In a s -> replace_char a b s <> s.
Proof.
  intros Hab Hin Heq. apply (@replace_char_absent a b s Hab).
  now rewrite Heq.
Qed.

Lemma replace_char_length (a b : codepoint) (s : pystr) :
  List.length (replace_char a b s) = List.length s.
Proof. apply length_map. Qed.

(** X27. One cell of the Twitter table adds at most three candidates,
    without repetition and each of two characters or more: the cleaned
    handle first, then forms without underscore. A handle without
    underscore adds the cleaned handle alone; a handle with an
    underscore always adds the form with dots in its place, and the form
    with the underscores removed unless that leaves fewer than two
    characters. *)
Theorem handle_variants_spec (handle : option pystr) :
  let vs := handle_variants str_strip str_lower handle in
  NoDup vs
  /\ (List.length vs <= 3)%nat
  /\ Forall (fun v => (2 <= List.length v)%nat) vs
  /\ Forall (fun v => ~ In 95%N v) (tl vs)
  /\ (forall h,
        handle = Some h ->
        let clean := str_lower (lstrip_at (str_strip h)) in
        (vs = [] \/ hd_error vs = Some clean)
        /\ (vs <> []
            <-> h <> [] /\ str_strip h <> []
                /\ (2 <= List.length clean)%nat)
        /\ (~ In 95%N clean -> vs = [] \/ vs = [clean])
        /\ (In 95%N clean -> vs <> [] ->
            last vs [] = replace_char 95%N 46%N clean
            /\ (In (remove_char 95%N clean) vs
                <-> (2 <= List.length (remove_char 95%N clean))%nat))).
Proof.
  cbv zeta. destruct handle as [h|];
    [|cbn; repeat split; try constructor; try lia; intros; discriminate].
  unfold handle_variants. cbv zeta.
  set (clean := str_lower (lstrip_at (str_strip h))).
  assert (Htruthy : forall s : pystr, truthy s = true <-> s <> []).
  { intros [|c t]; cbn; split; try discriminate; try reflexivity.
    intros H. now elim H. }
  assert (Hlong : forall s : pystr,
             truthy s && (1 <? List.length s)%nat = true
             <-> (2 <= List.length s)%nat) by apply long_enough.
  destruct (truthy h && truthy (str_strip h)) eqn:Hh.
  2:{ cbn. split; [constructor|]. split; [lia|].
      split; [constructor|]. split; [constructor|].
      intros h' Hh'. injection Hh' as <-.
      split; [now left|]. split; [|split; [now left | intros _ H; now elim H]].
      split; [intros H; now elim H|]. intros (H1 & H2 & _).
      apply Htruthy in H1, H2. rewrite H1, H2 in Hh. discriminate. }
  apply andb_prop in Hh. destruct Hh as [Hh1 Hh2].
  apply Htruthy in Hh1, Hh2.
  destruct (truthy clean && (1 <? List.length clean)%nat) eqn:Hclean.
  2:{ cbn. split; [constructor|]. split; [lia|].
      split; [constructor|]. split; [constructor|].
      intros h' Hh'. injection Hh' as <-.
      split; [now left|]. split; [|split; [now left | intros _ H; now elim H]].
      split; [intros H; now elim H|]. intros (_ & _ & H3).
      apply Hlong in H3. fold clean in H3. rewrite H3 in Hclean.
      discriminate. }
  apply Hlong in Hclean.
  destruct (in_dec N.eq_dec 95%N clean) as [Hin | Hnot].
  - pose proof (@remove_char_shorter 95%N clean Hin) as Hshort.
    assert (Hnu : remove_char 95%N clean <> clean).
    { intros Heq. rewrite Heq in Hshort. lia. }
    assert (Hwd : replace_char 95%N 46%N clean <> clean).
    { apply replace_char_changes; [discriminate | exact Hin]. }
    pose proof (replace_char_length 95%N 46%N clean) as Hwlen.
    assert (Hdiff : remove_char 95%N clean <> replace_char 95%N 46%N clean).
    { intros Heq. rewrite Heq in Hshort. lia. }
    rewrite (pystr_eqb_neq Hnu), (pystr_eqb_neq Hwd). cbn [negb andb].
    assert (Hw1 : (1 <? List.length (replace_char 95%N 46%N clean))%nat
                  = true) by (apply Nat.ltb_lt; lia).
    rewrite Hw1.
    assert (Habs1 : ~ In 95%N (remove_char 95%N clean))
      by apply remove_char_absent.
    assert (Habs2 : ~ In 95%N (replace_char 95%N 46%N clean))
      by (apply replace_char_absent; discriminate).
    destruct (1 <? List.length (remove_char 95%N clean))%nat eqn:Hn1.
    + apply Nat.ltb_lt in Hn1. cbn [app].
      split.
      { repeat constructor; cbn; intuition congruence. }
      split; [cbn; lia|].
      split; [repeat constructor; lia|].
      split; [cbn [tl]; repeat constructor; assumption|].
      intros h' Hh'. injection Hh' as <-. fold clean.
      split; [now right|].
      split; [split; [intros _; now repeat split | discriminate]|].
      split; [intros H; now elim H|].
      intros _ _. split; [reflexivity|].
      split; [intros _; lia | intros _; cbn; tauto].
    + apply Nat.ltb_ge in Hn1. cbn [app].
      split.
      { repeat constructor; cbn; intuition congruence. }
      split; [cbn; lia|].
      split; [repeat constructor; lia|].
      split; [cbn [tl]; repeat constructor; assumption|].
      intros h' Hh'. injection Hh' as <-. fold clean.
      split; [now right|].
      split; [split; [intros _; now repeat split | discriminate]|].
      split; [intros H; now elim H|].
      intros _ _. split; [reflexivity|].
      split; [|intros H; lia].
      intros [H | [H | []]]; [now elim Hnu | now elim Hdiff].
  - rewrite (@remove_char_id 95%N clean Hnot),
      (@replace_char_id 95%N 46%N clean Hnot).
    rewrite pystr_eqb_refl. cbn [negb andb].
    split; [repeat constructor; intros []|].
    split; [cbn; lia|].
    split; [repeat constructor; lia|].
    split; [constructor|].
    intros h' Hh'. injection Hh' as <-. fold clean.
    split; [now right|].
    split; [split; [intros _; now repeat split | discriminate]|].
    split; [intros _; now right|].
    intros H. now elim Hnot.
Qed.

End HandleFacts.
